(** * helloworld: the spreadsheet-to-static-site generators

    A shallow embedding of the three generator scripts of the repository
    ([build.py], [build_sites.py], [generate_sites.py]) and the properties
    their specification states about them.

    Python values are modelled as follows:
    - [str] is the list of the string's Unicode code points ([N]);
    - [int] is [Z];
    - [float] is a binary64 value ([spec_float] with 53 bits and
      exponent bound 1024);
    - an exception is a value of [exn], and code that can raise returns
      a [result];
    - an [xml.etree] element is a rose tree of tags, attributes and text. *)

From Stdlib Require Import ZArith NArith List String Ascii Bool Lia SpecFloat.
From Stdlib Require Import DecimalPos DecimalN.
From stdpp Require Import base option list gmap.

Local Open Scope N_scope.

(** ** Exceptions and results *)

Inductive exn : Type :=
  | IndexError
  | ValueError
  | TypeError
  | OverflowError
  | KeyError
  | AttributeError
  | FileExistsError
  | FileNotFoundError
  | NotADirectoryError
  | IsADirectoryError.

Inductive result (A : Type) : Type :=
  | Ok (a : A)
  | Raise (e : exn).

Arguments Ok {A} a.
Arguments Raise {A} e.

#[global] Instance result_ret : MRet result := fun A a => Ok a.

#[global] Instance result_bind : MBind result := fun A B k r =>
  match r with
  | Ok a => k a
  | Raise e => Raise e
  end.

#[global] Instance result_fmap : FMap result := fun A B f r =>
  match r with
  | Ok a => Ok (f a)
  | Raise e => Raise e
  end.

(** [for x in xs: ...] with a body that can raise: the first exception
    stops the loop. *)
Fixpoint rmap {A B : Type} (f : A -> result B) (xs : list A) : result (list B) :=
  match xs with
  | [] => Ok []
  | x :: xs' => y ← f x; ys ← rmap f xs'; Ok (y :: ys)
  end.

Definition raises {A : Type} (r : result A) : bool :=
  match r with
  | Ok _ => false
  | Raise _ => true
  end.

(** ** Strings *)

(** A Python [str]: its code points. *)
Definition str : Type := list N.

(** String literals of the scripts are written as Rocq strings (UTF-8
    bytes) and decoded to code points. *)
Fixpoint utf8_decode (acc : N) (need : nat) (bs : list N) : str :=
  match bs with
  | [] => []
  | b :: bs' =>
      match need with
      | S k =>
          let acc' := acc * 64 + b mod 64 in
          match k with
          | O => acc' :: utf8_decode 0 0 bs'
          | S _ => utf8_decode acc' k bs'
          end
      | O =>
          if b <? 128 then b :: utf8_decode 0 0 bs'
          else if b <? 224 then utf8_decode (b mod 32) 1 bs'
          else if b <? 240 then utf8_decode (b mod 16) 2 bs'
          else utf8_decode (b mod 8) 3 bs'
      end
  end.

Definition u (s : string) : str :=
  utf8_decode 0 0 (map N_of_ascii (list_ascii_of_string s)).

Arguments u s%_string.

(** A literal that contains double quotes is written with a backquote in
    the place of each (the scripts' literals hold no backquote). *)
Definition q (s : string) : str :=
  map (fun c => if c =? 96 then 34 else c) (u s).

Arguments q s%_string.

Definition str_eqb (a b : str) : bool := bool_decide (a = b).

(** [ord]-ranges used by the scripts. *)
Definition in_range (lo hi c : N) : bool := (lo <=? c) && (c <=? hi).

Definition is_upper (c : N) : bool := in_range 65 90 c.    (* A-Z *)
Definition is_lower (c : N) : bool := in_range 97 122 c.   (* a-z *)
Definition is_digit (c : N) : bool := in_range 48 57 c.    (* 0-9 *)
Definition is_cjk (c : N) : bool := in_range 0x4e00 0x9fff c.

(** *** The Unicode character database

    [str.strip], [str.lower], the pattern [\w] and [float] consult the
    Unicode tables of the interpreter.  Their rows for ASCII are written
    out below; the rows of the other code points are a parameter of the
    development. *)
Class Unicode : Type := {
  (** [chr(c).isspace()] for [c >= 128] *)
  isspace_ext : N -> bool;
  (** [chr(c).isalnum()] for [c >= 128] *)
  isalnum_ext : N -> bool;
  (** [unicodedata.decimal(chr(c))] for [c >= 128] *)
  decimal_ext : N -> option N;
  (** the lower-case mapping of a code point [c >= 128] outside the CJK
      block, given the text before and after it (the mapping of capital
      sigma depends on both) *)
  lower_ext : str -> N -> str -> str;
}.

(** Tables in which no code point above ASCII is white space,
    alphanumeric, a digit or cased; the concrete examples below, all in
    ASCII and CJK text, are evaluated with them. *)
Definition plain_tables : Unicode := {|
  isspace_ext := fun _ => false;
  isalnum_ext := fun _ => false;
  decimal_ext := fun _ => None;
  lower_ext := fun _ c _ => [c];
|}.

Section Strings.
Context {U : Unicode}.

(** [Py_UNICODE_ISSPACE] *)
Definition isspace (c : N) : bool :=
  if c <? 128 then in_range 9 13 c || in_range 28 32 c else isspace_ext c.

(** a character matched by [\w] in a [str] pattern *)
Definition isword (c : N) : bool :=
  if c <? 128 then is_upper c || is_lower c || is_digit c || (c =? 95)
  else isalnum_ext c.

(** [str.lower] *)
Fixpoint lower_from (before : str) (s : str) : str :=
  match s with
  | [] => []
  | c :: s' =>
      (if c <? 128 then [if is_upper c then c + 32 else c]
       else if is_cjk c then [c]
       else lower_ext before c s')
      ++ lower_from (before ++ [c]) s'
  end.

Definition lower (s : str) : str := lower_from [] s.

(** [str.lstrip]/[str.rstrip]/[str.strip] with the characters to remove
    given as a predicate *)
Fixpoint lstrip_by (p : N -> bool) (s : str) : str :=
  match s with
  | [] => []
  | c :: s' => if p c then lstrip_by p s' else s
  end.

Definition rstrip_by (p : N -> bool) (s : str) : str :=
  reverse (lstrip_by p (reverse s)).

Definition strip_by (p : N -> bool) (s : str) : str :=
  rstrip_by p (lstrip_by p s).

(** [s.strip()] *)
Definition strip (s : str) : str := strip_by isspace s.

(** [s.strip(chars)] and friends *)
Definition strip_chars (chars : str) (s : str) : str :=
  strip_by (fun c => bool_decide (c ∈ chars)) s.
Definition lstrip_chars (chars : str) (s : str) : str :=
  lstrip_by (fun c => bool_decide (c ∈ chars)) s.
Definition rstrip_chars (chars : str) (s : str) : str :=
  rstrip_by (fun c => bool_decide (c ∈ chars)) s.

(** [s.startswith(prefix)] *)
Fixpoint startswith (s prefix : str) : bool :=
  match prefix, s with
  | [], _ => true
  | _ :: _, [] => false
  | p :: prefix', c :: s' => (c =? p) && startswith s' prefix'
  end.

(** [re.sub(r"[class]+", repl, s)]: every maximal run of characters of
    the class is replaced by [repl]; [in_run] tells that the character
    before belongs to a run already replaced. *)
Fixpoint sub_runs_from (in_run : bool) (cls : N -> bool) (repl s : str) : str :=
  match s with
  | [] => []
  | c :: s' =>
      if cls c then
        (if in_run then [] else repl) ++ sub_runs_from true cls repl s'
      else c :: sub_runs_from false cls repl s'
  end.

Definition sub_runs (cls : N -> bool) (repl s : str) : str :=
  sub_runs_from false cls repl s.
End Strings.


(** [s.replace(old, new)] for a non-empty [old]: the occurrences of [old]
    are replaced from left to right, without overlap; [skip] counts the
    characters of the occurrence just replaced that are still to pass. *)
Fixpoint replace_from (skip : nat) (old new s : str) : str :=
  match s with
  | [] => []
  | c :: s' =>
      match skip with
      | S k => replace_from k old new s'
      | O =>
          if startswith s old
          then new ++ replace_from (pred (length old)) old new s'
          else c :: replace_from 0 old new s'
      end
  end.

Definition replace (old new s : str) : str := replace_from 0 old new s.

(** [sep.join(parts)] *)
Fixpoint join (sep : str) (parts : list str) : str :=
  match parts with
  | [] => []
  | [p] => p
  | p :: rest => p ++ sep ++ join sep rest
  end.

(** [html.escape(s)], with its default [quote=True] *)
Definition escape_char (c : N) : str :=
  if c =? 38 then u "&amp;"
  else if c =? 60 then u "&lt;"
  else if c =? 62 then u "&gt;"
  else if c =? 34 then u "&quot;"
  else if c =? 39 then u "&#x27;"
  else [c].

Definition escape (s : str) : str := flat_map escape_char s.

(** ** Lists and integers *)

(** [l[i]]: a negative index counts from the end. *)
Definition subscript {A : Type} (l : list A) (i : Z) : result A :=
  let n := Z.of_nat (length l) in
  let j := (if i <? 0 then i + n else i)%Z in
  if (j <? 0)%Z then Raise IndexError
  else match l !! Z.to_nat j with
       | Some x => Ok x
       | None => Raise IndexError
       end.

(** [l[i:]] for [i >= 0] *)
Definition slice_from {A : Type} (i : nat) (l : list A) : list A := drop i l.

(** [str(n)] for an [int] *)
Fixpoint digits_of_uint (d : Decimal.uint) : str :=
  match d with
  | Decimal.Nil => []
  | Decimal.D0 d' => 48 :: digits_of_uint d'
  | Decimal.D1 d' => 49 :: digits_of_uint d'
  | Decimal.D2 d' => 50 :: digits_of_uint d'
  | Decimal.D3 d' => 51 :: digits_of_uint d'
  | Decimal.D4 d' => 52 :: digits_of_uint d'
  | Decimal.D5 d' => 53 :: digits_of_uint d'
  | Decimal.D6 d' => 54 :: digits_of_uint d'
  | Decimal.D7 d' => 55 :: digits_of_uint d'
  | Decimal.D8 d' => 56 :: digits_of_uint d'
  | Decimal.D9 d' => 57 :: digits_of_uint d'
  end.

Definition str_of_N (n : N) : str :=
  match n with
  | 0 => [48]
  | _ => digits_of_uint (N.to_uint n)
  end.

Definition str_of_int (z : Z) : str :=
  if (z <? 0)%Z then 45 :: str_of_N (Z.abs_N z) else str_of_N (Z.abs_N z).

(** *** Numeric literals

    [int(s)] and [float(s)] first bring the text to ASCII
    ([_PyUnicode_TransformDecimalAndSpaceToASCII]): white space becomes a
    blank, a decimal digit of any script its ASCII digit, and the text is
    cut at the first other character above ASCII, which is replaced by a
    question mark.  Then blanks around the literal are dropped
    ([Py_ISSPACE]) and underscores between digits are removed. *)
Section Numbers.
Context {U : Unicode}.

Fixpoint to_ascii (s : str) : str :=
  match s with
  | [] => []
  | c :: s' =>
      if c <? 127 then c :: to_ascii s'
      else if isspace c then 32 :: to_ascii s'
      else match (if c <? 128 then None else decimal_ext c) with
           | Some d => (48 + d) :: to_ascii s'
           | None => [63]
           end
  end.

(** [Py_ISSPACE] *)
Definition c_isspace (c : N) : bool := in_range 9 13 c || (c =? 32).

(** Underscores may only stand between two digits; [prev] is the
    character before.  [None] when one is misplaced. *)
Fixpoint drop_underscores (prev : N) (s : str) : option str :=
  match s with
  | [] => if prev =? 95 then None else Some []
  | c :: s' =>
      if c =? 95 then
        if is_digit prev then drop_underscores c s' else None
      else if (prev =? 95) && negb (is_digit c) then None
      else cons c <$> drop_underscores c s'
  end.

(** The value of a run of ASCII digits read after [acc]. *)
Definition digits_value (acc : Z) (ds : str) : Z :=
  fold_left (fun v d => (v * 10 + (Z.of_N d - 48))%Z) ds acc.

Definition split_sign (s : str) : bool * str :=
  match s with
  | 45 :: s' => (true, s')
  | 43 :: s' => (false, s')
  | _ => (false, s)
  end.

(** [int(s)] for a [str], base ten.  The interpreter's limit on the
    number of digits of a literal is not modelled. *)
Definition int_of_str (s : str) : result Z :=
  let body := strip_by c_isspace (to_ascii s) in
  let '(neg, rest) := split_sign body in
  match rest with
  | [] => Raise ValueError
  | d :: _ =>
      if is_digit d then
        match drop_underscores 0 rest with
        | Some ds =>
            if forallb is_digit ds
            then Ok (if neg then - digits_value 0 ds else digits_value 0 ds)%Z
            else Raise ValueError
        | None => Raise ValueError
        end
      else Raise ValueError
  end.

End Numbers.

(** ** Floats *)

(** A Python [float] is a binary64 value. *)
Definition float : Type := spec_float.

Definition prec : Z := 53.
Definition emax : Z := 1024.

(** The binary64 value nearest to [(-1)^neg * m * 10^e10] (ties to
    even), as [strtod] computes it; a value too large becomes an
    infinity. *)
Definition float_of_decimal (neg : bool) (m : Z) (e10 : Z) : float :=
  match m with
  | Zpos p =>
      if (0 <=? e10)%Z then
        binary_round prec emax neg (p * Z.to_pos (10 ^ e10)) 0
      else
        let '(q, e, l) :=
          SFdiv_core_binary prec emax (Zpos p) 0 (10 ^ (- e10)) 0 in
        binary_round_aux prec emax neg q e l
  | _ => S754_zero neg
  end.

(** The leading characters of [s] that satisfy [p], and the rest. *)
Fixpoint span (p : N -> bool) (s : str) : str * str :=
  match s with
  | [] => ([], [])
  | c :: s' =>
      if p c then let '(a, b) := span p s' in (c :: a, b) else ([], s)
  end.

Definition ascii_lower (s : str) : str :=
  map (fun c => if is_upper c then c + 32 else c) s.

Section FloatLiterals.
Context {U : Unicode}.

(** A decimal literal [digits [. digits] [e [sign] digits]] with a digit
    before or after the point: its mantissa and power of ten. *)
Definition parse_decimal (s : str) : option (Z * Z) :=
  let '(ip, r1) := span is_digit s in
  let '(fp, r2) :=
    match r1 with
    | 46 :: r => span is_digit r
    | _ => ([], r1)
    end in
  match ip ++ fp with
  | [] => None
  | ds =>
      let m := digits_value 0 ds in
      let scale := Z.of_nat (length fp) in
      match r2 with
      | [] => Some (m, - scale)%Z
      | c :: r3 =>
          if (c =? 101) || (c =? 69) then
            let '(eneg, r4) := split_sign r3 in
            match r4 with
            | [] => None
            | _ =>
                if forallb is_digit r4 then
                  let e := digits_value 0 r4 in
                  Some (m, (if eneg then - e else e) - scale)%Z
                else None
            end
          else None
      end
  end.

(** [float(s)] for a [str] *)
Definition float_of_str (s : str) : result float :=
  let body := strip_by c_isspace (to_ascii s) in
  match drop_underscores 0 body with
  | None => Raise ValueError
  | Some lit =>
      let '(neg, rest) := split_sign lit in
      let word := ascii_lower rest in
      if str_eqb word (u "inf") || str_eqb word (u "infinity")
      then Ok (S754_infinity neg)
      else if str_eqb word (u "nan") then Ok S754_nan
      else match parse_decimal rest with
           | Some (m, e10) => Ok (float_of_decimal neg m e10)
           | None => Raise ValueError
           end
  end.

End FloatLiterals.

(** [int(x)] for a [float]: the value truncated towards zero. *)
Definition int_of_float (x : float) : result Z :=
  match x with
  | S754_zero _ => Ok 0%Z
  | S754_finite s m e =>
      let a := (if 0 <=? e then Zpos m * 2 ^ e else Zpos m / 2 ^ (- e))%Z in
      Ok (if s then - a else a)%Z
  | S754_infinity _ => Raise OverflowError
  | S754_nan => Raise ValueError
  end.

(** [abs(x)] for a [float] *)
Definition float_abs (x : float) : float := SFabs x.

(** [f"{x:.1f}"]: one digit after the point, the exact value rounded to
    the nearest tenth, ties to even. *)
Definition tenths (m : positive) (e : Z) : Z :=
  if (0 <=? e)%Z then Zpos m * 10 * 2 ^ e
  else
    let d := (2 ^ (- e))%Z in
    let q := (Zpos m * 10 / d)%Z in
    let r := (Zpos m * 10 mod d)%Z in
    match (2 * r ?= d)%Z with
    | Lt => q
    | Gt => q + 1
    | Eq => if Z.even q then q else q + 1
    end.

Definition format_1f (x : float) : str :=
  match x with
  | S754_zero s => (if s then [45] else []) ++ u "0.0"
  | S754_finite s m e =>
      let t := tenths m e in
      (if s then [45] else [])
        ++ str_of_N (Z.to_N (t / 10)) ++ [46] ++ str_of_N (Z.to_N (t mod 10))
  | S754_infinity s => (if s then [45] else []) ++ u "inf"
  | S754_nan => u "nan"
  end.

(** ** [xml.etree.ElementTree] *)

(** An element: its tag (with the namespace in braces), its attributes,
    the text before its first child ([None] when there is none) and its
    children. *)
#[warnings="-register-all"]
Inductive element : Type :=
  | Element (tag : str) (attrib : gmap str str)
            (text : option str) (children : list element).

Definition tag (e : element) : str :=
  match e with Element t _ _ _ => t end.
Definition attrib (e : element) : gmap str str :=
  match e with Element _ a _ _ => a end.
Definition text (e : element) : option str :=
  match e with Element _ _ t _ => t end.
Definition children (e : element) : list element :=
  match e with Element _ _ _ cs => cs end.

(** [e.get(key)] and [e.get(key, default)] *)
Definition get_attr (e : element) (key : str) : option str := attrib e !! key.
Definition get_attr_default (e : element) (key default : str) : str :=
  match attrib e !! key with
  | Some v => v
  | None => default
  end.

(** The element and all elements below it, in document order. *)
Fixpoint subtree (e : element) : list element :=
  match e with
  | Element _ _ _ cs =>
      e :: (fix below (cs : list element) : list element :=
              match cs with
              | [] => []
              | c :: cs' => subtree c ++ below cs'
              end) cs
  end.

Definition has_tag (t : str) (e : element) : bool := str_eqb (tag e) t.

(** [e.iter(t)] *)
Definition iter (t : str) (e : element) : list element :=
  filter (fun x => has_tag t x = true) (subtree e).

(** [e.findall(t)] for a plain tag: the children with that tag *)
Definition findall (t : str) (e : element) : list element :=
  filter (fun x => has_tag t x = true) (children e).

(** [e.findall(".//t")]: the elements below [e] with that tag *)
Definition findall_descendants (t : str) (e : element) : list element :=
  filter (fun x => has_tag t x = true) (flat_map subtree (children e)).

(** [e.find(t)]: the first child with that tag *)
Definition find (t : str) (e : element) : option element :=
  head (findall t e).

(** [x or ""] for an optional text *)
Definition or_empty (t : option str) : str :=
  match t with
  | Some s => s
  | None => []
  end.

(** The namespace of the workbook parts and the tags the scripts read. *)
Definition ns : str :=
  u "{http://schemas.openxmlformats.org/spreadsheetml/2006/main}".
Definition si_tag : str := ns ++ u "si".
Definition t_tag : str := ns ++ u "t".
Definition row_tag : str := ns ++ u "row".
Definition c_tag : str := ns ++ u "c".
Definition v_tag : str := ns ++ u "v".
Definition sheetData_tag : str := ns ++ u "sheetData".

(** The archive, with its two parts already parsed; a part that the
    archive lacks makes [zf.read] raise [KeyError]. *)
Record workbook : Type := {
  sharedStrings_xml : option element;
  sheet1_xml : option element;
}.

Definition read_part (part : option element) : result element :=
  match part with
  | Some e => Ok e
  | None => Raise KeyError
  end.

(** ** Loops and exception handlers *)

(** [for x in xs: body], the loop's variables threaded as a state; an
    exception raised by the body leaves the loop. *)
Fixpoint for_each {S A : Type} (xs : list A) (s : S)
    (body : S -> A -> result S) : result S :=
  match xs with
  | [] => Ok s
  | x :: xs' => s' ← body s x; for_each xs' s' body
  end.

(** [try: r  except (TypeError, ValueError): None] *)
Definition except_type_value {A : Type} (r : result A) : result (option A) :=
  match r with
  | Ok a => Ok (Some a)
  | Raise TypeError => Ok None
  | Raise ValueError => Ok None
  | Raise e => Raise e
  end.

(** [float(value)] and [int(value)] for a value that is a [str] or [None] *)
Definition float_of `{U : Unicode} (value : option str) : result float :=
  match value with
  | Some s => float_of_str s
  | None => Raise TypeError
  end.

Definition int_of `{U : Unicode} (value : option str) : result Z :=
  match value with
  | Some s => int_of_str s
  | None => Raise TypeError
  end.

(** Truth value of a [str] or [None] *)
Definition truthy (value : option str) : bool :=
  match value with
  | Some (_ :: _) => true
  | _ => false
  end.

(** ** The output tree *)

(** A path below the working directory, its last component first:
    [Path("docs") / "assets"] is [[u "assets"; u "docs"]], and the parent
    of a path is its tail.  The working directory itself is [[]]. *)
Definition path : Type := list str.

Inductive node : Type :=
  | Dir
  | File (content : str).

(** The tree: the directories and files below the working directory.  A
    file holds the text written to it (its bytes are the UTF-8 encoding
    of that text). *)
Abbreviation filesystem := (gmap path node).

Definition node_at (fs : filesystem) (p : path) : option node :=
  match p with
  | [] => Some Dir
  | _ => fs !! p
  end.

(** [p.mkdir(parents=..., exist_ok=True)] *)
Fixpoint mkdir (parents : bool) (p : path) (fs : filesystem)
    : result filesystem :=
  match p with
  | [] => Ok fs
  | _ :: up =>
      match fs !! p with
      | Some Dir => Ok fs
      | Some (File _) => Raise FileExistsError
      | None =>
          match node_at fs up with
          | Some Dir => Ok (<[p := Dir]> fs)
          | Some (File _) => Raise NotADirectoryError
          | None =>
              if parents
              then fs' ← mkdir parents up fs; Ok (<[p := Dir]> fs')
              else Raise FileNotFoundError
          end
      end
  end.

(** [p.write_text(content, encoding="utf-8")] *)
Definition write_text (p : path) (content : str) (fs : filesystem)
    : result filesystem :=
  match p with
  | [] => Raise IsADirectoryError
  | _ :: up =>
      match node_at fs up with
      | Some Dir =>
          match fs !! p with
          | Some Dir => Raise IsADirectoryError
          | _ => Ok (<[p := File content]> fs)
          end
      | Some (File _) => Raise NotADirectoryError
      | None => Raise FileNotFoundError
      end
  end.

(** [str(p)] *)
Definition str_of_path (p : path) : str := join (u "/") (reverse p).

(** * [build.py] *)

Module Build.
Section Script.
Context {U : Unicode}.

Definition allowed (c : N) : bool := is_lower c || is_digit c || is_cjk c.

Definition slugify (text : str) : str :=
  let text := lower text in
  let text := sub_runs (fun c => negb (allowed c)) (u "-") text in
  let text := strip_chars (u "-") (sub_runs (fun c => c =? 45) (u "-") text) in
  let text := rstrip_chars (u "-") (take 60 text) in
  match text with
  | [] => u "store"
  | _ => text
  end.

Definition load_strings (zip : workbook) : result (list str) :=
  shared_strings ← read_part (sharedStrings_xml zip);
  Ok (map (fun t => or_empty (text t)) (iter t_tag shared_strings)).

(** The body of the loop over the cells of a row; a value is a [str] or
    [None] (a value node without text). *)
Definition load_cell (strings : list str) (values : list (option str))
    (cell : element) : result (list (option str)) :=
  let cell_type := get_attr cell (u "t") in
  let value_node := find v_tag cell in
  let value :=
    match value_node with
    | Some node => text node
    | None => Some []
    end in
  value ←
    (if bool_decide (cell_type = Some (u "s")) then
       if truthy value
       then i ← int_of value; Some <$> subscript strings i
       else Ok (Some [])
     else Ok value);
  Ok (values ++ [value]).

Definition load_rows (zip : workbook) (strings : list str)
    : result (list (list (option str))) :=
  sheet ← read_part (sheet1_xml zip);
  for_each (iter row_tag sheet) []
    (fun rows row =>
       values ← for_each (iter c_tag row) [] (load_cell strings);
       Ok (rows ++ [values])).

(** A record of [build.py], a [dict] with these keys.  The fields read
    from a cell as they are hold a [str] or [None]. *)
Record store : Type := {
  name : str;
  slug : str;
  map_url : option str;
  rating : str;
  review_count : str;
  category : option str;
  address : option str;
  status : option str;
  closing : str;
  phone : option str;
  image_url : option str;
  default_avatar : option str;
  snippet : str;
}.

Definition get (row : list (option str)) (index : Z) : result (option str) :=
  if (index <? Z.of_nat (length row))%Z then subscript row index
  else Ok (Some []).

Definition to_float (value : option str) : result (option float) :=
  except_type_value (float_of value).

(** [value.lstrip(chars)]: [None] has no such method. *)
Definition lstrip_of (chars : str) (value : option str) : result str :=
  match value with
  | Some s => Ok (lstrip_chars chars s)
  | None => Raise AttributeError
  end.

(** [sep.join(parts)] where a part may be [None], which [join] refuses *)
Definition join_values (sep : str) (parts : list (option str)) : result str :=
  join sep <$> rmap (fun p => match p with
                              | Some s => Ok s
                              | None => Raise TypeError
                              end) parts.

Definition parse_store (row : list (option str)) : result store :=
  name ← get row 1;
  let name :=
    if negb (truthy name) || startswith (or_empty name) (u "http")
    then u "未命名水電行" else or_empty name in
  rating_value ← get row 2 ≫= to_float;
  let rating :=
    match rating_value with
    | Some x => format_1f x
    | None => u "N/A"
    end in
  review_value ← get row 3 ≫= to_float;
  review_count ←
    match review_value with
    | None => Ok []
    | Some x => n ← int_of_float x; Ok (str_of_int (Z.abs n))
    end;
  category ← get row 4;
  address ← get row 7;
  status ← get row 8;
  closing ← get row 9 ≫= lstrip_of (u "· ");
  phone ← get row 11;
  image_url ← get row 12;
  default_avatar ← get row 13;
  parts ← rmap (get row) (seqZ 14 (Z.of_nat (length row) - 14));
  joined ← join_values [] parts;
  let snippet := strip (replace (u "_x000D_") (u " ") joined) in
  let slug := slugify name in
  map_url ← get row 0;
  Ok {| name := name; slug := slug; map_url := map_url; rating := rating;
        review_count := review_count; category := category;
        address := address; status := status; closing := closing;
        phone := phone; image_url := image_url;
        default_avatar := default_avatar; snippet := snippet |}.

(** [html.escape(value)]: [None] has no [replace] method. *)
Definition escape_of (value : option str) : result str :=
  match value with
  | Some s => Ok (escape s)
  | None => Raise AttributeError
  end.

(** [a or b] *)
Definition or_else (a b : option str) : option str :=
  if truthy a then a else b.

(** [[part for part in parts if part]] *)
Definition truthy_parts (parts : list (option str)) : list str :=
  flat_map (fun part => if truthy part then [or_empty part] else []) parts.

Definition status_text_of (store : store) : str :=
  let status_parts := truthy_parts [status store; Some (closing store)] in
  join (u " · ") status_parts.

Definition build_card (store : store) : result str :=
  let rating_block :=
    if negb (str_eqb (rating store) (u "N/A"))
    then u "<strong>" ++ escape (rating store) ++ u "</strong>"
    else u "N/A" in
  let reviews :=
    match review_count store with
    | [] => []
    | _ => u "（" ++ review_count store ++ u " 則評論）"
    end in
  let status_text := status_text_of store in
  image ← escape_of (or_else (image_url store) (default_avatar store));
  category ← escape_of (category store);
  address ← escape_of (address store);
  map_url ← escape_of (map_url store);
  Ok (q "
    <article class=`card`>
      <img src=`"
      ++ image
      ++ q "` alt=`"
      ++ escape (name store)
      ++ q "` loading=`lazy` />
      <div class=`card__body`>
        <h2><a href=`stores/"
      ++ slug store
      ++ q "/index.html`>"
      ++ escape (name store)
      ++ q "</a></h2>
        <p class=`card__meta`>"
      ++ rating_block
      ++ u " "
      ++ reviews
      ++ q "</p>
        <p class=`card__meta`>"
      ++ category
      ++ u "</p>
        <p>"
      ++ address
      ++ q "</p>
        <p class=`card__status`>"
      ++ escape status_text
      ++ q "</p>
        <div class=`card__actions`>
          <a class=`button` href=`stores/"
      ++ slug store
      ++ q "/index.html`>檢視店家頁面</a>
          <a class=`button button--ghost` href=`"
      ++ map_url
      ++ q "`>查看地圖</a>
        </div>
      </div>
    </article>
    ").

Definition render_index (stores : list store) : result str :=
  cards ← join [10] <$> rmap build_card stores;
  Ok (q "<!doctype html>
<html lang=`zh-Hant`>
<head>
  <meta charset=`utf-8` />
  <meta name=`viewport` content=`width=device-width, initial-scale=1` />
  <title>水電行列表</title>
  <link rel=`stylesheet` href=`assets/style.css` />
</head>
<body>
  <header class=`hero`>
    <div class=`hero__content`>
      <p class=`eyebrow`>GitHub Pages</p>
      <h1>水電行小百科</h1>
      <p>每一家水電行都有自己的獨立介紹頁面，點擊卡片即可前往。</p>
    </div>
  </header>
  <main class=`grid`>
    "
      ++ cards
      ++ u "
  </main>
</body>
</html>
").

Definition render_store (store : store) : result str :=
  let status_text := status_text_of store in
  let review_text :=
    match review_count store with
    | [] => []
    | _ => u "共有 " ++ review_count store ++ u " 則評論"
    end in
  let snippet :=
    match snippet store with
    | [] => u "暫無評論摘錄"
    | _ => escape (snippet store)
    end in
  phone_line ←
    (if truthy (phone store)
     then e ← escape_of (phone store);
          Ok (u "<p><strong>電話：</strong>" ++ e ++ u "</p>")
     else Ok []);
  category ← escape_of (category store);
  address ← escape_of (address store);
  map_url ← escape_of (map_url store);
  image ← escape_of (or_else (image_url store) (default_avatar store));
  Ok (q "<!doctype html>
<html lang=`zh-Hant`>
<head>
  <meta charset=`utf-8` />
  <meta name=`viewport` content=`width=device-width, initial-scale=1` />
  <title>"
      ++ escape (name store)
      ++ q "</title>
  <link rel=`stylesheet` href=`../assets/style.css` />
</head>
<body class=`store-page`>
  <div class=`store`>
    <a class=`back-link` href=`../index.html`>← 返回列表</a>
    <header>
      <h1>"
      ++ escape (name store)
      ++ q "</h1>
      <p class=`store__meta`>"
      ++ category
      ++ q "</p>
      <p class=`store__meta`>⭐ "
      ++ escape (rating store)
      ++ u " "
      ++ review_text
      ++ q "</p>
      <p class=`store__meta`>"
      ++ escape status_text
      ++ u "</p>
      <p>"
      ++ address
      ++ u "</p>
      "
      ++ phone_line
      ++ q "
      <p><a class=`button` href=`"
      ++ map_url
      ++ q "`>在 Google 地圖查看</a></p>
    </header>
    <img class=`store__image` src=`"
      ++ image
      ++ q "` alt=`"
      ++ escape (name store)
      ++ q "` loading=`lazy` />
    <section class=`store__section`>
      <h2>顧客回饋</h2>
      <p>"
      ++ snippet
      ++ u "</p>
    </section>
  </div>
</body>
</html>
").

Definition STYLE : str :=
  u "
:root {
  --bg: #0f172a;
  --panel: #111827;
  --text: #e2e8f0;
  --muted: #94a3b8;
  --accent: #38bdf8;
  --border: #1f2937;
  --radius: 16px;
  font-family: 'Noto Sans TC', 'Inter', system-ui, -apple-system, sans-serif;
}

* { box-sizing: border-box; }
body { margin: 0; background: var(--bg); color: var(--text); }
a { color: var(--accent); text-decoration: none; }
a:hover { text-decoration: underline; }

.hero {
  background: radial-gradient(circle at 20% 20%, rgba(56,189,248,0.15), transparent 40%),
              radial-gradient(circle at 80% 0%, rgba(94,234,212,0.1), transparent 30%),
              linear-gradient(135deg, #0b1224, #0f172a);
  padding: 64px 24px;
}
.hero__content { max-width: 960px; margin: 0 auto; }
.hero h1 { font-size: 2.4rem; margin: 8px 0; }
.hero p { color: var(--muted); }
.eyebrow { text-transform: uppercase; letter-spacing: 0.1em; font-size: 0.75rem; color: var(--accent); }

.grid {
  display: grid;
  grid-template-columns: repeat(auto-fit, minmax(280px, 1fr));
  gap: 20px;
  padding: 24px;
  max-width: 1200px;
  margin: 0 auto;
}

.card {
  background: var(--panel);
  border: 1px solid var(--border);
  border-radius: var(--radius);
  overflow: hidden;
  display: flex;
  flex-direction: column;
  box-shadow: 0 10px 40px rgba(0,0,0,0.35);
}
.card img { width: 100%; height: 180px; object-fit: cover; }
.card__body { padding: 16px; display: flex; flex-direction: column; gap: 8px; flex: 1; }
.card__meta { color: var(--muted); margin: 0; }
.card__status { color: #4ade80; }
.card__actions { margin-top: auto; display: flex; gap: 8px; flex-wrap: wrap; }

.button {
  display: inline-block;
  padding: 8px 12px;
  border-radius: 999px;
  background: var(--accent);
  color: #0b1224;
  font-weight: 600;
}
.button--ghost {
  background: transparent;
  border: 1px solid var(--border);
  color: var(--text);
}

.store-page { background: radial-gradient(circle at 10% 20%, rgba(56,189,248,0.2), transparent 25%), #0b1224; }
.store {
  max-width: 800px;
  margin: 24px auto;
  padding: 24px;
  background: var(--panel);
  border: 1px solid var(--border);
  border-radius: var(--radius);
  box-shadow: 0 10px 40px rgba(0,0,0,0.35);
}
.store h1 { margin-top: 8px; }
.store__meta { color: var(--muted); margin: 4px 0; }
.store__image { width: 100%; border-radius: 12px; object-fit: cover; margin: 16px 0; }
.store__section h2 { margin-bottom: 8px; }
.back-link { color: var(--muted); }
".

Definition DOCS_DIR : path := [u "docs"].
Definition ASSETS_DIR : path := u "assets" :: DOCS_DIR.
Definition STORES_DIR : path := u "stores" :: DOCS_DIR.

Definition write_files (stores : list store) (fs : filesystem)
    : result filesystem :=
  fs ← mkdir false DOCS_DIR fs;
  fs ← mkdir true ASSETS_DIR fs;
  fs ← mkdir true STORES_DIR fs;
  index ← render_index stores;
  fs ← write_text (u "index.html" :: DOCS_DIR) index fs;
  fs ← for_each stores fs
         (fun fs store =>
            let store_dir := slug store :: STORES_DIR in
            fs ← mkdir true store_dir fs;
            page ← render_store store;
            write_text (u "index.html" :: store_dir) page fs);
  write_text (u "style.css" :: ASSETS_DIR) STYLE fs.

(** [main()]: the tree after the run and the line printed. *)
Definition main (zip : workbook) (fs : filesystem)
    : result (filesystem * str) :=
  strings ← load_strings zip;
  rows ← load_rows zip strings;
  stores ← rmap parse_store (drop 1 rows);
  fs ← write_files stores fs;
  Ok (fs, u "Generated " ++ str_of_int (Z.of_nat (length stores))
            ++ u " store pages in " ++ str_of_path STORES_DIR).

End Script.
End Build.

(** ** More string methods, for [build_sites.py] *)

(** [chr(c).isdigit()] for [c >= 128] is one more table of the
    interpreter (it holds the code points with a decimal value and other
    digits, such as superscripts). *)
Class Digits : Type := {
  isdigit_ext : N -> bool;
}.

(** The table in which no code point above ASCII is a digit. *)
Definition plain_digits : Digits := {|
  isdigit_ext := fun _ => false;
|}.

(** [c.isdigit()] *)
Definition isdigit `{D : Digits} (c : N) : bool :=
  if c <? 128 then is_digit c else isdigit_ext c.

(** a character matched by [\d] in a [str] pattern: one with a decimal
    value *)
Definition isdecimal `{U : Unicode} (c : N) : bool :=
  if c <? 128 then is_digit c
  else match decimal_ext c with
       | Some _ => true
       | None => false
       end.

(** [needle in hay] for two strings *)
Fixpoint occurs (needle hay : str) : bool :=
  startswith hay needle
  || match hay with
     | [] => false
     | _ :: hay' => occurs needle hay'
     end.

(** [str(n)] for an [int] or [None] *)
Definition str_of_optional_int (n : option Z) : str :=
  match n with
  | Some n => str_of_int n
  | None => u "None"
  end.

(** * [build_sites.py] *)

Module BuildSites.
Section Script.
Context {U : Unicode}.

Definition load_shared_strings (zf : workbook) : result (list str) :=
  ss_root ← read_part (sharedStrings_xml zf);
  Ok (fold_left
        (fun shared si =>
           let text :=
             join [] (map (fun t => or_empty (text t))
                          (findall_descendants t_tag si)) in
           shared ++ [text])
        (findall_descendants si_tag ss_root) []).

(** The body of the loop over the cells of a row. *)
Definition load_cell (shared : list str) (values : list (option str))
    (cell : element) : result (list (option str)) :=
  let cell_type := get_attr cell (u "t") in
  match find v_tag cell with
  | None => Ok (values ++ [Some []])
  | Some value_node =>
      if bool_decide (cell_type = Some (u "s")) then
        i ← int_of (text value_node);
        s ← subscript shared i;
        Ok (values ++ [Some s])
      else Ok (values ++ [text value_node])
  end.

(** [sheet.findall('.//a:sheetData/a:row', ns)] *)
Definition sheet_rows (sheet : element) : list element :=
  flat_map (findall row_tag) (findall_descendants sheetData_tag sheet).

Definition load_rows (zf : workbook) : result (list (list (option str))) :=
  shared ← load_shared_strings zf;
  sheet ← read_part (sheet1_xml zf);
  for_each (sheet_rows sheet) []
    (fun rows row =>
       values ← for_each (findall c_tag row) [] (load_cell shared);
       Ok (rows ++ [values])).

Definition to_float (value : option str) : result (option float) :=
  except_type_value (float_of value).

Definition to_int (value : option str) : result (option Z) :=
  f ← to_float value;
  match f with
  | Some f => Some <$> int_of_float (float_abs f)
  | None => Ok None
  end.

(** [f"{index:02d}"] *)
Definition format_02d (index : Z) : str :=
  if (index <? 0)%Z then str_of_int index
  else if (index <? 10)%Z then 48 :: str_of_int index
  else str_of_int index.

Definition alnum (c : N) : bool := is_lower c || is_upper c || is_digit c.

Definition slugify (name : str) (index : Z) : str :=
  let base :=
    lower (strip_chars (u "-")
             (sub_runs (fun c => negb (alnum c)) (u "-") name)) in
  match base with
  | [] => u "shop-" ++ format_02d index
  | _ => base
  end.

(** *** Tokens and the fields detected among them *)

Context {D : Digits}.

(** The private-use glyphs and the dot that stand alone in a cell. *)
Definition ICON_TOKENS : list str := [u "·"; [0xf54a]; [0xe934]; [0xe5d4]].

Definition clean_token (token : option str) : option str :=
  match token with
  | None => None
  | Some token =>
      let token := strip token in
      if negb (truthy (Some token)) || bool_decide (token ∈ ICON_TOKENS)
      then None
      else Some token
  end.

(** [next((t for t in tokens if p(t)), None)] *)
Definition first_where (p : str -> bool) (tokens : list str) : option str :=
  head (filter (fun t => p t = true) tokens).

(** The conditions of the generators of [detect_fields]. *)
Definition is_address (t : str) : bool :=
  existsb isdigit t
  && existsb (fun key => occurs key t)
       [u "路"; u "街"; u "巷"; u "段"; u "號"].

Definition is_phone (t : str) : bool :=
  existsb isdecimal t
  && (startswith t (u "0") || occurs (u "-") t)
  && (7 <=? length (List.filter isdecimal t))%nat.

Definition is_status (t : str) : bool :=
  occurs (u "營業") t || occurs (u "打烊") t.

Definition is_category (t : str) : bool :=
  occurs (u "店") t || occurs (u "公司") t || occurs (u "工程") t
  || occurs (u "服務") t || occurs (u "承辦") t || occurs (u "商店") t.

Definition is_image (t : str) : bool :=
  occurs (u "googleusercontent") t || occurs (u "streetviewpixels") t.

Definition is_quoted (t : str) : bool := occurs [34] t || occurs [34] t.

(** The [dict] that [detect_fields] returns. *)
Record fields : Type := {
  category : option str;
  address : option str;
  phone : option str;
  status : option str;
  image : option str;
  review_snippet : option str;
  extra : list str;
}.

Definition detect_fields (tokens : list (option str)) : fields :=
  let tokens := Build.truthy_parts (clean_token <$> tokens) in
  let address := first_where is_address tokens in
  let phone := first_where is_phone tokens in
  let status_parts := filter (fun t => is_status t = true) tokens in
  let status :=
    match status_parts with
    | [] => None
    | _ => Some (join (u " / ") status_parts)
    end in
  let category := first_where is_category tokens in
  let image := first_where is_image tokens in
  let review_snippet := first_where is_quoted tokens in
  let remaining :=
    fold_left
      (fun remaining t =>
         if bool_decide
              (Some t ∈ [address; phone; category; image; review_snippet])
            || (truthy status && bool_decide (t ∈ status_parts))
         then remaining
         else remaining ++ [t])
      tokens [] in
  {| category := category;
     address := address;
     phone := phone;
     status := status;
     image := image;
     review_snippet :=
       if truthy review_snippet
       then strip_chars [34] <$> review_snippet
       else None;
     extra := remaining |}.

(** *** Shops *)

(** A shop, a [dict] with the keys below and those of [fields]; its
    name is the cell as read, a [str] or [None]. *)
Record shop : Type := {
  map_url : str;
  name : option str;
  rating : option float;
  review_count : option Z;
  detected : fields;
}.

(** The body of the loop over the rows. *)
Definition parse_row (shops : list shop) (row : list (option str))
    : result (list shop) :=
  match row with
  | [] => Ok shops
  | _ =>
      first ← subscript row 0;
      match first with
      | None => Raise AttributeError
      | Some url =>
          if negb (startswith url (u "http")) then Ok shops
          else
            name ←
              (if (1 <? Z.of_nat (length row))%Z then subscript row 1
               else Ok (Some (u "未命名水電行")));
            rating ← subscript row 2 ≫= to_float;
            review_count ← subscript row 3 ≫= to_int;
            let fields := detect_fields (slice_from 4 row) in
            Ok (shops ++ [{| map_url := url; name := name;
                             rating := rating;
                             review_count := review_count;
                             detected := fields |}])
      end
  end.

Definition parse_shops (zf : workbook) : result (list shop) :=
  rows ← load_rows zf;
  for_each rows [] parse_row.

(** *** Pages *)

(** The paths are taken below the directory of the script. *)
Definition DOCS_DIR : path := [u "docs"].
Definition SHOPS_DIR : path := u "shops" :: DOCS_DIR.

Definition write_file (p : path) (content : str) (fs : filesystem)
    : result filesystem :=
  fs ← mkdir true (tail p) fs;
  write_text p content fs.

Definition rating_text (shop : shop) : str :=
  match rating shop with
  | Some x => format_1f x
  | None => u "—"
  end.

(** [details.append(f"<li><strong>label</strong>{html.escape(value)}</li>")]
    under [if value:] *)
Definition add_detail (label : str) (value : option str)
    (details : list str) : list str :=
  if truthy value
  then details
         ++ [u "<li><strong>" ++ label ++ u "</strong>"
               ++ escape (or_empty value) ++ u "</li>"]
  else details.

(** The name is escaped wherever the page shows it; [html.escape] raises
    for a name that is [None]. *)
Definition render_shop_page (shop : shop) (slug : str) (index : Z)
    : result str :=
  let rating := rating_text shop in
  let reviews :=
    match review_count shop with
    | Some n => str_of_int n
    | None => u "—"
    end in
  let details := [] in
  let details := add_detail (u "類型：") (category (detected shop)) details in
  let details := add_detail (u "地址：") (address (detected shop)) details in
  let details := add_detail (u "電話：") (phone (detected shop)) details in
  let details := add_detail (u "營業資訊：") (status (detected shop)) details in
  let details :=
    add_detail (u "評論摘錄：") (review_snippet (detected shop)) details in
  let details :=
    fold_left (fun details extra =>
                 details ++ [u "<li>" ++ escape extra ++ u "</li>"])
              (extra (detected shop)) details in
  name_html ← Build.escape_of (name shop);
  let image_html :=
    if truthy (image (detected shop))
    then u "<div class='photo'><img src='"
           ++ escape (or_empty (image (detected shop)))
           ++ u "' alt='" ++ name_html ++ u "'></div>"
    else [] in
  Ok (u "
<!doctype html>
<html lang='zh-Hant'>
<head>
  <meta charset='utf-8'>
  <meta name='viewport' content='width=device-width, initial-scale=1'>
  <title>"
      ++ name_html
      ++ q "</title>
  <link rel=`preconnect` href=`https://fonts.googleapis.com`>
  <link rel=`preconnect` href=`https://fonts.gstatic.com` crossorigin>
  <link href=`https://fonts.googleapis.com/css2?family=Noto+Sans+TC:wght@400;600&display=swap` rel=`stylesheet`>
  <link rel='stylesheet' href='../styles.css'>
</head>
<body>
  <header class='hero'>
    <div class='hero__inner'>
      <a class='back' href='../index.html'>← 返回列表</a>
      <h1>"
      ++ name_html
      ++ u "</h1>
      <div class='meta'>
        <span class='rating'>⭐ "
      ++ rating
      ++ u "</span>
        <span class='reviews'>"
      ++ reviews
      ++ u " 則評論</span>
      </div>
      <a class='map-button' href='"
      ++ escape (map_url shop)
      ++ u "' target='_blank' rel='noopener'>在 Google Maps 開啟</a>
    </div>
  </header>
  <main class='content'>
    "
      ++ image_html
      ++ u "
    <section>
      <h2>店家資訊</h2>
      <ul class='details'>
        "
      ++ match details with
         | [] => u "<li>目前沒有更多資訊。</li>"
         | _ => join [] details
         end
      ++ u "
      </ul>
    </section>
  </main>
  <footer class='footer'>
    <p>本頁面由資料集自動產生，供在 GitHub Pages 上瀏覽。</p>
  </footer>
</body>
</html>
").

(** The card of a shop on the index page.  The key [review_count] is
    always present, so [shop.get('review_count', '—')] is its value. *)
Definition render_card (shop : shop) (slug : str) : result str :=
  let rating := rating_text shop in
  let address :=
    if truthy (address (detected shop))
    then or_empty (address (detected shop))
    else u "地址資訊未提供" in
  name_html ← Build.escape_of (name shop);
  Ok (u "
        <article class='card'>
          <h2><a href='shops/"
      ++ slug
      ++ u ".html'>"
      ++ name_html
      ++ u "</a></h2>
          <p class='meta'>⭐ "
      ++ rating
      ++ u "｜"
      ++ str_of_optional_int (review_count shop)
      ++ u " 則評論</p>
          <p class='address'>"
      ++ escape address
      ++ u "</p>
          <a class='map-inline' href='"
      ++ escape (map_url shop)
      ++ u "' target='_blank' rel='noopener'>地圖</a>
        </article>
        ").

Definition render_index (shops : list shop) (slugs : list str) : result str :=
  cards ← rmap (fun pair : shop * str => render_card pair.1 pair.2)
               (zip shops slugs);
  Ok (q "
<!doctype html>
<html lang='zh-Hant'>
<head>
  <meta charset='utf-8'>
  <meta name='viewport' content='width=device-width, initial-scale=1'>
  <title>水電行列表</title>
  <link rel=`preconnect` href=`https://fonts.googleapis.com`>
  <link rel=`preconnect` href=`https://fonts.gstatic.com` crossorigin>
  <link href=`https://fonts.googleapis.com/css2?family=Noto+Sans+TC:wght@400;600&display=swap` rel=`stylesheet`>
  <link rel='stylesheet' href='styles.css'>
</head>
<body>
  <header class='hero'>
    <div class='hero__inner'>
      <h1>水電行資料庫</h1>
      <p>自動依 Excel 資料生成的靜態網站，每一間店都有獨立頁面。</p>
    </div>
  </header>
  <main class='grid'>
    "
      ++ join [] cards
      ++ u "
  </main>
  <footer class='footer'>
    <p>將 docs 資料夾推送到 GitHub 主分支或 gh-pages 分支即可透過 GitHub Pages 瀏覽。</p>
  </footer>
</body>
</html>
").

Definition render_styles : str :=
  u "
:root { color-scheme: light; }
* { box-sizing: border-box; }
body { font-family: 'Noto Sans TC', system-ui, -apple-system, sans-serif; margin: 0; background:#f6f8fb; color:#202124; }
a { color:#0b57d0; text-decoration:none; }
a:hover { text-decoration:underline; }
.hero { background: linear-gradient(120deg, #0b57d0, #3f8efc); color: white; padding: 32px 16px; box-shadow:0 2px 10px rgba(0,0,0,0.15); }
.hero__inner { max-width: 1024px; margin: 0 auto; }
.hero h1 { margin: 0 0 8px; font-size: 32px; }
.hero p { margin: 0; opacity: 0.9; }
.grid { max-width: 1024px; margin: 24px auto; padding: 0 16px; display: grid; grid-template-columns: repeat(auto-fit, minmax(260px, 1fr)); gap: 16px; }
.card { background: white; border-radius: 12px; padding: 16px; box-shadow:0 2px 8px rgba(0,0,0,0.08); display:flex; flex-direction:column; gap:6px; }
.card h2 { margin: 0; font-size: 18px; }
.card .meta, .card .address { margin: 0; color: #444; }
.card .map-inline { align-self: flex-start; margin-top: auto; display:inline-flex; align-items:center; gap:6px; background:#eaf2ff; color:#0b57d0; padding:8px 10px; border-radius:8px; text-decoration:none; font-weight:600; }
.card .map-inline:hover { background:#d8e6ff; }
.meta { display:flex; gap:8px; align-items:center; }
.content { max-width: 800px; margin: 24px auto; padding: 0 16px 32px; background:white; border-radius: 12px; box-shadow:0 2px 8px rgba(0,0,0,0.08); }
.back { color: white; text-decoration:none; display:inline-block; margin-bottom:12px; }
.map-button { display:inline-block; margin-top:10px; padding:10px 16px; background:white; color:#0b57d0; border-radius:8px; font-weight:700; text-decoration:none; }
.photo { text-align:center; padding:16px; }
.photo img { max-width:100%; border-radius:12px; box-shadow:0 2px 10px rgba(0,0,0,0.1); }
section { padding: 0 16px 16px; }
section h2 { margin-top:0; }
.details { list-style: none; padding: 0; margin: 0; display:flex; flex-direction:column; gap:8px; }
.footer { text-align:center; color:#666; padding:16px; }
@media (max-width: 640px) {
  .hero h1 { font-size: 24px; }
}
".

(** [slugify(shop['name'], i + 1)]: [re.sub] raises for a name that is
    [None]. *)
Definition slugify_of (name : option str) (index : Z) : result str :=
  match name with
  | Some name => Ok (slugify name index)
  | None => Raise TypeError
  end.

(** [main()]: the tree after the run. *)
Definition main (zf : workbook) (fs : filesystem) : result filesystem :=
  shops ← parse_shops zf;
  slugs ← rmap (fun entry : nat * shop =>
                  slugify_of (name entry.2) (Z.of_nat entry.1 + 1))
               (zip (seq 0 (length shops)) shops);
  fs ← write_file (u "styles.css" :: DOCS_DIR) render_styles fs;
  index ← render_index shops slugs;
  fs ← write_file (u "index.html" :: DOCS_DIR) index fs;
  for_each (zip (seq 1 (length shops)) (zip shops slugs)) fs
    (fun fs entry =>
       let i := Z.of_nat entry.1 in
       let shop := entry.2.1 in
       let slug := entry.2.2 in
       page ← render_shop_page shop slug i;
       write_file ((slug ++ u ".html") :: SHOPS_DIR) page fs).

End Script.
End BuildSites.

(** * [generate_sites.py] *)

Module GenerateSites.
Section Script.
Context {U : Unicode}.

Record Store : Type := {
  map_url : str;
  name : str;
  rating : option float;
  review_count : option Z;
  category : str;
  address : str;
  status : str;
  closing_time : str;
  phone : str;
  hero_image : str;
  avatar_image : str;
  review_snippet : str;
  slug : str;
}.

Definition DEFAULT_AVATAR : str :=
  u "https://ssl.gstatic.com/local/servicebusiness/default_user.png".
Definition DEFAULT_HERO : str :=
  u "https://ssl.gstatic.com/local/generic/default_logo.png".

Definition load_shared_strings (zf : workbook) : result (list str) :=
  root ← read_part (sharedStrings_xml zf);
  Ok (fold_left
        (fun strings si =>
           let texts :=
             fold_left (fun texts t => texts ++ [or_empty (text t)])
                       (iter t_tag si) [] in
           strings ++ [join [] texts])
        (findall si_tag root) []).

(** [re.match(r"([A-Z]+)", cell_ref)]: the leading run of upper-case
    letters; there is no match when it is empty. *)
Fixpoint leading_upper (cell_ref : str) : str :=
  match cell_ref with
  | [] => []
  | c :: rest => if is_upper c then c :: leading_upper rest else []
  end.

Definition column_index (cell_ref : str) : Z :=
  match leading_upper cell_ref with
  | [] => 1%Z
  | letters =>
      fold_left (fun index char => (index * 26 + (Z.of_N char - 65 + 1))%Z)
                letters 0%Z
  end.

(** [while current_col < idx: row_vals.append(""); current_col += 1],
    run for the [n] rounds it takes. *)
Fixpoint pad_to (n : nat) (row_vals : list str) (current_col : Z)
    : list str * Z :=
  match n with
  | O => (row_vals, current_col)
  | S n' => pad_to n' (row_vals ++ [[]]) (current_col + 1)%Z
  end.

(** The body of the loop over the cells of a row; the state is
    [row_vals] and [current_col]. *)
Definition load_cell (shared : list str) (st : list str * Z)
    (cell : element) : result (list str * Z) :=
  let '(row_vals, current_col) := st in
  match find v_tag cell with
  | None => Ok (row_vals ++ [[]], current_col)
  | Some value =>
      let val := or_empty (text value) in
      val ←
        (if bool_decide (get_attr cell (u "t") = Some (u "s"))
         then int_of_str val ≫= subscript shared
         else Ok val);
      let idx := column_index (get_attr_default cell (u "r") []) in
      let '(row_vals, current_col) :=
        pad_to (Z.to_nat (idx - current_col)) row_vals current_col in
      Ok (row_vals ++ [val], current_col + 1)%Z
  end.

Definition load_row (shared : list str) (row : element) : result (list str) :=
  fst <$> for_each (findall c_tag row) ([], 1%Z) (load_cell shared).

Definition load_sheet_rows (zf : workbook) : result (list (list str)) :=
  shared ← load_shared_strings zf;
  sheet_root ← read_part (sheet1_xml zf);
  for_each (findall_descendants row_tag sheet_root) []
    (fun rows row => row_vals ← load_row shared row; Ok (rows ++ [row_vals])).

Definition safe_float (value : str) : result (option float) :=
  except_type_value (float_of_str value).

Definition safe_int (value : str) : result (option Z) :=
  except_type_value (x ← float_of_str value; n ← int_of_float x; Ok (Z.abs n)).

Definition slugify (name : str) : str :=
  let slug := sub_runs (fun c => negb (isword c)) (u "-") (lower (strip name)) in
  let slug := strip_chars (u "-") (sub_runs (fun c => c =? 45) (u "-") slug) in
  match slug with
  | [] => u "store"
  | _ => slug
  end.

Definition get (row : list str) (index : Z) : result str :=
  if (Z.of_nat (length row) >? index)%Z then subscript row index else Ok [].

(** [x or default] for a [str] *)
Definition or_default (x default : str) : str :=
  match x with
  | [] => default
  | _ => x
  end.

Definition row_to_store (row : list str) : result (option Store) :=
  if (Z.of_nat (length row) <? 2)%Z then Ok None
  else
    name ← strip <$> get row 5;
    match name with
    | [] => Ok None
    | _ =>
        map_url ← strip <$> get row 4;
        rating ← (strip <$> get row 6) ≫= safe_float;
        review_count ← (strip <$> get row 7) ≫= safe_int;
        category ← strip <$> get row 8;
        address ← strip <$> get row 11;
        status ← strip <$> get row 12;
        closing_time ← strip <$> get row 13;
        phone ← strip <$> get row 15;
        hero_image ← (fun x => or_default (strip x) DEFAULT_HERO) <$> get row 16;
        avatar_image ← (fun x => or_default (strip x) DEFAULT_AVATAR) <$> get row 17;
        let review_snippet :=
          strip (join [] (map strip (filter (fun part => part ≠ []) (drop 18 row)))) in
        Ok (Some {| map_url := map_url; name := name; rating := rating;
                    review_count := review_count; category := category;
                    address := address; status := status;
                    closing_time := closing_time; phone := phone;
                    hero_image := hero_image; avatar_image := avatar_image;
                    review_snippet := review_snippet; slug := slugify name |})
    end.

(** [[s for s in stores if s is not None]] *)
Definition present {A : Type} (xs : list (option A)) : list A :=
  omap id xs.

Definition rows_to_stores (rows : list (list str)) : result (list Store) :=
  present <$> rmap row_to_store (drop 1 rows).

Definition load_stores (zf : workbook) : result (list Store) :=
  rows ← load_sheet_rows zf;
  rows_to_stores rows.

Definition rating_text (store : Store) : str :=
  match rating store with
  | Some x => format_1f x
  | None => u "N/A"
  end.

Definition reviews_text (store : Store) : str :=
  match review_count store with
  | Some n => u "（" ++ str_of_int n ++ u " 則評論）"
  | None => []
  end.

(** [PAGE_TEMPLATE.format(title=..., description=..., content=...,
    asset_prefix=...)] *)
Definition PAGE_TEMPLATE (title description content asset_prefix : str) : str :=
  u "<!doctype html>
<html lang='zh-Hant'>
<head>
  <meta charset='utf-8'>
  <meta name='viewport' content='width=device-width, initial-scale=1'>
  <title>"
    ++ title
    ++ u "</title>
  <meta name='description' content='"
    ++ description
    ++ u "'>
  <link rel='stylesheet' href='"
    ++ asset_prefix
    ++ u "assets/site.css'>
</head>
<body>
  <nav class='topbar'>
    <div class='brand'>士林水電行資料集</div>
    <a class='topbar__link' href='https://github.com/'>GitHub Pages</a>
  </nav>
  <main class='container'>
    "
    ++ content
    ++ u "
  </main>
  <footer class='footer'>
    以 Excel 自動生成的靜態網站，部署至 GitHub Pages 即可瀏覽。
  </footer>
</body>
</html>
".

Definition render_card (store : Store) : str :=
  let rating := rating_text store in
  let reviews := reviews_text store in
  let snippet :=
    escape (match review_snippet store with
            | [] => u "尚無評論摘錄"
            | s => s
            end) in
  u "
            <article class='card'>
              <img src='"
    ++ escape (hero_image store)
    ++ u "' alt='"
    ++ escape (name store)
    ++ u " 店面圖片' class='hero'>
              <div class='card__body'>
                <h2>"
    ++ escape (name store)
    ++ u "</h2>
                <p class='meta'>"
    ++ escape (category store)
    ++ u " · 評分 "
    ++ rating
    ++ u " "
    ++ reviews
    ++ u "</p>
                <p class='address'>📍 "
    ++ escape (address store)
    ++ u "</p>
                <p class='status'>"
    ++ escape (status store)
    ++ u " "
    ++ escape (closing_time store)
    ++ u "</p>
                <p class='snippet'>"
    ++ snippet
    ++ u "</p>
                <div class='actions'>
                  <a class='button' href='stores/"
    ++ slug store
    ++ u ".html'>查看詳情</a>
                  <a class='button button--ghost' href='"
    ++ escape (map_url store)
    ++ u "' target='_blank' rel='noopener'>Google 地圖</a>
                </div>
              </div>
            </article>
            ".

Definition render_index (stores : list Store) : str :=
  let cards := fold_left (fun cards store => cards ++ [render_card store]) stores [] in
  PAGE_TEMPLATE
    (u "士林水電行指南")
    (u "從 Excel 產生的水電行清單，點擊卡片可瀏覽各店獨立頁面。")
    (join [10] cards)
    [].

Definition render_detail (store : Store) : str :=
  let rating := rating_text store in
  let reviews := reviews_text store in
  let review_section :=
    match review_snippet store with
    | [] => u "<p class='snippet'>尚無評論摘錄</p>"
    | s => u "<p class='snippet'>" ++ escape s ++ u "</p>"
    end in
  PAGE_TEMPLATE
    (name store ++ u "｜士林水電行指南")
    (name store ++ u " 的服務資訊與聯絡方式。")
    (u "
        <article class='detail'>
          <header class='detail__header'>
            <img src='"
       ++ escape (hero_image store)
       ++ u "' alt='"
       ++ escape (name store)
       ++ u " 店面圖片' class='hero hero--large'>
            <div>
              <p class='kicker'>"
       ++ escape (category store)
       ++ u "</p>
              <h1>"
       ++ escape (name store)
       ++ u "</h1>
              <p class='meta'>評分 "
       ++ rating
       ++ u " "
       ++ reviews
       ++ u "</p>
            </div>
          </header>
          <section class='info'>
            <h2>店家資訊</h2>
            <ul>
              <li>📍 地址："
       ++ escape (address store)
       ++ u "</li>
              <li>⏰ 營業資訊："
       ++ escape (status store)
       ++ u " "
       ++ escape (closing_time store)
       ++ u "</li>
              <li>☎️ 電話：<a href='tel:"
       ++ escape (phone store)
       ++ u "'>"
       ++ escape (phone store)
       ++ u "</a></li>
              <li>🗺️ 地圖：<a href='"
       ++ escape (map_url store)
       ++ u "' target='_blank' rel='noopener'>在 Google 地圖開啟</a></li>
            </ul>
          </section>
          <section class='info'>
            <h2>顧客評論摘錄</h2>
            "
       ++ review_section
       ++ u "
          </section>
          <section class='info avatar'>
            <img src='"
       ++ escape (avatar_image store)
       ++ u "' alt='"
       ++ escape (name store)
       ++ u " 的代表頭像'>
            <div>
              <p>網站由 Excel 資料自動生成，便於透過 GitHub Pages 快速發布。</p>
              <p><a class='button' href='../index.html'>返回列表</a></p>
            </div>
          </section>
        </article>
        ")
    (u "../").

Definition STYLE_CSS : str :=
  q "
:root {
  --bg: #0e1117;
  --card: #161b22;
  --text: #e6edf3;
  --muted: #9ba3b4;
  --accent: #8dd0ff;
  --border: #30363d;
  --shadow: 0 10px 30px rgba(0,0,0,0.35);
  font-family: `Noto Sans TC`, `Inter`, `Segoe UI`, system-ui, sans-serif;
}

* { box-sizing: border-box; }
body {
  margin: 0;
  background: var(--bg);
  color: var(--text);
}

.topbar {
  display: flex;
  justify-content: space-between;
  align-items: center;
  padding: 16px 24px;
  border-bottom: 1px solid var(--border);
  background: rgba(12,16,22,0.9);
  position: sticky;
  top: 0;
  z-index: 5;
  backdrop-filter: blur(10px);
}

.brand { font-weight: 700; letter-spacing: 0.02em; }
.topbar__link { color: var(--accent); text-decoration: none; }

.container {
  padding: 32px 24px 80px;
  max-width: 1200px;
  margin: auto;
  display: grid;
  grid-template-columns: repeat(auto-fit, minmax(280px, 1fr));
  gap: 20px;
}

.card, .detail {
  background: var(--card);
  border: 1px solid var(--border);
  border-radius: 16px;
  box-shadow: var(--shadow);
  overflow: hidden;
}

.card__body { padding: 16px; display: flex; flex-direction: column; gap: 6px; }
.card h2 { margin: 0; }
.hero {
  width: 100%;
  height: 180px;
  object-fit: cover;
  background: #111;
}
.hero--large { height: 260px; }

.meta { color: var(--muted); font-size: 14px; }
.address, .status { margin: 0; font-size: 15px; }
.snippet { color: var(--muted); }
.actions { display: flex; gap: 8px; margin-top: 6px; flex-wrap: wrap; }
.button {
  display: inline-block;
  padding: 8px 12px;
  border-radius: 10px;
  background: var(--accent);
  color: #0a0c10;
  font-weight: 600;
  text-decoration: none;
  box-shadow: 0 8px 18px rgba(141,208,255,0.25);
}
.button--ghost { background: transparent; color: var(--accent); border: 1px solid var(--accent); box-shadow: none; }

.footer {
  padding: 24px;
  text-align: center;
  color: var(--muted);
  border-top: 1px solid var(--border);
  background: #0a0c10;
}

.detail { grid-column: 1 / -1; padding: 0 0 24px; }
.detail__header { display: grid; grid-template-columns: 1fr; gap: 12px; }
.detail__header h1 { margin: 4px 0; }
.kicker { color: var(--muted); margin: 0; text-transform: uppercase; letter-spacing: 0.08em; }
.info { padding: 0 24px; margin-top: 12px; }
.info ul { list-style: none; padding: 0; margin: 0; display: grid; gap: 6px; }
.info li { color: var(--muted); }
.avatar { display: grid; grid-template-columns: 96px 1fr; align-items: center; gap: 12px; }
.avatar img { width: 96px; height: 96px; border-radius: 50%; object-fit: cover; border: 1px solid var(--border); }

@media (min-width: 820px) {
  .detail__header { grid-template-columns: 1.1fr 1fr; align-items: center; }
  .container { grid-template-columns: repeat(auto-fit, minmax(320px, 1fr)); }
}
".

(** [json.dumps([asdict(s) for s in stores], ensure_ascii=False,
    indent=2)], a function of the library. *)
Variable json_dumps : list Store -> str.

Definition write_site (stores : list Store) (output_dir : path)
    (fs : filesystem) : result filesystem :=
  let assets_dir := u "assets" :: output_dir in
  let stores_dir := u "stores" :: output_dir in
  fs ← mkdir true assets_dir fs;
  fs ← mkdir true stores_dir fs;
  fs ← write_text (u "site.css" :: assets_dir) STYLE_CSS fs;
  fs ← write_text (u "index.html" :: output_dir) (render_index stores) fs;
  fs ← for_each stores fs
         (fun fs store =>
            write_text ((slug store ++ u ".html") :: stores_dir)
                       (render_detail store) fs);
  let data_path := u "stores.json" :: output_dir in
  write_text data_path (json_dumps stores) fs.

(** [main()]: the tree after the run and the line printed. *)
Definition main (zf : workbook) (fs : filesystem)
    : result (filesystem * str) :=
  let output_dir : path := [u "docs"] in
  stores ← load_stores zf;
  fs ← write_site stores output_dir fs;
  Ok (fs, u "Generated " ++ str_of_int (Z.of_nat (length stores))
            ++ u " store pages in " ++ str_of_path output_dir
            ++ u "/stores/").

End Script.
End GenerateSites.

(** * Definitions that follow the specification's words *)

(** Bijective base-26 numeration: the letters A..Z are the digits 1..26,
    the most significant first. *)
Fixpoint bijective26 (letters : str) : Z :=
  match letters with
  | [] => 0
  | c :: rest =>
      (Z.of_N c - 64) * 26 ^ Z.of_nat (length rest) + bijective26 rest
  end%Z.

(** ** The slug generator, step by step as the specification words it *)

Definition separator : N := 45.
Definition max_slug_length : nat := 60.
Definition fallback_token : str := u "store".

(** The allowed set: ASCII alphanumerics (lower case, the text having
    been lowercased) and the CJK code points U+4E00..U+9FFF. *)
Definition allowed_char (c : N) : bool :=
  is_lower c || is_digit c || is_cjk c.

(** The text cut into its maximal runs, each marked with whether its
    characters are in the class. *)
Fixpoint runs (cls : N -> bool) (s : str) : list (bool * str) :=
  match s with
  | [] => []
  | c :: s' =>
      match runs cls s' with
      | (b, r) :: rs =>
          if eqb b (cls c) then (b, c :: r) :: rs
          else (cls c, [c]) :: (b, r) :: rs
      | [] => [(cls c, [c])]
      end
  end.

(** Every run of the class replaced by one separator. *)
Definition replace_runs (cls : N -> bool) (s : str) : str :=
  flat_map (fun run : bool * str => if run.1 then [separator] else run.2)
           (runs cls s).

Fixpoint trim_leading (s : str) : str :=
  match s with
  | [] => []
  | c :: s' => if c =? separator then trim_leading s' else s
  end.

Definition trim_trailing (s : str) : str :=
  reverse (trim_leading (reverse s)).

Definition slugify_spec `{U : Unicode} (name : str) : str :=
  let lowered := lower name in
  let replaced := replace_runs (fun c => negb (allowed_char c)) lowered in
  let collapsed := replace_runs (fun c => c =? separator) replaced in
  let trimmed := trim_trailing (trim_leading collapsed) in
  let truncated := trim_trailing (take max_slug_length trimmed) in
  match truncated with
  | [] => fallback_token
  | _ => truncated
  end.

(** No two separators side by side. *)
Fixpoint single_separators (s : str) : bool :=
  match s with
  | a :: rest =>
      match rest with
      | b :: _ => negb ((a =? separator) && (b =? separator))
      | [] => true
      end && single_separators rest
  | [] => true
  end.

(** A clean slug of [build.py]: not empty, at most sixty characters, made
    of allowed characters and separators, no separator at either end and
    no two side by side. *)
Definition clean_slug (s : str) : bool :=
  negb (bool_decide (s = []))
  && bool_decide (length s ≤ max_slug_length)%nat
  && forallb (fun c => allowed_char c || (c =? separator)) s
  && single_separators s
  && negb (bool_decide (head s = Some separator))
  && negb (bool_decide (last s = Some separator)).

(** A clean slug of [generate_sites.py]: not empty, made of word
    characters and separators, in lower case already, no white space and
    no separator at either end, no two separators side by side. *)
Definition clean_word_slug `{U : Unicode} (s : str) : bool :=
  negb (bool_decide (s = []))
  && forallb (fun c => isword c || (c =? separator)) s
  && bool_decide (lower s = s)
  && single_separators s
  && negb (bool_decide (head s = Some separator))
  && negb (bool_decide (last s = Some separator))
  && negb (from_option isspace false (head s))
  && negb (from_option isspace false (last s)).

(** ** Example workbooks *)

Definition elem (name : string) (attrs : gmap str str) (txt : option str)
    (kids : list element) : element :=
  Element (ns ++ u name) attrs txt kids.

(** [<t>s</t>], [<si><t>s</t></si>] and a rich-text entry
    [<si><r><t>..</t></r><r><t>..</t></r>...</si>] *)
Definition text_run (s : string) : element := elem "t" ∅ (Some (u s)) [].
Definition plain_entry (s : string) : element := elem "si" ∅ None [text_run s].
Definition rich_entry (parts : list string) : element :=
  elem "si" ∅ None (map (fun s => elem "r" ∅ None [text_run s]) parts).

(** [<c r="ref"><v>value</v></c>], [<c r="ref" t="s"><v>index</v></c>]
    and [<c r="ref"/>] *)
Definition value_cell (ref value : string) : element :=
  elem "c" {[ u "r" := u ref ]} None [elem "v" ∅ (Some (u value)) []].
Definition shared_cell (ref index : string) : element :=
  elem "c" {[ u "r" := u ref; u "t" := u "s" ]} None
       [elem "v" ∅ (Some (u index)) []].
Definition empty_cell (ref : string) : element :=
  elem "c" {[ u "r" := u ref ]} None [].

Definition book (entries : list element) (rows : list (list element))
    : workbook :=
  {| sharedStrings_xml := Some (elem "sst" ∅ None entries);
     sheet1_xml :=
       Some (elem "worksheet" ∅ None
               [elem "sheetData" ∅ None
                     (map (fun cells => elem "row" ∅ None cells) rows)]) |}.

(** A string table whose second entry is rich text in two runs. *)
Definition rich_text_book : workbook :=
  book [plain_entry "Name"; rich_entry ["Te"%string; "st"%string]; plain_entry "Addr"]
       [[shared_cell "A1" "0"]; [shared_cell "A2" "1"; shared_cell "B2" "2"]].

(** A data row whose cell A2 is present without a value. *)
Definition empty_cell_book : workbook :=
  book [] [[value_cell "A1" "h"]; [empty_cell "A2"; value_cell "B2" "x"]].

(** A data row without a cell for column B. *)
Definition sparse_row_book : workbook :=
  book [] [[value_cell "A1" "h"]; [value_cell "A2" "a"; value_cell "C2" "c"]].

(** A data row whose review-count cell (column H) reads "inf". *)
Definition infinite_reviews_book : workbook :=
  book [plain_entry "Shop"; plain_entry "inf"]
       [[value_cell "A1" "h"];
        [shared_cell "F2" "0"; value_cell "G2" "4.5"; shared_cell "H2" "1"]].

(** The text of column [n] of a row of strings, empty past its end. *)
Definition cell (row : list str) (n : nat) : str := default [] (row !! n).

(** A data row whose name cell (column B for [build.py]) is present
    without a value. *)
Definition nameless_book : workbook :=
  book [plain_entry "http://maps.example/1"]
       [[value_cell "A1" "h"];
        [shared_cell "A2" "0"; empty_cell "B2"; value_cell "C2" "4.5"]].

(** [needle in hay] *)
Fixpoint contains (needle hay : str) : bool :=
  match hay with
  | [] => bool_decide (needle = [])
  | _ :: hay' => startswith hay needle || contains needle hay'
  end.

(** The characters that open or close markup or an attribute value. *)
Definition markup_char (c : N) : bool :=
  (c =? 60) || (c =? 62) || (c =? 34) || (c =? 39).

(** A data row of [generate_sites.py] whose name cell holds markup. *)
Definition markup_name_row : list str :=
  [u ""; u ""; u ""; u ""; u "http://maps.example/1";
   u "<script>alert('x')</script>"].

(** ** Runs of the writer on a tree *)

Definition same_kind (a b : node) : bool :=
  match a, b with
  | Dir, Dir => true
  | File _, File _ => true
  | _, _ => false
  end.

(** [later] holds every path of [earlier], as a directory where it was a
    directory and as a file (of any content) where it was a file. *)
Definition keeps_kinds (earlier later : filesystem) : Prop :=
  forall p n, earlier !! p = Some n ->
    exists n', later !! p = Some n' /\ same_kind n n' = true.

(** A step of the writer that, once it has succeeded from some tree,
    only keeps kinds, and writes the same entries [written] over every
    tree that keeps the kinds of its result. *)
Definition rerunnable (step : filesystem -> result filesystem) : Prop :=
  forall fs fs1, step fs = Ok fs1 ->
    keeps_kinds fs fs1
    /\ exists written : filesystem,
         fs1 = written ∪ fs
         /\ forall g, keeps_kinds fs1 g -> step g = Ok (written ∪ g).

(** A workbook with two listings. *)
Definition two_shops_book : workbook :=
  book [plain_entry "Name"; plain_entry "Test <Shop>"; plain_entry "123 Test Rd";
        plain_entry "http://maps.example/1"; plain_entry "Other"]
       [[shared_cell "A1" "0"];
        [shared_cell "A2" "3"; shared_cell "B2" "1"; value_cell "C2" "4.5";
         value_cell "D2" "-3"; shared_cell "E2" "3"; shared_cell "F2" "1";
         value_cell "G2" "4.5"; value_cell "H2" "-3"; shared_cell "L2" "2"];
        [shared_cell "A3" "3"; shared_cell "B3" "4"; shared_cell "F3" "4"]].

(** The first run of each generator on [two_shops_book], from an empty
    tree: the tree it leaves and the line it prints.  The data dump is
    given some text. *)
Definition generate_first_run : result (filesystem * str) :=
  Eval vm_compute in
    GenerateSites.main (U := plain_tables) (fun _ => u "[]") two_shops_book ∅.

Definition generate_first_tree : filesystem :=
  Eval vm_compute in
    match generate_first_run with
    | Ok (fs, _) => fs
    | Raise _ => ∅
    end.

Definition generate_first_line : str :=
  Eval vm_compute in
    match generate_first_run with
    | Ok (_, line) => line
    | Raise _ => []
    end.

Definition build_first_run : result (filesystem * str) :=
  Eval vm_compute in Build.main (U := plain_tables) two_shops_book ∅.

Definition build_first_tree : filesystem :=
  Eval vm_compute in
    match build_first_run with
    | Ok (fs, _) => fs
    | Raise _ => ∅
    end.

Definition build_first_line : str :=
  Eval vm_compute in
    match build_first_run with
    | Ok (_, line) => line
    | Raise _ => []
    end.

(** ** Rows of [generate_sites.py], cell by cell *)

(** The column a cell names, one-based. *)
Definition cell_column (cell : element) : Z :=
  GenerateSites.column_index (get_attr_default cell (u "r") []).

(** The text of a cell: the text of its value node, or the shared string
    it refers to; empty when it has no value node. *)
Definition cell_text `{U : Unicode} (shared : list str) (cell : element)
    : result str :=
  match find v_tag cell with
  | None => Ok []
  | Some value =>
      let val := or_empty (text value) in
      if bool_decide (get_attr cell (u "t") = Some (u "s"))
      then int_of_str val ≫= subscript shared
      else Ok val
  end.

(** Values put at their columns: [current] is the column of the next
    position, and the columns before a value are filled with the empty
    text. *)
Fixpoint place (current : nat) (cvs : list (nat * str)) : list str :=
  match cvs with
  | [] => []
  | (col, v) :: rest =>
      replicate (col - current) [] ++ v :: place (S col) rest
  end.

(** Columns that grow strictly, none before [current]. *)
Fixpoint increasing_from (current : nat) (cols : list nat) : bool :=
  match cols with
  | [] => true
  | col :: rest => (current <=? col)%nat && increasing_from (S col) rest
  end.

(** The column after the last of [cols], [current] when there is none. *)
Definition next_column (current : nat) (cols : list nat) : nat :=
  match last cols with
  | Some col => S col
  | None => current
  end.

(** The text of an entry of the string table: its text runs joined, in
    document order. *)
Definition entry_text (si : element) : str :=
  concat ((fun t => or_empty (text t)) <$> iter t_tag si).

(** ** The digits of [str(n)], read back *)

Fixpoint uint_of_digits (s : str) : Decimal.uint :=
  match s with
  | [] => Decimal.Nil
  | c :: s' =>
      let d := uint_of_digits s' in
      if c =? 48 then Decimal.D0 d
      else if c =? 49 then Decimal.D1 d
      else if c =? 50 then Decimal.D2 d
      else if c =? 51 then Decimal.D3 d
      else if c =? 52 then Decimal.D4 d
      else if c =? 53 then Decimal.D5 d
      else if c =? 54 then Decimal.D6 d
      else if c =? 55 then Decimal.D7 d
      else if c =? 56 then Decimal.D8 d
      else Decimal.D9 d
  end.

(** The characters of a slug of [build_sites.py] made from the name. *)
Definition ascii_slug_char (c : N) : bool :=
  is_lower c || is_digit c || (c =? separator).

(** The characters that cannot leave a file name or an attribute value:
    no markup, no ampersand, no path separator, no dot. *)
Definition inert_char (c : N) : bool :=
  negb (markup_char c || (c =? 38) || (c =? 47) || (c =? 92) || (c =? 46)).

(** ** The rows that [build_sites.py] turns into shops *)

(** A row whose first cell is a text that begins with "http". *)
Definition http_row (row : list (option str)) : bool :=
  match row with
  | Some url :: _ => startswith url (u "http")
  | _ => false
  end.

(** A shop as the cells of its row give it. *)
Definition shop_of_row `{U : Unicode} `{D : Digits}
    (row : list (option str)) (shop : BuildSites.shop) : Prop :=
  (4 <= length row)%nat
  /\ row !! 0%nat = Some (Some (BuildSites.map_url shop))
  /\ row !! 1%nat = Some (BuildSites.name shop)
  /\ (exists cell, row !! 2%nat = Some cell
                   /\ BuildSites.to_float cell = Ok (BuildSites.rating shop))
  /\ (exists cell, row !! 3%nat = Some cell
                   /\ BuildSites.to_int cell
                      = Ok (BuildSites.review_count shop))
  /\ BuildSites.detected shop = BuildSites.detect_fields (drop 4 row).

(** A sheet of [build_sites.py] whose data row has a link and a name
    only, and one whose data row is complete. *)
Definition short_row_book : workbook :=
  book [] [[value_cell "A1" "name"];
           [value_cell "A2" "http://maps.example/1"; value_cell "B2" "Shop"]].

Definition one_shop_book : workbook :=
  book [] [[value_cell "A1" "name"];
           [value_cell "A2" "http://maps.example/1"; value_cell "B2" "Shop";
            value_cell "C2" "4.5"; value_cell "D2" "12";
            value_cell "E2" "02-2881-1234"]].

(** ** What a writer changes *)

(** A path at or below [root]: paths are written with their last
    component first, so [root] ends it. *)
Definition below (root q : path) : Prop := root `suffix_of` q.

(** A step that changes entries of the tree only at paths that satisfy
    [inside]. *)
Definition touches_only (inside : path -> Prop)
    (step : filesystem -> result filesystem) : Prop :=
  forall fs fs1, step fs = Ok fs1 ->
    forall q, ¬ inside q -> fs1 !! q = fs !! q.

(** The last record of a list that is written to path [p], when the
    records are written in order at the paths [key] gives. *)
Definition last_at {A : Type} (key : A -> path) (p : path) (xs : list A)
    : option A :=
  last (filter (fun x => key x = p) xs).

(** * Properties *)

(** ** Column references ([generate_sites.py]) *)

Lemma fold_left_base26 (letters : str) (acc : Z) :
  fold_left (fun index char => (index * 26 + (Z.of_N char - 65 + 1))%Z)
            letters acc
  = (acc * 26 ^ Z.of_nat (length letters) + bijective26 letters)%Z.
Proof.
  revert acc. induction letters as [|c rest IH]; intros acc; simpl.
  - lia.
  - rewrite IH. rewrite Nat2Z.inj_succ, Z.pow_succ_r by lia. lia.
Qed.

Lemma leading_upper_app (letters rest : str) :
  Forall (fun c => is_upper c = true) letters ->
  head (map is_upper rest) ≠ Some true ->
  GenerateSites.leading_upper (letters ++ rest) = letters.
Proof.
  intros Hl Hr. induction Hl as [|c letters Hc _ IH]; simpl.
  - destruct rest as [|c rest]; [done|]. simpl in *.
    destruct (is_upper c); [congruence | done].
  - rewrite Hc. by rewrite IH.
Qed.

Lemma leading_upper_none (cell_ref : str) :
  head (map is_upper cell_ref) ≠ Some true ->
  GenerateSites.leading_upper cell_ref = [].
Proof. intros H. exact (leading_upper_app [] cell_ref (Forall_nil_2 _) H). Qed.

Lemma bijective26_bounds (letters : str) :
  Forall (fun c => is_upper c = true) letters ->
  (26 ^ Z.of_nat (length letters) - 1 <= 25 * bijective26 letters
   <= 26 * (26 ^ Z.of_nat (length letters) - 1))%Z.
Proof.
  induction 1 as [|c rest Hc _ IH]; simpl bijective26; simpl length.
  - simpl. lia.
  - rewrite Nat2Z.inj_succ, Z.pow_succ_r by lia.
    unfold is_upper, in_range in Hc.
    apply andb_true_iff in Hc as [H1 H2].
    apply N.leb_le in H1, H2.
    assert (0 < 26 ^ Z.of_nat (length rest))%Z by (apply Z.pow_pos_nonneg; lia).
    nia.
Qed.

Lemma bijective26_length (l1 l2 : str) :
  Forall (fun c => is_upper c = true) l1 ->
  Forall (fun c => is_upper c = true) l2 ->
  bijective26 l1 = bijective26 l2 -> length l1 = length l2.
Proof.
  intros H1 H2 E.
  pose proof (bijective26_bounds l1 H1) as B1.
  pose proof (bijective26_bounds l2 H2) as B2.
  rewrite E in B1.
  destruct (Nat.lt_trichotomy (length l1) (length l2)) as [L|[L|L]]; [|done|].
  - exfalso.
    assert (26 * 26 ^ Z.of_nat (length l1) <= 26 ^ Z.of_nat (length l2))%Z.
    { rewrite <- Z.pow_succ_r by lia. apply Z.pow_le_mono_r; lia. }
    lia.
  - exfalso.
    assert (26 * 26 ^ Z.of_nat (length l2) <= 26 ^ Z.of_nat (length l1))%Z.
    { rewrite <- Z.pow_succ_r by lia. apply Z.pow_le_mono_r; lia. }
    lia.
Qed.

Lemma bijective26_inj (l1 l2 : str) :
  Forall (fun c => is_upper c = true) l1 ->
  Forall (fun c => is_upper c = true) l2 ->
  bijective26 l1 = bijective26 l2 -> l1 = l2.
Proof.
  intros H1 H2 E.
  pose proof (bijective26_length l1 l2 H1 H2 E) as L.
  revert l2 H2 E L. induction H1 as [|c1 r1 Hc1 Hr1 IH]; intros l2 H2 E L.
  - destruct l2; [done | discriminate].
  - destruct l2 as [|c2 r2]; [discriminate|].
    apply Forall_cons in H2 as [Hc2 Hr2].
    simpl in L. injection L as L.
    simpl in E. rewrite <- L in E.
    pose proof (bijective26_bounds r1 Hr1) as B1.
    pose proof (bijective26_bounds r2 Hr2) as B2.
    rewrite <- L in B2.
    assert (0 < 26 ^ Z.of_nat (length r1))%Z by (apply Z.pow_pos_nonneg; lia).
    assert (c1 = c2) as -> by nia.
    f_equal. apply IH; [done | lia | done].
Qed.

(** C10. [column_index] decodes the leading run of upper-case letters of a
    cell reference as a bijective base-26 numeral (A = 1, ..., Z = 26,
    most significant letter first), whatever follows the run; the value is
    at least 1 and distinct runs of letters have distinct values.  A
    reference with no leading upper-case letter, the empty one included,
    gives 1.  In particular "A1" gives 1, "Z1" gives 26 and "AA3" gives
    27. *)
Theorem column_index_bijective_base26 :
  (forall letters rest : str,
      letters ≠ [] ->
      Forall (fun c => is_upper c = true) letters ->
      head (map is_upper rest) ≠ Some true ->
      GenerateSites.column_index (letters ++ rest) = bijective26 letters
      /\ (1 <= bijective26 letters)%Z)
  /\ (forall l1 l2 : str,
        Forall (fun c => is_upper c = true) l1 ->
        Forall (fun c => is_upper c = true) l2 ->
        bijective26 l1 = bijective26 l2 -> l1 = l2)
  /\ (forall cell_ref : str,
        head (map is_upper cell_ref) ≠ Some true ->
        GenerateSites.column_index cell_ref = 1%Z)
  /\ GenerateSites.column_index (u "") = 1%Z
  /\ GenerateSites.column_index (u "A1") = 1%Z
  /\ GenerateSites.column_index (u "Z1") = 26%Z
  /\ GenerateSites.column_index (u "AA3") = 27%Z.
Proof.
  split; [|split; [|split]].
  - intros letters rest Hne Hup Hrest.
    unfold GenerateSites.column_index.
    rewrite (leading_upper_app _ _ Hup Hrest).
    destruct letters as [|c letters]; [done|].
    rewrite fold_left_base26. split; [lia|].
    pose proof (bijective26_bounds _ Hup) as B.
    assert (26 <= 26 ^ Z.of_nat (length (c :: letters)))%Z.
    { simpl length. rewrite Nat2Z.inj_succ, Z.pow_succ_r by lia.
      assert (0 < 26 ^ Z.of_nat (length letters))%Z
        by (apply Z.pow_pos_nonneg; lia).
      lia. }
    lia.
  - exact bijective26_inj.
  - intros cell_ref H. unfold GenerateSites.column_index.
    by rewrite (leading_upper_none _ H).
  - repeat split; reflexivity.
Qed.

Lemma column_index_bijective_base26_witness :
  GenerateSites.column_index (u "AB12") = 28%Z
  /\ GenerateSites.column_index (u "b7") = 1%Z.
Proof.
  split.
  - exact (proj1 (proj1 column_index_bijective_base26 (u "AB") (u "12")
             ltac:(done) ltac:(repeat constructor) ltac:(done))).
  - exact (proj1 (proj2 (proj2 column_index_bijective_base26)) (u "b7")
             ltac:(done)).
Defined.

(** ** Slugs *)

Lemma hyphen_literal : u "-" = [separator].
Proof. reflexivity. Qed.

Lemma in_hyphen (c : N) :
  bool_decide (c ∈ [separator]) = (c =? separator).
Proof.
  destruct (N.eqb_spec c separator) as [->|Hne].
  - apply bool_decide_eq_true. by apply list_elem_of_singleton.
  - apply bool_decide_eq_false. by rewrite list_elem_of_singleton.
Qed.

Lemma lstrip_hyphen (s : str) :
  lstrip_by (fun c => bool_decide (c ∈ [separator])) s = trim_leading s.
Proof.
  induction s as [|c s IH]; simpl; [done|].
  rewrite in_hyphen. by destruct (c =? separator).
Qed.

Lemma rstrip_hyphen (s : str) : rstrip_chars (u "-") s = trim_trailing s.
Proof.
  unfold rstrip_chars, rstrip_by, trim_trailing.
  by rewrite hyphen_literal, lstrip_hyphen.
Qed.

Lemma strip_hyphen (s : str) :
  strip_chars (u "-") s = trim_trailing (trim_leading s).
Proof.
  unfold strip_chars, strip_by, rstrip_by, trim_trailing.
  by rewrite hyphen_literal, !lstrip_hyphen.
Qed.

(** The scan of [re.sub] and the cut into maximal runs agree. *)
Lemma sub_runs_from_runs (cls : N -> bool) (s : str) :
  sub_runs_from false cls [separator] s = replace_runs cls s
  /\ sub_runs_from true cls [separator] s
     = flat_map (fun run : bool * str => if run.1 then [separator] else run.2)
         (match runs cls s with
          | (true, _) :: rs => rs
          | rs => rs
          end).
Proof.
  unfold replace_runs.
  induction s as [|c s [IH1 IH2]]; simpl; [done|].
  destruct (cls c) eqn:Hc; simpl.
  - rewrite IH2. destruct (runs cls s) as [|[[] r] rs]; simpl; done.
  - rewrite IH1. destruct (runs cls s) as [|[[] r] rs]; simpl; done.
Qed.

Lemma sub_runs_replace_runs (cls : N -> bool) (s : str) :
  sub_runs cls (u "-") s = replace_runs cls s.
Proof. unfold sub_runs. rewrite hyphen_literal. apply sub_runs_from_runs. Qed.

Lemma build_allowed_char (c : N) : Build.allowed c = allowed_char c.
Proof. reflexivity. Qed.

Lemma build_slugify_refines `{U : Unicode} (name : str) :
  Build.slugify name = slugify_spec name.
Proof.
  unfold Build.slugify, slugify_spec.
  by rewrite !sub_runs_replace_runs, strip_hyphen, rstrip_hyphen.
Qed.

(** *** What the output of [build.py]'s [slugify] looks like *)

Definition slug_char (c : N) : bool := allowed_char c || (c =? separator).

Lemma single_separators_cons (a : N) (s : str) :
  single_separators (a :: s)
  = negb ((a =? separator) && bool_decide (head s = Some separator))
    && single_separators s.
Proof.
  destruct s as [|b s]; simpl.
  - by rewrite andb_false_r.
  - f_equal. f_equal. f_equal.
    destruct (N.eqb_spec b separator) as [->|Hne].
    + by rewrite bool_decide_eq_true_2.
    + rewrite bool_decide_eq_false_2; [done|congruence].
Qed.

Lemma single_separators_app (l1 l2 : str) :
  single_separators (l1 ++ l2) = true ->
  single_separators l1 = true /\ single_separators l2 = true.
Proof.
  induction l1 as [|a l1 IH]; [done|].
  rewrite <- app_comm_cons, !single_separators_cons.
  rewrite !andb_true_iff. intros [H1 H2].
  destruct (IH H2) as [H3 H4]. split; [split|]; try done.
  destruct l1; [|done]. simpl. by rewrite andb_false_r.
Qed.

Lemma sub_runs_from_chars (P : N -> Prop) (b : bool) (cls : N -> bool)
    (repl s : str) :
  Forall P repl ->
  Forall (fun c => cls c = false -> P c) s ->
  Forall P (sub_runs_from b cls repl s).
Proof.
  intros Hr Hs. revert b.
  induction Hs as [|c s Hc _ IH]; intros b; simpl; [done|].
  destruct (cls c) eqn:E.
  - apply Forall_app. split; [by destruct b | apply IH].
  - constructor; [by apply Hc | apply IH].
Qed.

Lemma sub_runs_from_single (b : bool) (cls : N -> bool) (s : str) :
  cls separator = true ->
  single_separators (sub_runs_from b cls [separator] s) = true
  /\ (b = true -> head (sub_runs_from b cls [separator] s) ≠ Some separator).
Proof.
  intros Hsep. revert b.
  induction s as [|c s IH]; intros b; simpl; [done|].
  destruct (cls c) eqn:E.
  - destruct (IH true) as [H1 H2]. destruct b; cbn [app].
    + split; [done | by intros _; apply H2].
    + split; [|done]. rewrite single_separators_cons, H1, andb_true_r.
      rewrite bool_decide_eq_false_2; [by rewrite andb_false_r | by apply H2].
  - destruct (IH false) as [H1 _]. split.
    + rewrite single_separators_cons, H1, andb_true_r.
      destruct (N.eqb_spec c separator) as [->|Hne]; [congruence | done].
    + intros _ [= ->]. congruence.
Qed.

Lemma trim_leading_suffix (s : str) : exists pre, s = pre ++ trim_leading s.
Proof.
  induction s as [|c s [pre IH]]; simpl; [by exists []|].
  destruct (c =? separator).
  - exists (c :: pre). simpl. by f_equal.
  - by exists [].
Qed.

Lemma trim_trailing_prefix (s : str) : exists suf, s = trim_trailing s ++ suf.
Proof.
  unfold trim_trailing.
  destruct (trim_leading_suffix (reverse s)) as [pre E].
  exists (reverse pre).
  rewrite <- reverse_app, <- E. by rewrite reverse_involutive.
Qed.

Lemma trim_leading_head (s : str) : head (trim_leading s) ≠ Some separator.
Proof.
  induction s as [|c s IH]; simpl; [done|].
  destruct (N.eqb_spec c separator); [done|]. simpl. congruence.
Qed.

Lemma trim_trailing_last (s : str) : last (trim_trailing s) ≠ Some separator.
Proof. unfold trim_trailing. rewrite last_reverse. apply trim_leading_head. Qed.

Lemma head_prefix (l1 l2 : str) (x : N) :
  head (l1 ++ l2) ≠ Some x -> head l1 ≠ Some x.
Proof. by destruct l1. Qed.

Lemma forallb_true_Forall {A : Type} (f : A -> bool) (l : list A) :
  forallb f l = true <-> Forall (fun x => f x = true) l.
Proof.
  induction l as [|x l IH]; simpl.
  - split; [by constructor | done].
  - rewrite andb_true_iff, Forall_cons, IH. tauto.
Qed.

Lemma clean_slug_spec (s : str) :
  clean_slug s = true <->
  s ≠ [] /\ (length s <= max_slug_length)%nat
  /\ Forall (fun c => slug_char c = true) s
  /\ single_separators s = true
  /\ head s ≠ Some separator /\ last s ≠ Some separator.
Proof.
  unfold clean_slug.
  rewrite !andb_true_iff, !negb_true_iff, !bool_decide_eq_false,
    bool_decide_eq_true, forallb_true_Forall.
  unfold slug_char. tauto.
Qed.

Lemma trim_truncate_clean (collapsed : str) :
  Forall (fun c => slug_char c = true) collapsed ->
  single_separators collapsed = true ->
  trim_trailing (take max_slug_length
                   (trim_trailing (trim_leading collapsed))) ≠ [] ->
  clean_slug (trim_trailing (take max_slug_length
                (trim_trailing (trim_leading collapsed)))) = true.
Proof.
  intros Fc Sc Hne.
  destruct (trim_leading_suffix collapsed) as [pre E1].
  destruct (trim_trailing_prefix (trim_leading collapsed)) as [suf E2].
  pose proof (take_drop max_slug_length
                (trim_trailing (trim_leading collapsed))) as E3.
  destruct (trim_trailing_prefix
              (take max_slug_length
                 (trim_trailing (trim_leading collapsed)))) as [suf' E4].
  pose proof (trim_trailing_last
                (take max_slug_length
                   (trim_trailing (trim_leading collapsed)))) as Hlast.
  pose proof (trim_leading_head collapsed) as Hhead.
  assert (length (take max_slug_length
                    (trim_trailing (trim_leading collapsed)))
          <= max_slug_length)%nat as Hlen by (rewrite length_take; lia).
  revert Hne E4 Hlast.
  generalize (trim_trailing (take max_slug_length
                (trim_trailing (trim_leading collapsed)))).
  intros truncated Hne E4 Hlast.
  rewrite E4 in E3, Hlen. rewrite <- E3 in E2. rewrite E2 in E1, Hhead.
  rewrite E1 in Fc, Sc. clear E1 E2 E3 E4.
  rewrite <- !app_assoc in Hhead.
  apply head_prefix in Hhead.
  apply Forall_app in Fc as [_ Fc]. apply Forall_app in Fc as [Fc _].
  apply Forall_app in Fc as [Fc _]. apply Forall_app in Fc as [Fc _].
  apply single_separators_app in Sc as [_ Sc].
  apply single_separators_app in Sc as [Sc _].
  apply single_separators_app in Sc as [Sc _].
  apply single_separators_app in Sc as [Sc _].
  rewrite length_app in Hlen.
  apply clean_slug_spec. repeat split; try done. lia.
Qed.

Lemma slugify_spec_clean `{U : Unicode} (name : str) :
  clean_slug (slugify_spec name) = true.
Proof.
  unfold slugify_spec.
  set (replaced := replace_runs _ (lower name)).
  set (collapsed := replace_runs _ replaced).
  assert (Forall (fun c => slug_char c = true) replaced) as Fr.
  { subst replaced. rewrite <- (proj1 (sub_runs_from_runs _ _)).
    apply sub_runs_from_chars; [by repeat constructor|].
    apply Forall_forall. intros c _ Hc. unfold slug_char.
    apply negb_false_iff in Hc. by rewrite Hc. }
  assert (Forall (fun c => slug_char c = true) collapsed) as Fc.
  { subst collapsed. rewrite <- (proj1 (sub_runs_from_runs _ _)).
    apply sub_runs_from_chars; [by repeat constructor|].
    eapply Forall_impl; [exact Fr | by intros c Hc _]. }
  assert (single_separators collapsed = true) as Sc.
  { subst collapsed. rewrite <- (proj1 (sub_runs_from_runs _ _)).
    by apply sub_runs_from_single. }
  pose proof (trim_truncate_clean collapsed Fc Sc) as H.
  destruct (trim_trailing (take max_slug_length
              (trim_trailing (trim_leading collapsed)))) as [|c t];
    [reflexivity | by apply H].
Qed.

(** *** Clean slugs are left as they are *)

Lemma lstrip_by_id (p : N -> bool) (s : str) :
  from_option p false (head s) = false -> lstrip_by p s = s.
Proof. destruct s as [|c s]; simpl; [done|]. by intros ->. Qed.

Lemma rstrip_by_id (p : N -> bool) (s : str) :
  from_option p false (last s) = false -> rstrip_by p s = s.
Proof.
  intros H. unfold rstrip_by. rewrite lstrip_by_id.
  - apply reverse_involutive.
  - by rewrite head_reverse.
Qed.

Lemma trim_leading_id (s : str) :
  head s ≠ Some separator -> trim_leading s = s.
Proof.
  destruct s as [|c s]; simpl; [done|].
  destruct (N.eqb_spec c separator) as [->|]; done.
Qed.

Lemma trim_trailing_id (s : str) :
  last s ≠ Some separator -> trim_trailing s = s.
Proof.
  intros H. unfold trim_trailing. rewrite trim_leading_id.
  - apply reverse_involutive.
  - by rewrite head_reverse.
Qed.

Lemma sub_runs_from_id (b : bool) (cls : N -> bool) (s : str) :
  Forall (fun c => cls c = true -> c = separator) s ->
  single_separators s = true ->
  (b = true -> head s ≠ Some separator) ->
  sub_runs_from b cls [separator] s = s.
Proof.
  intros Hs. revert b.
  induction Hs as [|c s Hc _ IH]; intros b Hsingle Hb; simpl; [done|].
  rewrite single_separators_cons in Hsingle.
  apply andb_true_iff in Hsingle as [H1 H2].
  destruct (cls c) eqn:E.
  - rewrite (Hc eq_refl) in *.
    destruct b; [by destruct Hb|]. cbn [app]. f_equal.
    apply IH; [done|]. intros _ Hh.
    rewrite N.eqb_refl, bool_decide_eq_true_2 in H1; done.
  - f_equal. by apply IH.
Qed.

Lemma replace_runs_id (cls : N -> bool) (s : str) :
  Forall (fun c => cls c = true -> c = separator) s ->
  single_separators s = true ->
  replace_runs cls s = s.
Proof.
  intros. rewrite <- (proj1 (sub_runs_from_runs _ _)).
  by apply sub_runs_from_id.
Qed.

Lemma lower_slug_chars `{U : Unicode} (before s : str) :
  Forall (fun c => slug_char c = true) s -> lower_from before s = s.
Proof.
  intros Hs. revert before.
  induction Hs as [|c s Hc _ IH]; intros before; simpl; [done|].
  rewrite IH.
  unfold slug_char, allowed_char, is_lower, is_digit, is_cjk, is_upper,
    in_range, separator in *.
  repeat match type of Hc with
         | _ || _ = true => apply orb_true_iff in Hc as [Hc|Hc]
         | _ && _ = true => apply andb_true_iff in Hc as [? Hc]
         end;
    repeat match goal with
           | H : (_ <=? _) = true |- _ => apply N.leb_le in H
           | H : (_ =? _) = true |- _ => apply N.eqb_eq in H
           end;
    destruct (N.ltb_spec c 128);
    destruct (N.leb_spec 65 c); destruct (N.leb_spec c 90);
    destruct (N.leb_spec 19968 c); destruct (N.leb_spec c 40959);
    simpl; try done; lia.
Qed.

Lemma slugify_spec_fixes_clean `{U : Unicode} (s : str) :
  clean_slug s = true -> slugify_spec s = s.
Proof.
  intros H. apply clean_slug_spec in H as (Hne & Hlen & Hch & Hs & Hh & Hl).
  unfold slugify_spec, lower. rewrite (lower_slug_chars _ _ Hch).
  assert (replace_runs (fun c => negb (allowed_char c)) s = s) as ->.
  { apply replace_runs_id; [|done].
    eapply Forall_impl; [exact Hch|]. intros c Hc Hn. simpl in *.
    apply negb_true_iff in Hn. unfold slug_char in Hc. rewrite Hn in Hc.
    by apply N.eqb_eq in Hc. }
  assert (replace_runs (fun c => c =? separator) s = s) as ->.
  { apply replace_runs_id; [|done].
    eapply Forall_impl; [exact Hch|]. intros c _ Hc. by apply N.eqb_eq in Hc. }
  rewrite (trim_leading_id _ Hh), (trim_trailing_id _ Hl).
  rewrite take_ge by done. rewrite (trim_trailing_id _ Hl).
  by destruct s.
Qed.

Lemma clean_word_slug_fixed `{U : Unicode} (s : str) :
  clean_word_slug s = true -> GenerateSites.slugify s = s.
Proof.
  unfold clean_word_slug.
  rewrite !andb_true_iff, !negb_true_iff, !bool_decide_eq_false,
    bool_decide_eq_true, forallb_true_Forall.
  intros [[[[[[[Hne Hch] Hlow] Hs] Hh] Hl] Hsh] Hsl].
  unfold GenerateSites.slugify, strip, strip_by.
  rewrite (lstrip_by_id _ _ Hsh), (rstrip_by_id _ _ Hsl), Hlow.
  rewrite strip_hyphen. unfold sub_runs. rewrite hyphen_literal.
  assert (sub_runs_from false (fun c => negb (isword c)) [separator] s = s)
    as ->.
  { apply sub_runs_from_id; [|done|done].
    eapply Forall_impl; [exact Hch|]. intros c Hc Hn. simpl in *.
    apply negb_true_iff in Hn. rewrite Hn in Hc. by apply N.eqb_eq in Hc. }
  assert (sub_runs_from false (fun c => c =? 45) [separator] s = s) as ->.
  { apply sub_runs_from_id; [|done|done].
    apply Forall_forall. intros c _ Hc. by apply N.eqb_eq in Hc. }
  rewrite (trim_leading_id _ Hh), (trim_trailing_id _ Hl).
  by destruct s.
Qed.

(** C3 (as amended). The [slugify] of [build.py] returns what the
    specification's steps give: lowercase; every run of characters outside
    the allowed set (ASCII alphanumerics and U+4E00..U+9FFF) replaced by one
    separator; repeated separators collapsed; separators trimmed at both
    ends; the text cut to sixty characters and a trailing separator trimmed
    again; the token "store" when nothing is left.  Its output is never
    empty, holds at most sixty characters, all of them allowed characters
    or separators, with no two separators side by side and none at either
    end. *)
Theorem build_slugify_follows_spec `{U : Unicode} (name : str) :
  Build.slugify name = slugify_spec name
  /\ Build.slugify name ≠ []
  /\ (length (Build.slugify name) <= max_slug_length)%nat
  /\ Forall (fun c => allowed_char c = true \/ c = separator)
            (Build.slugify name)
  /\ single_separators (Build.slugify name) = true
  /\ head (Build.slugify name) ≠ Some separator
  /\ last (Build.slugify name) ≠ Some separator.
Proof.
  rewrite build_slugify_refines.
  pose proof (slugify_spec_clean name) as H.
  apply clean_slug_spec in H as (Hne & Hlen & Hch & Hs & Hh & Hl).
  repeat split; try done.
  eapply Forall_impl; [exact Hch|]. intros c Hc. unfold slug_char in Hc.
  apply orb_true_iff in Hc as [Hc|Hc]; [by left | right; by apply N.eqb_eq].
Qed.

(** C3 (as stated) fails for the other two scripts: the [slugify] of
    [generate_sites.py] keeps the underscore, which is outside the allowed
    set, and does not truncate, so a name of 61 letters gives a slug of 61
    characters; the [slugify] of [build_sites.py] drops CJK text and falls
    back to a token made from the record's index. *)
Lemma slugify_variants_depart_from_spec :
  GenerateSites.slugify (U := plain_tables) (u "a_b")
    ≠ slugify_spec (U := plain_tables) (u "a_b")
  /\ GenerateSites.slugify (U := plain_tables) (u "a_b") = u "a_b"
  /\ slugify_spec (U := plain_tables) (u "a_b") = u "a-b"
  /\ length (GenerateSites.slugify (U := plain_tables) (repeat 97 61)) = 61%nat
  /\ length (BuildSites.slugify (U := plain_tables) (repeat 97 61) 1) = 61%nat
  /\ BuildSites.slugify (U := plain_tables) (u "水電") 1 = u "shop-01"
  /\ slugify_spec (U := plain_tables) (u "水電") = u "水電".
Proof. repeat split; try reflexivity. by vm_compute. Qed.

(** C9. [slugify] leaves a clean slug as it is, so applying it twice to
    one gives what applying it once gives: for [build.py] a clean slug is
    a non-empty text of at most sixty allowed characters and single
    separators with none at either end; for [generate_sites.py] it is a
    non-empty lower-case text of word characters and single separators
    with none at either end. *)
Theorem slugify_idempotent_on_clean `{U : Unicode} (x : str) :
  (clean_slug x = true ->
   Build.slugify x = x
   /\ Build.slugify (Build.slugify x) = Build.slugify x)
  /\ (clean_word_slug x = true ->
      GenerateSites.slugify x = x
      /\ GenerateSites.slugify (GenerateSites.slugify x)
         = GenerateSites.slugify x).
Proof.
  split; intros H.
  - rewrite !build_slugify_refines, !(slugify_spec_fixes_clean x H). done.
  - rewrite !(clean_word_slug_fixed x H). done.
Qed.

Lemma slugify_idempotent_on_clean_witness :
  (Build.slugify (U := plain_tables) (u "abc-水電-co") = u "abc-水電-co"
   /\ Build.slugify (U := plain_tables)
        (Build.slugify (U := plain_tables) (u "abc-水電-co"))
      = Build.slugify (U := plain_tables) (u "abc-水電-co"))
  /\ (GenerateSites.slugify (U := plain_tables) (u "abc_1-co") = u "abc_1-co"
      /\ GenerateSites.slugify (U := plain_tables)
           (GenerateSites.slugify (U := plain_tables) (u "abc_1-co"))
         = GenerateSites.slugify (U := plain_tables) (u "abc_1-co")).
Proof.
  split.
  - exact (proj1 (slugify_idempotent_on_clean (U := plain_tables)
                    (u "abc-水電-co")) eq_refl).
  - exact (proj2 (slugify_idempotent_on_clean (U := plain_tables)
                    (u "abc_1-co")) eq_refl).
Defined.

(** X4. [build.py]'s [slugify] is idempotent on every input, clean or
    not. *)
Theorem build_slugify_idempotent `{U : Unicode} (x : str) :
  Build.slugify (Build.slugify x) = Build.slugify x.
Proof.
  rewrite !build_slugify_refines.
  apply slugify_spec_fixes_clean, slugify_spec_clean.
Qed.

(** ** The string table *)

(** C2 fails in [build.py]: [load_strings] lists every text run of the
    table as an entry of its own, so a rich-text entry in two runs yields
    two strings and every later index resolves to the wrong entry; the
    loaders of the other two scripts join the runs of each entry. *)
Theorem build_load_strings_splits_rich_text :
  Build.load_strings rich_text_book
    = Ok [u "Name"; u "Te"; u "st"; u "Addr"]
  /\ (Build.load_strings rich_text_book ≫= Build.load_rows (U := plain_tables) rich_text_book)
     = Ok [[Some (u "Name")]; [Some (u "Te"); Some (u "st")]]
  /\ GenerateSites.load_shared_strings rich_text_book
     = Ok [u "Name"; u "Test"; u "Addr"]
  /\ GenerateSites.load_sheet_rows (U := plain_tables) rich_text_book
     = Ok [[u "Name"]; [u "Test"; u "Addr"]]
  /\ BuildSites.load_shared_strings rich_text_book
     = Ok [u "Name"; u "Test"; u "Addr"].
Proof. repeat split; by vm_compute. Qed.

(** ** Rows *)

(** C1 fails in all three decoders.  In [generate_sites.py] a cell that
    is present without a value is appended without advancing the column
    counter, so the value of B2 lands in column C; [build.py] and
    [build_sites.py] append one value per cell and never pad, so the value
    of C2 lands in column B and the row is shorter than its highest
    column. *)
Theorem row_decoders_misalign :
  GenerateSites.load_sheet_rows (U := plain_tables) empty_cell_book
    = Ok [[u "h"]; [u ""; u ""; u "x"]]
  /\ (Build.load_strings sparse_row_book
        ≫= Build.load_rows (U := plain_tables) sparse_row_book)
     = Ok [[Some (u "h")]; [Some (u "a"); Some (u "c")]]
  /\ BuildSites.load_rows (U := plain_tables) sparse_row_book
     = Ok [[Some (u "h")]; [Some (u "a"); Some (u "c")]]
  /\ GenerateSites.load_sheet_rows (U := plain_tables) sparse_row_book
     = Ok [[u "h"]; [u "a"; u ""; u "c"]].
Proof. repeat split; by vm_compute. Qed.

(** ** Numeric coercion *)

Lemma float_of_str_raises `{U : Unicode} (s : str) (e : exn) :
  float_of_str s = Raise e -> e = ValueError.
Proof.
  unfold float_of_str.
  destruct (drop_underscores _ _); [|congruence].
  destruct (split_sign _) as [neg rest].
  destruct (_ || _); [congruence|].
  destruct (str_eqb _ _); [congruence|].
  destruct (parse_decimal rest) as [[m e10]|]; congruence.
Qed.

(** Parsing a rating never raises: text that is no number gives [None]. *)
Lemma rating_coercion_total `{U : Unicode} (s : str) :
  exists r, GenerateSites.safe_float s = Ok r
            /\ BuildSites.to_float (Some s) = Ok r
            /\ Build.to_float (Some s) = Ok r.
Proof.
  unfold GenerateSites.safe_float, BuildSites.to_float, Build.to_float,
    float_of, except_type_value.
  destruct (float_of_str s) as [x|e] eqn:E; [by eexists|].
  rewrite (float_of_str_raises _ _ E). by eexists.
Qed.

(** Parsing a review count in [generate_sites.py] raises only
    [OverflowError], and only for text that reads as an infinity. *)
Lemma safe_int_raises `{U : Unicode} (s : str) (e : exn) :
  GenerateSites.safe_int s = Raise e ->
  e = OverflowError /\ exists neg, float_of_str s = Ok (S754_infinity neg).
Proof.
  unfold GenerateSites.safe_int, except_type_value.
  destruct (float_of_str s) as [x|e'] eqn:E; simpl.
  - destruct x; simpl; try congruence.
    intros [= <-]. split; [done | by eexists].
  - rewrite (float_of_str_raises _ _ E). congruence.
Qed.

(** C4 fails on a review count that reads as an infinity: [int] of an
    infinite [float] raises [OverflowError], which none of the scripts
    catches, and the run stops.  [build_sites.py] and [build.py] also let
    the [ValueError] of [int(nan)] through.  The examples of the claim
    hold: text that is no number gives no rating, "-42" counts 42 and the
    empty text gives no count. *)
Theorem review_count_aborts_on_infinity :
  GenerateSites.safe_int (U := plain_tables) (u "inf") = Raise OverflowError
  /\ GenerateSites.safe_int (U := plain_tables) (u "1e999") = Raise OverflowError
  /\ BuildSites.to_int (U := plain_tables) (Some (u "inf")) = Raise OverflowError
  /\ BuildSites.to_int (U := plain_tables) (Some (u "nan")) = Raise ValueError
  /\ Build.parse_store (U := plain_tables)
       [Some (u "http://m"); Some (u "Shop"); Some (u "4.5"); Some (u "inf")]
     = Raise OverflowError
  /\ Build.parse_store (U := plain_tables)
       [Some (u "http://m"); Some (u "Shop"); Some (u "4.5"); Some (u "nan")]
     = Raise ValueError
  /\ GenerateSites.load_stores (U := plain_tables) infinite_reviews_book
     = Raise OverflowError
  /\ GenerateSites.safe_float (U := plain_tables) (u "abc") = Ok None
  /\ GenerateSites.safe_int (U := plain_tables) (u "-42") = Ok (Some 42%Z)
  /\ GenerateSites.safe_int (U := plain_tables) (u "") = Ok None
  /\ GenerateSites.safe_int (U := plain_tables) (u "nan") = Ok None
  /\ BuildSites.to_float (U := plain_tables) (Some (u "abc")) = Ok None
  /\ BuildSites.to_int (U := plain_tables) (Some (u "-42")) = Ok (Some 42%Z)
  /\ BuildSites.to_int (U := plain_tables) (Some (u "")) = Ok None
  /\ (Build.review_count <$> Build.parse_store (U := plain_tables)
        [Some (u "http://m"); Some (u "Shop"); Some (u "abc"); Some (u "-42")])
     = Ok (u "42")
  /\ (Build.rating <$> Build.parse_store (U := plain_tables)
        [Some (u "http://m"); Some (u "Shop"); Some (u "abc"); Some (u "")])
     = Ok (u "N/A").
Proof. repeat split; by vm_compute. Qed.

(** ** Record mapping *)

(** [lia] after unfolding the alias [str], under which one length can
    hide in two spellings. *)
Ltac slia := unfold str in *; lia.

Lemma subscript_nat {A : Type} (l : list A) (n : nat) :
  subscript l (Z.of_nat n)
  = match l !! n with
    | Some x => Ok x
    | None => Raise IndexError
    end.
Proof.
  unfold subscript.
  destruct (Z.ltb_spec (Z.of_nat n) 0); [lia|].
  destruct (Z.ltb_spec (Z.of_nat n) 0); [lia|].
  by rewrite Nat2Z.id.
Qed.

(** The guarded read of [generate_sites.py]: the cell, or the empty text
    past the end of the row. *)
Lemma generate_get_nat (row : list str) (n : nat) :
  GenerateSites.get row (Z.of_nat n) = Ok (default [] (row !! n)).
Proof.
  unfold GenerateSites.get.
  destruct (Z.gtb_spec (Z.of_nat (length row)) (Z.of_nat n)) as [H|H].
  - rewrite subscript_nat.
    destruct (row !! n) as [x|] eqn:E; [done|].
    apply lookup_ge_None in E. exfalso. slia.
  - rewrite lookup_ge_None_2 by slia. done.
Qed.

(** The guarded read of [build.py]. *)
Lemma build_get_nat (row : list (option str)) (n : nat) :
  Build.get row (Z.of_nat n) = Ok (default (Some []) (row !! n)).
Proof.
  unfold Build.get.
  destruct (Z.ltb_spec (Z.of_nat n) (Z.of_nat (length row))) as [H|H].
  - rewrite subscript_nat.
    destruct (row !! n) as [x|] eqn:E; [done|].
    apply lookup_ge_None in E. exfalso. slia.
  - rewrite lookup_ge_None_2 by slia. done.
Qed.

Lemma generate_get (row : list str) (index : Z) :
  (0 <= index)%Z ->
  GenerateSites.get row index = Ok (default [] (row !! Z.to_nat index)).
Proof. intros H. rewrite <- (Z2Nat.id index H) at 1. apply generate_get_nat. Qed.

Lemma build_get (row : list (option str)) (index : Z) :
  (0 <= index)%Z ->
  Build.get row index = Ok (default (Some []) (row !! Z.to_nat index)).
Proof. intros H. rewrite <- (Z2Nat.id index H) at 1. apply build_get_nat. Qed.

(** [row_to_store] with its reads resolved. *)
Lemma row_to_store_raises `{U : Unicode} (row : list str) (e : exn) :
  GenerateSites.row_to_store row = Raise e -> e = OverflowError.
Proof.
  unfold GenerateSites.row_to_store.
  destruct (_ <? 2)%Z; [done|].
  rewrite !(generate_get row) by lia. simpl.
  destruct (strip _); [done|].
  destruct (rating_coercion_total (strip (default [] (row !! Z.to_nat 6))))
    as (r & -> & _).
  simpl.
  destruct (GenerateSites.safe_int _) as [cnt|e0] eqn:E; simpl; [done|].
  intros [= <-]. by apply safe_int_raises in E as [-> _].
Qed.

Lemma cell_pad (row : list str) (k n : nat) :
  cell (row ++ replicate k []) n = cell row n.
Proof.
  unfold cell. destruct (decide (n < length row)%nat) as [H|H].
  - by rewrite lookup_app_l.
  - rewrite lookup_app_r, (lookup_ge_None_2 row) by slia.
    destruct (replicate k [] !! _) as [x|] eqn:E; [|done].
    by apply lookup_replicate_1 in E as [-> _].
Qed.

Lemma build_get_strings (row : list str) (index : Z) :
  (0 <= index)%Z ->
  Build.get (Some <$> row) index = Ok (Some (cell row (Z.to_nat index))).
Proof.
  intros H. rewrite build_get by done. unfold cell.
  rewrite list_lookup_fmap. by destruct (row !! _).
Qed.

Lemma build_parts_from (row : list (option str)) (m n : nat) :
  (length row - n <= m)%nat ->
  rmap (Build.get row)
       (seqZ (Z.of_nat n) (Z.of_nat (length row) - Z.of_nat n))
  = Ok (drop n row).
Proof.
  revert n. induction m as [|m IH]; intros n Hm.
  - rewrite seqZ_nil by slia. by rewrite drop_ge by slia.
  - destruct (decide (length row <= n)%nat) as [H|H].
    + rewrite seqZ_nil by slia. by rewrite drop_ge by slia.
    + rewrite seqZ_cons by slia. simpl.
      rewrite build_get_nat.
      destruct (row !! n) as [x|] eqn:E;
        [|apply lookup_ge_None in E; exfalso; slia].
      rewrite (drop_S row x n E).
      replace (Z.succ (Z.of_nat n)) with (Z.of_nat (S n)) by slia.
      replace (Z.pred (Z.of_nat (length row) - Z.of_nat n))
        with (Z.of_nat (length row) - Z.of_nat (S n))%Z by slia.
      rewrite IH by slia. done.
Qed.

Lemma build_parts_strings (row : list str) :
  rmap (Build.get (Some <$> row))
       (seqZ 14 (Z.of_nat (length (Some <$> row)) - 14))
  = Ok (Some <$> drop 14 row).
Proof.
  rewrite (build_parts_from (Some <$> row) (length (Some <$> row)) 14) by slia.
  by rewrite fmap_drop.
Qed.

Lemma join_values_strings (sep : str) (parts : list str) :
  Build.join_values sep (Some <$> parts) = Ok (join sep parts).
Proof.
  unfold Build.join_values.
  match goal with
  | |- _ <$> ?r = _ => assert (r = Ok parts) as ->; [|done]
  end.
  induction parts as [|p parts IH]; [done|]. rewrite fmap_cons. cbn [rmap]. by rewrite IH.
Qed.

Lemma join_empty_concat (parts : list str) : join [] parts = concat parts.
Proof.
  induction parts as [|p [|p' parts] IH]; simpl in *; [done| |].
  - by rewrite app_nil_r.
  - by rewrite IH.
Qed.

Lemma concat_drop_pad (row : list str) (k n : nat) :
  concat (drop n (row ++ replicate k [])) = concat (drop n row).
Proof.
  rewrite drop_app, concat_app, drop_replicate.
  assert (forall j, concat (replicate j (@nil N)) = []) as ->.
  { induction j; simpl; done. }
  by rewrite app_nil_r.
Qed.

(** Run the binds whose first computation is a known result. *)
Ltac run_binds := cbn [mbind result_bind fmap result_fmap mret result_ret].

(** A short row of [build.py] is read as the row padded with empty
    cells. *)
Lemma build_parse_store_pad `{U : Unicode} (row : list str) (k : nat) :
  Build.parse_store (Some <$> (row ++ replicate k []))
  = Build.parse_store (Some <$> row).
Proof.
  unfold Build.parse_store.
  rewrite !build_get_strings by lia.
  rewrite !build_parts_strings. run_binds.
  rewrite !join_values_strings. run_binds.
  rewrite !cell_pad, !join_empty_concat, concat_drop_pad.
  done.
Qed.

Lemma build_parse_store_raises `{U : Unicode} (row : list str) (e : exn) :
  Build.parse_store (Some <$> row) = Raise e ->
  e = OverflowError \/ e = ValueError.
Proof.
  unfold Build.parse_store.
  rewrite !build_get_strings by lia.
  rewrite !build_parts_strings. run_binds.
  rewrite !join_values_strings. run_binds.
  destruct (rating_coercion_total (cell row (Z.to_nat 2))) as (r2 & _ & _ & ->).
  destruct (rating_coercion_total (cell row (Z.to_nat 3))) as (r3 & _ & _ & ->).
  destruct r3 as [x|]; [|done].
  destruct x; run_binds; cbn [int_of_float]; try done; intros [= <-]; auto.
Qed.

Lemma filter_drop_pad (row : list str) (k n : nat) :
  filter (fun part : str => part ≠ []) (drop n (row ++ replicate k []))
  = filter (fun part : str => part ≠ []) (drop n row).
Proof.
  rewrite drop_app, filter_app, drop_replicate.
  assert (forall j, filter (fun part : str => part ≠ []) (replicate j [])
                    = []) as ->.
  { induction j as [|j IH]; [done|]. simpl.
    rewrite filter_cons_False; [done | by intros H; apply H]. }
  by rewrite app_nil_r.
Qed.

Lemma strip_empty `{U : Unicode} : strip [] = [].
Proof. reflexivity. Qed.

(** A short row of [generate_sites.py] is read as the row padded with
    empty cells. *)
Lemma generate_row_to_store_pad `{U : Unicode} (row : list str) (k : nat) :
  GenerateSites.row_to_store (row ++ replicate k [])
  = GenerateSites.row_to_store row.
Proof.
  unfold GenerateSites.row_to_store.
  rewrite !generate_get by lia.
  run_binds.
  change (default [] ((row ++ replicate k []) !! ?n))
    with (cell (row ++ replicate k []) n).
  rewrite !cell_pad, filter_drop_pad.
  destruct (Z.ltb_spec (Z.of_nat (length row)) 2) as [Hs|Hs].
  - assert (cell row (Z.to_nat 5) = []) as ->.
    { unfold cell. by rewrite lookup_ge_None_2 by slia. }
    change (strip []) with (@nil N). by destruct (_ <? 2)%Z.
  - rewrite length_app.
    destruct (_ <? 2)%Z eqn:E; [|done].
    apply Z.ltb_lt in E. exfalso. slia.
Qed.

(** C6. In [build.py] and [generate_sites.py] a read at or past the end
    of a row gives the empty text, and the record mapper never raises
    [IndexError]: it maps a short row exactly as it maps the row padded
    with empty cells. *)
Theorem record_mapping_total_on_short_rows `{U : Unicode}
    (row : list str) (index : Z) :
  (Z.of_nat (length row) <= index)%Z ->
  GenerateSites.get row index = Ok []
  /\ Build.get (Some <$> row) index = Ok (Some [])
  /\ GenerateSites.row_to_store row ≠ Raise IndexError
  /\ Build.parse_store (Some <$> row) ≠ Raise IndexError
  /\ (forall k : nat,
        GenerateSites.row_to_store (row ++ replicate k [])
        = GenerateSites.row_to_store row)
  /\ (forall k : nat,
        Build.parse_store (Some <$> (row ++ replicate k []))
        = Build.parse_store (Some <$> row)).
Proof.
  intros H. repeat split.
  - rewrite generate_get by lia. by rewrite lookup_ge_None_2 by slia.
  - rewrite build_get_strings by lia. unfold cell.
    by rewrite lookup_ge_None_2 by slia.
  - intros E. by apply row_to_store_raises in E.
  - intros E. by apply build_parse_store_raises in E as [|].
  - intros k. apply generate_row_to_store_pad.
  - intros k. apply build_parse_store_pad.
Qed.

Lemma record_mapping_total_on_short_rows_witness :
  GenerateSites.get [u "x"] 5 = Ok []
  /\ Build.get [Some (u "x")] 5 = Ok (Some [])
  /\ GenerateSites.row_to_store (U := plain_tables) [u "x"] ≠ Raise IndexError
  /\ Build.parse_store (U := plain_tables) [Some (u "x")] ≠ Raise IndexError.
Proof.
  pose proof (record_mapping_total_on_short_rows (U := plain_tables)
                [u "x"] 5 ltac:(simpl; lia)) as (H1 & H2 & H3 & H4 & _).
  exact (conj H1 (conj H2 (conj H3 H4))).
Defined.

(** What [row_to_store] returns, by the name cell. *)
Lemma row_to_store_result `{U : Unicode} (row : list str)
    (o : option GenerateSites.Store) :
  GenerateSites.row_to_store row = Ok o ->
  (strip (cell row 5) = [] /\ o = None)
  \/ (strip (cell row 5) ≠ []
      /\ exists s, o = Some s /\ GenerateSites.name s = strip (cell row 5)).
Proof.
  unfold GenerateSites.row_to_store.
  destruct (Z.ltb_spec (Z.of_nat (length row)) 2) as [Hs|Hs].
  - intros [= <-]. left. split; [|done].
    unfold cell. by rewrite lookup_ge_None_2 by slia.
  - rewrite !generate_get by lia. run_binds.
    change (default [] (row !! Z.to_nat 5)) with (cell row 5).
    destruct (strip (cell row 5)) as [|c name] eqn:E.
    + intros [= <-]. by left.
    + destruct (GenerateSites.safe_float _) as [r|]; [|done]. run_binds.
      destruct (GenerateSites.safe_int _) as [n|]; [|done]. run_binds.
      intros [= <-]. right. split; [done|]. by eexists.
Qed.

Lemma row_to_store_empty_name `{U : Unicode} (row : list str) :
  strip (cell row 5) = [] -> GenerateSites.row_to_store row = Ok None.
Proof.
  intros E. unfold GenerateSites.row_to_store.
  destruct (_ <? 2)%Z; [done|].
  rewrite !generate_get by lia. run_binds.
  change (default [] (row !! Z.to_nat 5)) with (cell row 5).
  by rewrite E.
Qed.

Lemma rmap_length {A B : Type} (f : A -> result B) (xs : list A)
    (ys : list B) :
  rmap f xs = Ok ys -> length ys = length xs.
Proof.
  revert ys. induction xs as [|x xs IH]; intros ys; simpl.
  - by intros [= <-].
  - destruct (f x) as [y|]; [|done]. run_binds.
    destruct (rmap f xs) as [ys'|]; [|done]. run_binds.
    intros [= <-]. simpl. by rewrite (IH ys').
Qed.

Lemma present_cons {A : Type} (o : option A) (xs : list (option A)) :
  GenerateSites.present (o :: xs)
  = match o with
    | Some x => x :: GenerateSites.present xs
    | None => GenerateSites.present xs
    end.
Proof. by destruct o. Qed.

Lemma stores_of_rows `{U : Unicode} (data : list (list str))
    (results : list (option GenerateSites.Store)) :
  rmap GenerateSites.row_to_store data = Ok results ->
  length (GenerateSites.present results)
  = length (filter (fun row => strip (cell row 5) ≠ []) data)
  /\ Forall (fun s => GenerateSites.name s ≠ [])
            (GenerateSites.present results).
Proof.
  revert results. induction data as [|row data IH]; intros results; simpl.
  - by intros [= <-].
  - destruct (GenerateSites.row_to_store row) as [o|] eqn:E; [|done].
    run_binds.
    destruct (rmap GenerateSites.row_to_store data) as [rs|]; [|done].
    run_binds. intros [= <-].
    destruct (IH rs eq_refl) as [IH1 IH2].
    apply row_to_store_result in E as [[E ->]|(E & s & -> & Hs)].
    + rewrite present_cons, filter_cons_False by (intros H; by apply H).
      done.
    + rewrite present_cons, filter_cons_True by done.
      split; [simpl; by rewrite IH1|].
      constructor; [by rewrite Hs | done].
Qed.

Lemma filter_length_lt {A : Type} (P : A -> Prop) `{!forall x, Decision (P x)}
    (l : list A) :
  Exists (fun x => ¬ P x) l -> (length (filter P l) < length l)%nat.
Proof.
  induction 1 as [x l Hx|x l _ IH].
  - destruct (decide (P x)); [done|].
    rewrite filter_cons_False by done. simpl.
    pose proof (length_filter P l). lia.
  - pose proof (length_filter P (x :: l)) as Hle.
    destruct (decide (P x)).
    + rewrite filter_cons_True by done. simpl. lia.
    + rewrite filter_cons_False by done. simpl. lia.
Qed.

Lemma build_parse_store_name `{U : Unicode} (row : list (option str))
    (st : Build.store) :
  Build.parse_store row = Ok st -> Build.name st ≠ [].
Proof.
  unfold Build.parse_store.
  destruct (Build.get row 1) as [name|]; [|done]. run_binds.
  repeat match goal with
         | |- context [?r ≫= _] =>
             lazymatch r with
             | Ok _ => fail
             | _ => destruct r; [|done]; run_binds
             end
         end.
  intros H.
  apply (f_equal (fun r => match r with
                           | Ok s => Build.name s
                           | Raise _ => []
                           end)) in H.
  cbn [Build.name] in H. rewrite <- H.
  destruct name as [[|c name]|]; try done.
  cbn [truthy negb orb or_empty].
  by destruct (startswith _ _).
Qed.

Lemma rmap_Forall2 {A B : Type} (f : A -> result B) (xs : list A)
    (ys : list B) :
  rmap f xs = Ok ys -> Forall2 (fun x y => f x = Ok y) xs ys.
Proof.
  revert ys. induction xs as [|x xs IH]; intros ys; simpl.
  - intros [= <-]. constructor.
  - destruct (f x) as [y|] eqn:E; [|done]. run_binds.
    destruct (rmap f xs) as [ys'|]; [|done]. run_binds.
    intros [= <-]. constructor; [done | by apply IH].
Qed.

(** C5 (as amended). In [generate_sites.py] a data row whose name cell
    (column index 5) is empty once stripped gives no record: the records
    are as many as the data rows with a name, so fewer than the data rows
    as soon as one of them has none, and every record has a name.  In
    [build.py] every data row gives a record, whose name is never empty
    (a row without a name gets a placeholder). *)
Theorem empty_name_rows_are_skipped `{U : Unicode}
    (rows : list (list str)) (stores : list GenerateSites.Store) :
  GenerateSites.rows_to_stores rows = Ok stores ->
  length stores
  = length (filter (fun row => strip (cell row 5) ≠ []) (drop 1 rows))
  /\ (length stores <= length (drop 1 rows))%nat
  /\ (Exists (fun row => strip (cell row 5) = []) (drop 1 rows) ->
      (length stores < length (drop 1 rows))%nat)
  /\ Forall (fun s => GenerateSites.name s ≠ []) stores
  /\ (forall row : list str,
        strip (cell row 5) = [] -> GenerateSites.row_to_store row = Ok None)
  /\ (forall (data : list (list (option str))) (records : list Build.store),
        rmap Build.parse_store data = Ok records ->
        length records = length data
        /\ Forall (fun st => Build.name st ≠ []) records).
Proof.
  unfold GenerateSites.rows_to_stores. intros H.
  destruct (rmap GenerateSites.row_to_store (drop 1 rows)) as [rs|] eqn:E;
    [|done].
  injection H as <-.
  destruct (stores_of_rows _ _ E) as [H1 H2].
  split; [done|]. split; [rewrite H1; apply length_filter|].
  split.
  { intros Hex. rewrite H1. apply filter_length_lt.
    eapply Exists_impl; [exact Hex|]. intros row Hrow Hne. by apply Hne. }
  split; [done|]. split; [apply @row_to_store_empty_name|].
  intros data records Hr. split; [by apply rmap_length in Hr|].
  apply rmap_Forall2 in Hr.
  induction Hr as [|row st data records Hst _ IH]; constructor; [|done].
  by apply build_parse_store_name in Hst.
Qed.

Lemma empty_name_rows_are_skipped_witness :
  exists stores,
    GenerateSites.rows_to_stores (U := plain_tables)
      [[u "h"]; [u "a"]; [u ""; u ""; u ""; u ""; u ""; u "Shop"]]
    = Ok stores
    /\ (length stores < 2)%nat.
Proof.
  eexists. split; [by vm_compute|].
  apply (empty_name_rows_are_skipped (U := plain_tables)
           [[u "h"]; [u "a"]; [u ""; u ""; u ""; u ""; u ""; u "Shop"]]);
    [by vm_compute|].
  apply Exists_cons_hd. by vm_compute.
Defined.

(** C5 (as stated) fails in [build.py]: the data row of [nameless_book]
    has an empty name cell and still gives a record, named by the
    placeholder, so the records are as many as the data rows. *)
Lemma build_keeps_nameless_rows :
  (Build.load_strings nameless_book
     ≫= Build.load_rows (U := plain_tables) nameless_book)
  = Ok [[Some (u "h")];
        [Some (u "http://maps.example/1"); Some (u ""); Some (u "4.5")]]
  /\ (map Build.name
        <$> rmap (Build.parse_store (U := plain_tables))
              (drop 1 [[Some (u "h")];
                       [Some (u "http://maps.example/1"); Some (u "");
                        Some (u "4.5")]]))
     = Ok [u "未命名水電行"].
Proof. split; by vm_compute. Qed.

(** ** Rendering *)

(** [html.escape] leaves no character that opens or closes markup or an
    attribute value. *)
Lemma escape_no_markup (s : str) :
  Forall (fun c => markup_char c = false) (escape s).
Proof.
  unfold escape. induction s as [|c s IH]; simpl; [done|].
  apply Forall_app. split; [|done].
  unfold escape_char, markup_char.
  destruct (N.eqb_spec c 38); [by repeat constructor|].
  destruct (N.eqb_spec c 60); [by repeat constructor|].
  destruct (N.eqb_spec c 62); [by repeat constructor|].
  destruct (N.eqb_spec c 34); [by repeat constructor|].
  destruct (N.eqb_spec c 39); [by repeat constructor|].
  constructor; [|done].
  destruct (N.eqb_spec c 60); [done|].
  destruct (N.eqb_spec c 62); [done|].
  destruct (N.eqb_spec c 34); [done|].
  by destruct (N.eqb_spec c 39).
Qed.

(** C7 fails in [generate_sites.py]: [render_detail] escapes the name in
    the heading and in the [alt] texts, and puts it as it is into the
    [title] element and into the quoted [content] attribute of the
    description, so markup in a name cell reaches the page. *)
Theorem render_detail_embeds_raw_name :
  exists store,
    GenerateSites.row_to_store (U := plain_tables) markup_name_row
    = Ok (Some store)
    /\ GenerateSites.name store = u "<script>alert('x')</script>"
    /\ contains (u "<title><script>alert('x')</script>｜")
                (GenerateSites.render_detail store) = true
    /\ contains (u "content='<script>alert('x')</script> ")
                (GenerateSites.render_detail store) = true
    /\ contains (u "<h1>&lt;script&gt;alert(&#x27;x&#x27;)&lt;/script&gt;</h1>")
                (GenerateSites.render_detail store) = true
    /\ contains (u "<script>") (GenerateSites.render_index [store]) = false.
Proof. eexists. repeat split; by vm_compute. Qed.

(** ** Running the generator again *)

Lemma same_kind_sym (a b : node) : same_kind a b = same_kind b a.
Proof. by destruct a, b. Qed.

Lemma same_kind_trans (a b c : node) :
  same_kind a b = true -> same_kind b c = true -> same_kind a c = true.
Proof. by destruct a, b, c. Qed.

Lemma same_kind_dir (n : node) : same_kind Dir n = true -> n = Dir.
Proof. by destruct n. Qed.

Lemma keeps_kinds_refl (fs : filesystem) : keeps_kinds fs fs.
Proof. intros p n H. exists n. split; [done | by destruct n]. Qed.

Lemma keeps_kinds_trans (a b c : filesystem) :
  keeps_kinds a b -> keeps_kinds b c -> keeps_kinds a c.
Proof.
  intros Hab Hbc p n H.
  destruct (Hab p n H) as (n' & H' & K).
  destruct (Hbc p n' H') as (n'' & H'' & K').
  exists n''. split; [done | by eapply same_kind_trans].
Qed.

Lemma keeps_kinds_node_at_dir (fs g : filesystem) (p : path) :
  keeps_kinds fs g -> node_at fs p = Some Dir -> node_at g p = Some Dir.
Proof.
  intros H. destruct p as [|c p]; [done|]. simpl. intros E.
  destruct (H _ _ E) as (n' & -> & K). by rewrite (same_kind_dir _ K).
Qed.

(** A run that succeeded leaves a tree on which it changes nothing. *)
Lemma rerunnable_fixed (step : filesystem -> result filesystem)
    (fs fs1 : filesystem) :
  rerunnable step -> step fs = Ok fs1 -> step fs1 = Ok fs1.
Proof.
  intros Hs H. destruct (Hs fs fs1 H) as (_ & written & E & Hg).
  rewrite (Hg fs1 (keeps_kinds_refl fs1)). f_equal.
  rewrite E at 1. rewrite (assoc_L (∪)). by rewrite (idemp_L (∪)).
Qed.

Lemma rerunnable_ret : rerunnable (fun fs => Ok fs).
Proof.
  intros fs fs1 [= <-]. split; [apply keeps_kinds_refl|].
  exists ∅. split; [by rewrite (left_id_L ∅ (∪))|].
  intros g _. by rewrite (left_id_L ∅ (∪)).
Qed.

Lemma rerunnable_bind (first second : filesystem -> result filesystem) :
  rerunnable first -> rerunnable second ->
  rerunnable (fun fs => first fs ≫= second).
Proof.
  intros H1 H2 fs fs2 H.
  destruct (first fs) as [fs1|] eqn:E1; [|done]. simpl in H.
  destruct (H1 fs fs1 E1) as (K1 & w1 & -> & G1).
  destruct (H2 _ fs2 H) as (K2 & w2 & -> & G2).
  split; [by eapply keeps_kinds_trans|].
  exists (w2 ∪ w1). split; [by rewrite (assoc_L (∪))|].
  intros g Hg.
  rewrite (G1 g) by (by eapply keeps_kinds_trans). simpl.
  rewrite G2; [by rewrite (assoc_L (∪))|].
  intros p n Hp.
  destruct (w1 !! p) as [m|] eqn:Ew.
  - exists m. split; [by apply lookup_union_Some_l|].
    destruct (K2 p m) as (n' & Hn' & K); [by apply lookup_union_Some_l|].
    rewrite Hp in Hn'. injection Hn' as <-. by rewrite same_kind_sym.
  - destruct (Hg p n Hp) as (n' & Hn' & K). exists n'.
    split; [by rewrite lookup_union_r | done].
Qed.

Lemma rerunnable_after {A : Type} (r : result A)
    (step : A -> filesystem -> result filesystem) :
  (forall x, rerunnable (step x)) ->
  rerunnable (fun fs => r ≫= fun x => step x fs).
Proof. intros H. destruct r as [x|e]; [apply H | by intros fs fs1]. Qed.

Lemma rerunnable_for_each {A : Type} (xs : list A)
    (body : filesystem -> A -> result filesystem) :
  (forall x, rerunnable (fun fs => body fs x)) ->
  rerunnable (fun fs => for_each xs fs body).
Proof.
  intros H. induction xs as [|x xs IH]; simpl.
  - apply rerunnable_ret.
  - exact (rerunnable_bind (fun fs => body fs x)
             (fun fs => for_each xs fs body) (H x) IH).
Qed.

(** The aliases [path] and [str] unfolded, so that one lookup has one
    spelling. *)
Ltac plain := unfold path, str in *.

Lemma cons_neq_tail {A : Type} (x : A) (l : list A) : l ≠ x :: l.
Proof.
  intros E. apply (f_equal length) in E. simpl in E. lia.
Qed.

Lemma rerunnable_write_text (p : path) (content : str) :
  rerunnable (write_text p content).
Proof.
  unfold rerunnable, keeps_kinds. plain.
  intros fs fs1 H. destruct p as [|c up]; [done|]. simpl in H.
  destruct (node_at fs up) as [[|?]|] eqn:Eup; try done.
  plain.
  assert (fs !! (c :: up) ≠ Some Dir /\ fs1 = <[c :: up := File content]> fs)
    as [Hp ->].
  { destruct (fs !! (c :: up)) as [[|?]|]; by simplify_eq. }
  split.
  { intros q n Hq. destruct (decide (q = c :: up)) as [->|Hne].
    - rewrite lookup_insert_eq. eexists. split; [done|].
      rewrite Hq in Hp. by destruct n.
    - rewrite lookup_insert_ne by done. exists n.
      split; [done | by destruct n]. }
  exists {[ c :: up := File content ]}.
  split; [apply insert_union_singleton_l|].
  intros g Hg. simpl. plain.
  rewrite (keeps_kinds_node_at_dir (<[c :: up := File content]> fs) g up Hg).
  - destruct (Hg (c :: up) (File content)) as (n' & -> & K);
      [apply lookup_insert_eq|].
    destruct n'; [done|]. by rewrite insert_union_singleton_l.
  - destruct up as [|c' up']; [done|]. simpl in *.
    rewrite lookup_insert_ne; [done|]. apply not_eq_sym, cons_neq_tail.
Qed.

(** What [mkdir] does when it succeeds: it only adds directories, and
    the path is a directory afterwards. *)
Lemma mkdir_adds_directories (parents : bool) (p : path)
    (fs fs1 : filesystem) :
  mkdir parents p fs = Ok fs1 ->
  fs ⊆ fs1
  /\ (forall q n, fs1 !! q = Some n -> fs !! q = None -> n = Dir)
  /\ node_at fs1 p = Some Dir.
Proof.
  plain. revert fs fs1. induction p as [|c up IH]; intros fs fs1; simpl; plain.
  - intros ?; simplify_eq. repeat split; [done | congruence].
  - destruct (fs !! (c :: up)) as [[|?]|] eqn:Ep; try done.
    + intros ?; simplify_eq. repeat split; [done | congruence | done].
    + assert (forall fs', fs ⊆ fs' ->
                (forall q n, fs' !! q = Some n -> fs !! q = None -> n = Dir) ->
                fs ⊆ <[c :: up := Dir]> fs'
                /\ (forall q n, <[c :: up := Dir]> fs' !! q = Some n ->
                      fs !! q = None -> n = Dir)
                /\ <[c :: up := Dir]> fs' !! (c :: up) = Some Dir) as Hins.
      { intros fs' Hsub Hnew. split; [|split].
        - etrans; [exact Hsub|].
          destruct (fs' !! (c :: up)) as [n|] eqn:E.
          + rewrite (Hnew _ _ E Ep) in E. by rewrite insert_id.
          + by apply insert_subseteq.
        - intros q n. destruct (decide (q = c :: up)) as [->|Hne].
          + rewrite lookup_insert_eq. congruence.
          + rewrite lookup_insert_ne by done. apply Hnew.
        - apply lookup_insert_eq. }
      destruct (node_at fs up) as [[|?]|] eqn:Eup; try done.
      * intros ?; simplify_eq. apply Hins; [done | congruence].
      * destruct parents; [|done].
        destruct (mkdir true up fs) as [fs'|] eqn:E; [|done]. simpl.
        intros ?; simplify_eq. destruct (IH _ _ E) as (Hsub & Hnew & _).
        by apply Hins.
Qed.

Lemma rerunnable_mkdir (parents : bool) (p : path) :
  rerunnable (mkdir parents p).
Proof.
  intros fs fs1 H.
  destruct (mkdir_adds_directories _ _ _ _ H) as (Hsub & Hnew & Hp).
  split.
  { intros q n Hq. exists n. split; [|by destruct n].
    by eapply lookup_weaken. }
  exists (filter (fun kv => fs !! kv.1 = None) fs1). split.
  { apply map_eq. intros q. rewrite lookup_union.
    destruct (fs !! q) as [n|] eqn:Eq.
    - rewrite (lookup_weaken _ _ _ _ Eq Hsub).
      rewrite map_lookup_filter_None_2; [done|].
      right. intros x _. simpl. congruence.
    - destruct (fs1 !! q) as [n|] eqn:E1.
      + by rewrite (map_lookup_filter_Some_2 _ _ _ _ E1 Eq).
      + rewrite map_lookup_filter_None_2; [done | by left]. }
  intros g Hg.
  assert (mkdir parents p g = Ok g) as ->.
  { destruct p as [|c up]; [done|]. simpl in *.
    destruct (Hg _ _ Hp) as (n' & -> & K). by rewrite (same_kind_dir _ K). }
  f_equal. apply map_eq. intros q. rewrite lookup_union.
  destruct (filter _ fs1 !! q) as [n|] eqn:E; [|by rewrite (left_id_L None _)].
  apply map_lookup_filter_Some in E as [E1 Eq]. simpl in Eq.
  pose proof (Hnew _ _ E1 Eq) as ->.
  destruct (Hg _ _ E1) as (n' & -> & K). by rewrite (same_kind_dir _ K).
Qed.

(** The writers are sequences of [mkdir] and [write_text]. *)
Ltac rerun :=
  repeat first
    [ apply rerunnable_mkdir
    | apply rerunnable_write_text
    | apply rerunnable_ret
    | apply rerunnable_for_each; intros ?
    | apply rerunnable_bind
    | apply rerunnable_after; intros ? ].

Lemma rerunnable_write_site `{U : Unicode}
    (json_dumps : list GenerateSites.Store -> str)
    (stores : list GenerateSites.Store) (output_dir : path) :
  rerunnable (GenerateSites.write_site json_dumps stores output_dir).
Proof. unfold GenerateSites.write_site. cbv zeta. rerun. Qed.

Lemma rerunnable_write_files `{U : Unicode} (stores : list Build.store) :
  rerunnable (Build.write_files stores).
Proof. unfold Build.write_files. cbv zeta. rerun. Qed.

(** C8. Running a generator again on the unchanged workbook, over the
    tree its first run left, succeeds and leaves that tree as it is, file
    for file (index page, every detail page, stylesheet, data dump), and
    prints the same line. *)
Theorem rerun_reproduces_output `{U : Unicode}
    (json_dumps : list GenerateSites.Store -> str)
    (zf : workbook) (fs fs1 : filesystem) (out : str) :
  (GenerateSites.main json_dumps zf fs = Ok (fs1, out) ->
   GenerateSites.main json_dumps zf fs1 = Ok (fs1, out))
  /\ (Build.main zf fs = Ok (fs1, out) ->
      Build.main zf fs1 = Ok (fs1, out)).
Proof.
  split.
  - unfold GenerateSites.main.
    destruct (GenerateSites.load_stores zf) as [stores|]; [|done]. run_binds.
    destruct (GenerateSites.write_site _ _ _ fs) as [fs'|] eqn:E; [|done].
    run_binds. intros H. injection H as <- <-.
    by rewrite (rerunnable_fixed _ _ _ (rerunnable_write_site _ _ _) E).
  - unfold Build.main.
    destruct (Build.load_strings zf) as [strings|]; [|done]. run_binds.
    destruct (Build.load_rows zf strings) as [rows|]; [|done]. run_binds.
    destruct (rmap Build.parse_store _) as [stores|]; [|done]. run_binds.
    destruct (Build.write_files _ fs) as [fs'|] eqn:E; [|done].
    run_binds. intros H. injection H as <- <-.
    by rewrite (rerunnable_fixed _ _ _ (rerunnable_write_files _) E).
Qed.


Lemma generate_first_run_ok :
  GenerateSites.main (U := plain_tables) (fun _ => u "[]") two_shops_book ∅
  = Ok (generate_first_tree, generate_first_line)
  /\ size generate_first_tree = 8%nat
  /\ generate_first_line = u "Generated 2 store pages in docs/stores/".
Proof.
  split; [vm_cast_no_check (eq_refl (Ok (generate_first_tree,
                                         generate_first_line)))|].
  split; by vm_compute.
Qed.

Lemma build_first_run_ok :
  Build.main (U := plain_tables) two_shops_book ∅
  = Ok (build_first_tree, build_first_line)
  /\ size build_first_tree = 9%nat
  /\ build_first_line = u "Generated 2 store pages in docs/stores".
Proof.
  split; [vm_cast_no_check (eq_refl (Ok (build_first_tree,
                                         build_first_line)))|].
  split; by vm_compute.
Qed.

Lemma rerun_reproduces_output_witness :
  GenerateSites.main (U := plain_tables) (fun _ => u "[]") two_shops_book
    generate_first_tree
  = Ok (generate_first_tree, generate_first_line)
  /\ Build.main (U := plain_tables) two_shops_book build_first_tree
     = Ok (build_first_tree, build_first_line).
Proof.
  split.
  - exact (proj1 (rerun_reproduces_output (U := plain_tables)
                    (fun _ => u "[]") two_shops_book ∅
                    generate_first_tree generate_first_line)
             (proj1 generate_first_run_ok)).
  - exact (proj2 (rerun_reproduces_output (U := plain_tables)
                    (fun _ => u "[]") two_shops_book ∅
                    build_first_tree build_first_line)
             (proj1 build_first_run_ok)).
Defined.

(** ** Where the rows of [generate_sites.py] are aligned *)

Lemma next_column_cons (current col : nat) (rest : list nat) :
  next_column current (col :: rest) = next_column (S col) rest.
Proof.
  unfold next_column. destruct rest as [|c rest]; [done|].
  rewrite last_cons_cons.
  destruct (last (c :: rest)) as [?|] eqn:E; [done|].
  by apply last_None in E.
Qed.

Lemma place_length (current : nat) (cvs : list (nat * str)) :
  increasing_from current cvs.*1 = true ->
  length (place current cvs) = (next_column current cvs.*1 - current)%nat
  /\ (current <= next_column current cvs.*1)%nat.
Proof.
  revert current. induction cvs as [|[col v] rest IH]; intros current; simpl.
  - unfold next_column. simpl. lia.
  - intros H. apply andb_true_iff in H as [H1 H2].
    apply Nat.leb_le in H1. destruct (IH _ H2) as [IH1 IH2].
    rewrite length_app, length_replicate. cbn [length]. plain. rewrite IH1.
    change (list_fmap (nat * list N)%type nat fst rest) with (rest.*1).
    rewrite (next_column_cons current col rest.*1). lia.
Qed.

Lemma place_value (current : nat) (cvs : list (nat * str)) (k col : nat)
    (v : str) :
  increasing_from current cvs.*1 = true ->
  cvs !! k = Some (col, v) ->
  (current <= col)%nat /\ place current cvs !! (col - current)%nat = Some v.
Proof.
  revert current k. induction cvs as [|[c w] rest IH]; intros current k; simpl.
  - done.
  - intros H Hk. apply andb_true_iff in H as [H1 H2].
    apply Nat.leb_le in H1. destruct k as [|k]; simpl in Hk.
    + injection Hk as -> ->. split; [done|].
      rewrite lookup_app_r by (rewrite length_replicate; lia).
      rewrite length_replicate. by rewrite Nat.sub_diag.
    + destruct (IH _ _ H2 Hk) as [Hc Hl]. split; [lia|].
      rewrite lookup_app_r by (rewrite length_replicate; lia).
      rewrite length_replicate.
      replace (col - current - (c - current))%nat
        with (S (col - S c))%nat by lia.
      done.
Qed.

Lemma place_filled (current : nat) (cvs : list (nat * str)) (j : nat)
    (s : str) :
  increasing_from current cvs.*1 = true ->
  place current cvs !! j = Some s -> s ≠ [] ->
  exists k col, cvs !! k = Some (col, s) /\ (col - current)%nat = j.
Proof.
  revert current j. induction cvs as [|[c w] rest IH]; intros current j; simpl.
  - done.
  - intros H Hj Hs. apply andb_true_iff in H as [H1 H2].
    apply Nat.leb_le in H1.
    destruct (decide (j < c - current)%nat) as [Hlt|Hge].
    + rewrite lookup_app_l in Hj by (by rewrite length_replicate).
      apply lookup_replicate_1 in Hj as [-> _]. done.
    + rewrite lookup_app_r in Hj by (rewrite length_replicate; lia).
      rewrite length_replicate in Hj.
      destruct (j - (c - current))%nat as [|i] eqn:E; simpl in Hj.
      * injection Hj as ->. exists 0%nat, c. split; [done | lia].
      * destruct (IH _ _ H2 Hj Hs) as (k & col & Hk & Hc).
        exists (S k), col. split; [done|].
        destruct (place_value _ _ _ _ _ H2 Hk) as [Hle _]. lia.
Qed.

Lemma leading_upper_upper (cell_ref : str) :
  Forall (fun c => is_upper c = true) (GenerateSites.leading_upper cell_ref).
Proof.
  induction cell_ref as [|c s IH]; simpl; [done|].
  destruct (is_upper c) eqn:E; [by constructor | done].
Qed.

Lemma column_index_ge_1 (cell_ref : str) :
  (1 <= GenerateSites.column_index cell_ref)%Z.
Proof.
  unfold GenerateSites.column_index.
  pose proof (leading_upper_upper cell_ref) as Hup.
  destruct (GenerateSites.leading_upper cell_ref) as [|c letters]; [done|].
  rewrite fold_left_base26.
  pose proof (bijective26_bounds _ Hup) as B.
  assert (26 <= 26 ^ Z.of_nat (length (c :: letters)))%Z.
  { simpl length. rewrite Nat2Z.inj_succ, Z.pow_succ_r by lia.
    assert (0 < 26 ^ Z.of_nat (length letters))%Z
      by (apply Z.pow_pos_nonneg; lia).
    lia. }
  lia.
Qed.

Lemma pad_to_replicate (n : nat) (row_vals : list str) (current_col : Z) :
  GenerateSites.pad_to n row_vals current_col
  = (row_vals ++ replicate n [], (current_col + Z.of_nat n)%Z).
Proof.
  revert row_vals current_col. induction n as [|n IH]; intros rv cc; simpl.
  - rewrite app_nil_r. f_equal. lia.
  - rewrite IH, <- app_assoc. simpl. f_equal. lia.
Qed.

(** One round of the loop on a cell that has a value node. *)
Lemma load_cell_valued `{U : Unicode} (shared : list str)
    (row_vals : list str) (current : nat) (cell : element) (v : str) :
  find v_tag cell ≠ None ->
  cell_text shared cell = Ok v ->
  (current <= Z.to_nat (cell_column cell))%nat ->
  GenerateSites.load_cell shared (row_vals, Z.of_nat current) cell
  = Ok (row_vals
          ++ replicate (Z.to_nat (cell_column cell) - current) [] ++ [v],
        Z.of_nat (S (Z.to_nat (cell_column cell)))).
Proof.
  unfold GenerateSites.load_cell, cell_text.
  destruct (find v_tag cell) as [value|]; [|done]. intros _ Hv Hle.
  rewrite Hv. run_binds. fold (cell_column cell).
  pose proof (column_index_ge_1 (get_attr_default cell (u "r") [])) as Hc.
  fold (cell_column cell) in Hc.
  rewrite pad_to_replicate.
  replace (Z.to_nat (cell_column cell - Z.of_nat current))
    with (Z.to_nat (cell_column cell) - current)%nat by lia.
  rewrite <- app_assoc. do 2 f_equal. lia.
Qed.

(** The loop over the cells of a row puts every value at its column. *)
Lemma load_cells_place `{U : Unicode} (shared : list str)
    (cells : list element) (vals : list str) (row_vals : list str)
    (current : nat) :
  Forall (fun c => find v_tag c ≠ None) cells ->
  rmap (cell_text shared) cells = Ok vals ->
  increasing_from current ((fun c => Z.to_nat (cell_column c)) <$> cells)
  = true ->
  for_each cells (row_vals, Z.of_nat current)
           (GenerateSites.load_cell shared)
  = Ok (row_vals
          ++ place current
               (zip ((fun c => Z.to_nat (cell_column c)) <$> cells) vals),
        Z.of_nat (next_column current
               ((fun c => Z.to_nat (cell_column c)) <$> cells))).
Proof.
  intros Hv. revert vals row_vals current.
  induction Hv as [|cell cells Hcell _ IH]; intros vals rv current.
  - intros [= <-] _. simpl. by rewrite app_nil_r.
  - cbn [rmap]. destruct (cell_text shared cell) as [v|] eqn:Ev; [|done].
    run_binds.
    destruct (rmap (cell_text shared) cells) as [vs|] eqn:Evs; [|done].
    run_binds. intros [= <-]. rewrite fmap_cons. cbn [increasing_from].
    intros H. apply andb_true_iff in H as [H1 H2]. apply Nat.leb_le in H1.
    cbn [for_each]. rewrite (load_cell_valued _ _ _ _ _ Hcell Ev H1).
    run_binds. rewrite (IH vs _ _ eq_refl H2).
    cbn [zip zip_with place]. rewrite next_column_cons.
    by rewrite <- !app_assoc.
Qed.

(** X1. Where the row decoder of [generate_sites.py] does align: on a row
    whose cells all have a value node and name strictly growing columns,
    it returns a list as long as the last column, with the text of every
    cell at its own column and the empty text everywhere else. *)
Theorem load_row_aligns `{U : Unicode} (shared : list str) (row : element)
    (vals : list str) :
  Forall (fun c => find v_tag c ≠ None) (findall c_tag row) ->
  rmap (cell_text shared) (findall c_tag row) = Ok vals ->
  increasing_from 1 ((fun c => Z.to_nat (cell_column c))
                       <$> findall c_tag row) = true ->
  exists out,
    GenerateSites.load_row shared row = Ok out
    /\ length out
       = default 0%nat ((fun c => Z.to_nat (cell_column c))
                          <$> last (findall c_tag row))
    /\ (forall k cell v,
          findall c_tag row !! k = Some cell -> vals !! k = Some v ->
          out !! (Z.to_nat (cell_column cell) - 1)%nat = Some v)
    /\ (forall j s,
          out !! j = Some s -> s ≠ [] ->
          exists k cell,
            findall c_tag row !! k = Some cell /\ vals !! k = Some s
            /\ (Z.to_nat (cell_column cell) - 1)%nat = j).
Proof.
  intros Hv Hvals Hinc.
  set (cells := findall c_tag row) in *.
  set (cols := (fun c => Z.to_nat (cell_column c)) <$> cells) in *.
  pose proof (rmap_length _ _ _ Hvals) as Hlen.
  assert ((zip cols vals).*1 = cols) as Hfst.
  { apply fst_zip. subst cols. rewrite length_fmap. lia. }
  exists (place 1 (zip cols vals)).
  assert (increasing_from 1 (zip cols vals).*1 = true) as Hinc'
    by (by rewrite Hfst).
  split; [|split; [|split]].
  - unfold GenerateSites.load_row. fold cells.
    change 1%Z with (Z.of_nat 1).
    by rewrite (load_cells_place shared cells vals [] 1 Hv Hvals Hinc).
  - destruct (place_length 1 (zip cols vals) Hinc') as [-> _].
    rewrite Hfst. unfold next_column. subst cols. rewrite fmap_last.
    destruct (last cells); simpl; lia.
  - intros k cell v Hk Hvk.
    apply (place_value 1 (zip cols vals) k); [done|].
    apply lookup_zip_Some. split; [|done].
    subst cols. by rewrite list_lookup_fmap, Hk.
  - intros j s Hj Hs.
    destruct (place_filled 1 _ _ _ Hinc' Hj Hs) as (k & col & Hk & Hc).
    apply lookup_zip_Some in Hk as [Hk1 Hk2].
    subst cols. rewrite list_lookup_fmap in Hk1.
    destruct (cells !! k) as [cell|] eqn:E; [|done].
    injection Hk1 as <-. by exists k, cell.
Qed.

Lemma load_row_aligns_witness :
  exists out,
    GenerateSites.load_row (U := plain_tables) []
      (elem "row" ∅ None [value_cell "A2" "a"; value_cell "C2" "c"])
    = Ok out
    /\ length out = 3%nat
    /\ out !! 0%nat = Some (u "a")
    /\ out !! 2%nat = Some (u "c").
Proof.
  destruct (load_row_aligns (U := plain_tables) []
              (elem "row" ∅ None [value_cell "A2" "a"; value_cell "C2" "c"])
              [u "a"; u "c"])
    as (out & Hout & Hlen & Hval & _).
  - repeat constructor; by vm_compute.
  - by vm_compute.
  - by vm_compute.
  - exists out. split; [exact Hout|]. split; [exact Hlen|]. split.
    + exact (Hval 0%nat (value_cell "A2" "a") (u "a") eq_refl eq_refl).
    + exact (Hval 1%nat (value_cell "C2" "c") (u "c") eq_refl eq_refl).
Defined.

(** ** Where the string table is resolved entry by entry *)

Lemma fold_left_snoc {A B : Type} (f : A -> B) (xs : list A) (acc : list B) :
  fold_left (fun acc x => acc ++ [f x]) xs acc = acc ++ (f <$> xs).
Proof.
  revert acc. induction xs as [|x xs IH]; intros acc; simpl.
  - by rewrite app_nil_r.
  - by rewrite IH, <- app_assoc.
Qed.

Lemma subtree_unfold (e : element) :
  subtree e = e :: flat_map subtree (children e).
Proof.
  by destruct e as [t a x cs].
Qed.

Lemma iter_below (t : str) (e : element) :
  has_tag t e = false -> iter t e = findall_descendants t e.
Proof.
  intros H. unfold iter, findall_descendants. rewrite subtree_unfold.
  rewrite filter_cons_False; [done|]. by rewrite H.
Qed.

(** X2. In [generate_sites.py], index [i] resolves to the joined text runs of
    the [i]-th entry of the table. *)
Theorem generate_shared_string_joins_runs (zf : workbook)
    (root si : element) (i : nat) :
  sharedStrings_xml zf = Some root ->
  findall si_tag root !! i = Some si ->
  exists strings,
    GenerateSites.load_shared_strings zf = Ok strings
    /\ length strings = length (findall si_tag root)
    /\ subscript strings (Z.of_nat i) = Ok (entry_text si).
Proof.
  intros Hroot Hsi. unfold GenerateSites.load_shared_strings.
  rewrite Hroot. simpl. eexists. split; [done|].
  rewrite (fold_left_snoc
             (fun si => join [] (fold_left
                (fun texts t => texts ++ [or_empty (text t)])
                (iter t_tag si) []))).
  simpl. split; [by rewrite length_fmap|].
  rewrite subscript_nat, list_lookup_fmap, Hsi. simpl.
  by rewrite (fold_left_snoc (fun t => or_empty (text t))), join_empty_concat.
Qed.

Lemma generate_shared_string_joins_runs_witness :
  exists strings,
    GenerateSites.load_shared_strings rich_text_book = Ok strings
    /\ subscript strings 1 = Ok (u "Test").
Proof.
  destruct (generate_shared_string_joins_runs rich_text_book
              (elem "sst" ∅ None
                 [plain_entry "Name"; rich_entry ["Te"%string; "st"%string];
                  plain_entry "Addr"])
              (rich_entry ["Te"%string; "st"%string]) 1 eq_refl eq_refl)
    as (strings & H1 & _ & H2).
  exists strings. split; [exact H1 | exact H2].
Defined.

(** X3. In [build_sites.py], index [i] resolves to the joined text runs of
    the [i]-th entry found anywhere below the root. *)
Theorem build_sites_shared_string_joins_runs (zf : workbook)
    (root si : element) (i : nat) :
  sharedStrings_xml zf = Some root ->
  findall_descendants si_tag root !! i = Some si ->
  exists strings,
    BuildSites.load_shared_strings zf = Ok strings
    /\ length strings = length (findall_descendants si_tag root)
    /\ subscript strings (Z.of_nat i) = Ok (entry_text si).
Proof.
  intros Hroot Hsi. unfold BuildSites.load_shared_strings.
  rewrite Hroot. simpl. eexists. split; [done|].
  rewrite (fold_left_snoc
             (fun si => join [] (map (fun t => or_empty (text t))
                                     (findall_descendants t_tag si)))).
  simpl. split; [by rewrite length_fmap|].
  rewrite subscript_nat, list_lookup_fmap, Hsi. simpl.
  rewrite join_empty_concat. unfold entry_text. rewrite iter_below; [done|].
  assert (has_tag si_tag si = true) as Htag.
  { apply list_elem_of_lookup_2 in Hsi.
    unfold findall_descendants in Hsi.
    by apply list_elem_of_filter in Hsi as [Hsi _]. }
  unfold has_tag, str_eqb in *. apply bool_decide_eq_true in Htag.
  rewrite Htag. by vm_compute.
Qed.

Lemma build_sites_shared_string_joins_runs_witness :
  exists strings,
    BuildSites.load_shared_strings rich_text_book = Ok strings
    /\ subscript strings 1 = Ok (u "Test").
Proof.
  destruct (build_sites_shared_string_joins_runs rich_text_book
              (elem "sst" ∅ None
                 [plain_entry "Name"; rich_entry ["Te"%string; "st"%string];
                  plain_entry "Addr"])
              (rich_entry ["Te"%string; "st"%string]) 1 eq_refl eq_refl)
    as (strings & H1 & _ & H2).
  exists strings. split; [exact H1 | exact H2].
Defined.

(** ** Stripping, in general *)

Lemma lstrip_by_head (p : N -> bool) (s : str) :
  from_option p false (head (lstrip_by p s)) = false.
Proof.
  induction s as [|c s IH]; simpl; [done|].
  destruct (p c) eqn:E; [done | by simpl].
Qed.

Lemma lstrip_by_split (p : N -> bool) (s : str) :
  exists pre, s = pre ++ lstrip_by p s /\ Forall (fun c => p c = true) pre.
Proof.
  induction s as [|c s (pre & E & F)]; simpl; [by exists []|].
  destruct (p c) eqn:Ec; [|by exists []].
  exists (c :: pre). split; [by rewrite E at 1 | by constructor].
Qed.

Lemma rstrip_by_last (p : N -> bool) (s : str) :
  from_option p false (last (rstrip_by p s)) = false.
Proof. unfold rstrip_by. rewrite last_reverse. apply lstrip_by_head. Qed.

Lemma rstrip_by_split (p : N -> bool) (s : str) :
  exists suf, s = rstrip_by p s ++ suf /\ Forall (fun c => p c = true) suf.
Proof.
  destruct (lstrip_by_split p (reverse s)) as (pre & E & F).
  exists (reverse pre). unfold rstrip_by. split.
  - rewrite <- reverse_app, <- E. by rewrite reverse_involutive.
  - by apply Forall_reverse.
Qed.

Lemma strip_by_split (p : N -> bool) (s : str) :
  exists pre suf,
    s = pre ++ strip_by p s ++ suf
    /\ Forall (fun c => p c = true) pre /\ Forall (fun c => p c = true) suf.
Proof.
  destruct (lstrip_by_split p s) as (pre & E & F).
  destruct (rstrip_by_split p (lstrip_by p s)) as (suf & E' & F').
  exists pre, suf. unfold strip_by. by rewrite <- E', <- E.
Qed.

Lemma strip_by_ends (p : N -> bool) (s : str) :
  from_option p false (head (strip_by p s)) = false
  /\ from_option p false (last (strip_by p s)) = false.
Proof.
  split; [|apply rstrip_by_last]. unfold strip_by.
  pose proof (lstrip_by_head p s) as H.
  destruct (rstrip_by_split p (lstrip_by p s)) as (suf & E & _).
  rewrite E in H. by destruct (rstrip_by p (lstrip_by p s)).
Qed.

Lemma strip_by_idemp (p : N -> bool) (s : str) :
  strip_by p (strip_by p s) = strip_by p s.
Proof.
  destruct (strip_by_ends p s) as [Hh Hl].
  unfold strip_by at 1. by rewrite (lstrip_by_id _ _ Hh), (rstrip_by_id _ _ Hl).
Qed.

Lemma strip_by_keeps (p : N -> bool) (s : str) (c : N) :
  c ∈ s -> p c = false -> c ∈ strip_by p s.
Proof.
  intros Hc Hp. destruct (strip_by_split p s) as (pre & suf & E & F1 & F2).
  rewrite E in Hc. rewrite !elem_of_app in Hc.
  destruct Hc as [Hc|[Hc|Hc]]; [|done|].
  - rewrite Forall_forall in F1. specialize (F1 _ Hc). congruence.
  - rewrite Forall_forall in F2. specialize (F2 _ Hc). congruence.
Qed.

Lemma strip_by_Forall (P : N -> Prop) (p : N -> bool) (s : str) :
  Forall P s -> Forall P (strip_by p s).
Proof.
  intros H. destruct (strip_by_split p s) as (pre & suf & E & _).
  rewrite E in H. apply Forall_app in H as [_ H]. by apply Forall_app in H as [H _].
Qed.

(** ** The slugs of [generate_sites.py] *)

Lemma isword_inert `{U : Unicode} (c : N) :
  isword c = true \/ c = separator -> inert_char c = true.
Proof.
  intros [H| ->]; [|done]. unfold isword in H.
  unfold inert_char, markup_char.
  destruct (c <? 128) eqn:E.
  - destruct (decide (c = 60)) as [->|?]; [done|].
    destruct (decide (c = 62)) as [->|?]; [done|].
    destruct (decide (c = 34)) as [->|?]; [done|].
    destruct (decide (c = 39)) as [->|?]; [done|].
    destruct (decide (c = 38)) as [->|?]; [done|].
    destruct (decide (c = 47)) as [->|?]; [done|].
    destruct (decide (c = 92)) as [->|?]; [done|].
    destruct (decide (c = 46)) as [->|?]; [done|].
    repeat (rewrite (proj2 (N.eqb_neq _ _)) by done). done.
  - apply N.ltb_ge in E.
    repeat (rewrite (proj2 (N.eqb_neq _ _)) by lia). done.
Qed.

(** X5. The [slugify] of [generate_sites.py] never returns an empty
    slug; the slug holds only characters that the pattern [\w] matches
    and single hyphens, none of them at either end, so it holds no markup
    character, no ampersand, no dot and no path separator. *)
Theorem generate_slugify_shape `{U : Unicode} (name : str) :
  GenerateSites.slugify name ≠ []
  /\ Forall (fun c => isword c = true \/ c = separator)
            (GenerateSites.slugify name)
  /\ single_separators (GenerateSites.slugify name) = true
  /\ head (GenerateSites.slugify name) ≠ Some separator
  /\ last (GenerateSites.slugify name) ≠ Some separator
  /\ Forall (fun c => inert_char c = true) (GenerateSites.slugify name).
Proof.
  assert (GenerateSites.slugify name ≠ []
          /\ Forall (fun c => isword c = true \/ c = separator)
                    (GenerateSites.slugify name)
          /\ single_separators (GenerateSites.slugify name) = true
          /\ head (GenerateSites.slugify name) ≠ Some separator
          /\ last (GenerateSites.slugify name) ≠ Some separator) as H.
  { unfold GenerateSites.slugify. rewrite strip_hyphen. unfold sub_runs.
    rewrite hyphen_literal.
    set (a := sub_runs_from false (fun c => negb (isword c)) [separator]
                (lower (strip name))).
    set (b := sub_runs_from false (fun c => c =? 45) [separator] a).
    assert (Forall (fun c => isword c = true \/ c = separator) a) as Ha.
    { apply sub_runs_from_chars; [by repeat constructor; right|].
      apply Forall_forall. intros c _ Hc. left. by apply negb_false_iff. }
    assert (Forall (fun c => isword c = true \/ c = separator) b) as Hb.
    { apply sub_runs_from_chars; [by repeat constructor; right|].
      eapply Forall_impl; [exact Ha|]. by intros c Hc _. }
    destruct (sub_runs_from_single false (fun c => c =? 45) a eq_refl)
      as [Hs _]. fold b in Hs.
    destruct (trim_leading_suffix b) as (pre & Epre).
    destruct (trim_trailing_prefix (trim_leading b)) as (suf & Esuf).
    set (c := trim_trailing (trim_leading b)) in *.
    assert (Forall (fun c => isword c = true \/ c = separator) c) as Hc.
    { rewrite Epre, Esuf in Hb. apply Forall_app in Hb as [_ Hb].
      by apply Forall_app in Hb as [Hb _]. }
    assert (single_separators c = true) as Hsc.
    { rewrite Epre in Hs. apply single_separators_app in Hs as [_ Hs].
      rewrite Esuf in Hs. by apply single_separators_app in Hs as [Hs _]. }
    assert (head c ≠ Some separator) as Hh.
    { pose proof (trim_leading_head b) as Hh. rewrite Esuf in Hh.
      by apply head_prefix in Hh. }
    pose proof (trim_trailing_last (trim_leading b)) as Hl. fold c in Hl.
    destruct c as [|x c'] eqn:Ec; [|done].
    vm_compute. repeat split; try done.
    repeat (constructor; [by left|]). constructor. }
  destruct H as (H1 & H2 & H3 & H4 & H5). repeat split; try done.
  eapply Forall_impl; [exact H2|]. intros c. apply isword_inert.
Qed.

(** ** The slugs of [build_sites.py] *)

Lemma sub_runs_from_keeps (b : bool) (cls : N -> bool) (repl s : str) (c : N) :
  c ∈ s -> cls c = false -> c ∈ sub_runs_from b cls repl s.
Proof.
  revert b. induction s as [|x s IH]; intros b Hc Hn; [by apply elem_of_nil in Hc|].
  simpl. apply elem_of_cons in Hc as [->|Hc].
  - rewrite Hn. by left.
  - destruct (cls x).
    + apply elem_of_app. right. by apply IH.
    + right. by apply IH.
Qed.

Lemma sub_runs_from_all (b : bool) (cls : N -> bool) (repl s : str) :
  Forall (fun c => cls c = true) s ->
  sub_runs_from b cls repl s
  = if b then [] else match s with [] => [] | _ => repl end.
Proof.
  revert b. induction s as [|x s IH]; intros b H; simpl; [by destruct b|].
  apply Forall_cons in H as [Hx H]. rewrite Hx, (IH true H).
  destruct b; [done | by rewrite app_nil_r].
Qed.

Lemma lower_from_ascii `{U : Unicode} (before s : str) :
  Forall (fun c => c < 128) s -> lower_from before s = ascii_lower s.
Proof.
  revert before. induction s as [|c s IH]; intros before H; [done|].
  apply Forall_cons in H as [Hc H]. simpl.
  rewrite (proj2 (N.ltb_lt _ _) Hc), (IH _ H). done.
Qed.

Lemma alnum_ascii (c : N) : BuildSites.alnum c = true -> c < 128.
Proof.
  unfold BuildSites.alnum, is_lower, is_upper, is_digit, in_range.
  rewrite !orb_true_iff, !andb_true_iff, !N.leb_le. lia.
Qed.

Lemma ascii_lower_slug_char (c : N) :
  BuildSites.alnum c = true \/ c = separator ->
  ascii_slug_char (if is_upper c then c + 32 else c) = true.
Proof.
  unfold BuildSites.alnum, ascii_slug_char, is_lower, is_upper, is_digit,
    in_range, separator.
  intros [H| ->]; [|done].
  rewrite !orb_true_iff, !andb_true_iff, !N.leb_le in H.
  destruct ((65 <=? c) && (c <=? 90)) eqn:E.
  - apply andb_true_iff in E as [E1 E2]. apply N.leb_le in E1, E2.
    rewrite !orb_true_iff, !andb_true_iff, !N.leb_le. lia.
  - apply andb_false_iff in E. rewrite !N.leb_gt in E.
    rewrite !orb_true_iff, !andb_true_iff, !N.leb_le. lia.
Qed.

Lemma build_sites_slugify_fallback `{U : Unicode} (name : str) (index : Z) :
  Forall (fun c => BuildSites.alnum c = false) name ->
  BuildSites.slugify name index = u "shop-" ++ BuildSites.format_02d index.
Proof.
  intros Hnone. unfold BuildSites.slugify, sub_runs.
  rewrite (sub_runs_from_all false).
  - by destruct name.
  - eapply Forall_impl; [exact Hnone|]. intros c Hc. simpl. by rewrite Hc.
Qed.

(** X6. The [slugify] of [build_sites.py] never returns an empty slug.
    A name without an ASCII letter or digit gets the token [shop-NN] made
    from the position given; any other name gets a slug of lower-case
    ASCII letters, digits and hyphens that does not depend on the
    position. *)
Theorem build_sites_slugify_shape `{U : Unicode} (name : str) (index : Z) :
  BuildSites.slugify name index ≠ []
  /\ (Forall (fun c => BuildSites.alnum c = false) name ->
      BuildSites.slugify name index = u "shop-" ++ BuildSites.format_02d index)
  /\ (Exists (fun c => BuildSites.alnum c = true) name ->
      Forall (fun c => ascii_slug_char c = true) (BuildSites.slugify name index)
      /\ forall other : Z,
           BuildSites.slugify name other = BuildSites.slugify name index).
Proof.
  unfold BuildSites.slugify, sub_runs, strip_chars.
  set (a := sub_runs_from false (fun c => negb (BuildSites.alnum c)) (u "-") name).
  set (p := fun c : N => bool_decide (c ∈ u "-")).
  assert (Forall (fun c => BuildSites.alnum c = true \/ c = separator) a) as Ha.
  { apply sub_runs_from_chars; [by repeat constructor; right|].
    apply Forall_forall. intros c _ Hc. left. by apply negb_false_iff. }
  pose proof (strip_by_Forall _ p _ Ha) as Hx.
  assert (lower (strip_by p a) = ascii_lower (strip_by p a)) as Elow.
  { apply lower_from_ascii. eapply Forall_impl; [exact Hx|].
    intros c [Hc| ->]; [by apply alnum_ascii | done]. }
  rewrite Elow. split; [|split].
  - by destruct (ascii_lower (strip_by p a)).
  - intros Hnone.
    pose proof (build_sites_slugify_fallback name index Hnone) as E.
    unfold BuildSites.slugify, sub_runs, strip_chars in E. fold a p in E.
    by rewrite Elow in E.
  - intros Hsome. apply Exists_exists in Hsome as (c & Hin & Hc).
    assert (c ∈ strip_by p a) as Hcx.
    { apply strip_by_keeps.
      - apply sub_runs_from_keeps; [done | by rewrite Hc].
      - unfold p. apply bool_decide_eq_false. intros Hm.
        apply list_elem_of_singleton in Hm. by subst c. }
    destruct (strip_by p a) as [|x rest] eqn:Ex; [by apply elem_of_nil in Hcx|].
    split; [|done].
    change (Forall (fun c => ascii_slug_char c = true)
              (map (fun c => if is_upper c then c + 32 else c) (x :: rest))).
    rewrite List.Forall_map. eapply Forall_impl; [exact Hx|].
    intros d. apply ascii_lower_slug_char.
Qed.

(** *** Tokens made from the position *)

Lemma str_of_N_digits (n : N) : str_of_N n = digits_of_uint (N.to_uint n).
Proof. by destruct n. Qed.

Lemma uint_of_digits_of_uint (d : Decimal.uint) :
  uint_of_digits (digits_of_uint d) = d.
Proof. induction d; simpl; by rewrite ?IHd. Qed.

Lemma digits_of_uint_digits (d : Decimal.uint) :
  Forall (fun c => is_digit c = true) (digits_of_uint d).
Proof. induction d; simpl; by constructor. Qed.

Lemma str_of_N_inj (n m : N) : str_of_N n = str_of_N m -> n = m.
Proof.
  rewrite !str_of_N_digits. intros H.
  apply (f_equal uint_of_digits) in H. rewrite !uint_of_digits_of_uint in H.
  by apply DecimalN.Unsigned.to_uint_inj.
Qed.

Lemma str_of_N_value (n : N) (s : str) :
  str_of_N n = s -> n = N.of_uint (uint_of_digits s).
Proof.
  intros <-. rewrite str_of_N_digits, uint_of_digits_of_uint.
  by rewrite DecimalN.Unsigned.of_to.
Qed.

Lemma str_of_N_head (n : N) :
  exists d rest, str_of_N n = d :: rest /\ is_digit d = true.
Proof.
  pose proof (digits_of_uint_digits (N.to_uint n)) as H.
  rewrite str_of_N_digits.
  destruct (digits_of_uint (N.to_uint n)) as [|d rest] eqn:E.
  - apply (f_equal uint_of_digits) in E. rewrite uint_of_digits_of_uint in E.
    simpl in E. destruct n as [|q]; [done|].
    by apply DecimalPos.Unsigned.to_uint_nonnil in E.
  - apply Forall_cons in H as [H _]. by exists d, rest.
Qed.

Lemma str_of_int_inj (i j : Z) : str_of_int i = str_of_int j -> i = j.
Proof.
  unfold str_of_int.
  destruct (str_of_N_head (Z.abs_N i)) as (di & ri & Ei & Hi).
  destruct (str_of_N_head (Z.abs_N j)) as (dj & rj & Ej & Hj).
  destruct (i <? 0)%Z eqn:Si, (j <? 0)%Z eqn:Sj.
  - intros [= H]. apply str_of_N_inj in H. lia.
  - rewrite Ej. intros [= <- _]. done.
  - rewrite Ei. intros [= -> _]. done.
  - intros H. apply str_of_N_inj in H. lia.
Qed.

Lemma format_02d_inj (i j : Z) :
  BuildSites.format_02d i = BuildSites.format_02d j -> i = j.
Proof.
  assert (forall a b : Z,
            (0 <= a < 10)%Z -> (10 <= b)%Z ->
            48 :: str_of_int a ≠ str_of_int b) as Hpad.
  { intros a b Ha Hb H. unfold str_of_int in H.
    rewrite (proj2 (Z.ltb_ge b 0)) in H by lia.
    symmetry in H. apply str_of_N_value in H.
    assert (a = 0 \/ a = 1 \/ a = 2 \/ a = 3 \/ a = 4 \/ a = 5 \/ a = 6
            \/ a = 7 \/ a = 8 \/ a = 9)%Z as Hcases by lia.
    destruct Hcases as [->|[->|[->|[->|[->|[->|[->|[->|[->| ->]]]]]]]]];
      (set (v := N.of_uint _) in H; vm_compute in v; subst v; lia). }
  assert (forall a b : Z,
            (a < 0)%Z -> (0 <= b)%Z ->
            str_of_int a ≠ BuildSites.format_02d b) as Hneg.
  { intros a b Ha Hb. unfold BuildSites.format_02d, str_of_int.
    rewrite (proj2 (Z.ltb_lt a 0)) by lia.
    rewrite (proj2 (Z.ltb_ge b 0)) by lia.
    destruct (str_of_N_head (Z.abs_N b)) as (d & r & E & Hd). rewrite E.
    destruct (b <? 10)%Z; intros H; simplify_eq; done. }
  unfold BuildSites.format_02d at 1 2.
  destruct (i <? 0)%Z eqn:Si, (j <? 0)%Z eqn:Sj.
  - apply str_of_int_inj.
  - apply Z.ltb_lt in Si. apply Z.ltb_ge in Sj. intros H.
    exfalso. apply (Hneg i j Si Sj). rewrite H.
    unfold BuildSites.format_02d. by rewrite (proj2 (Z.ltb_ge j 0)) by lia.
  - apply Z.ltb_ge in Si. apply Z.ltb_lt in Sj. intros H.
    exfalso. apply (Hneg j i Sj Si). rewrite <- H.
    unfold BuildSites.format_02d. by rewrite (proj2 (Z.ltb_ge i 0)) by lia.
  - apply Z.ltb_ge in Si, Sj.
    destruct (i <? 10)%Z eqn:Ti, (j <? 10)%Z eqn:Tj.
    + intros [= H]. by apply str_of_int_inj.
    + apply Z.ltb_lt in Ti. apply Z.ltb_ge in Tj. intros H.
      exfalso. by apply (Hpad i j).
    + apply Z.ltb_ge in Ti. apply Z.ltb_lt in Tj. intros H.
      exfalso. by apply (Hpad j i).
    + apply str_of_int_inj.
Qed.

(** X7. Two shops of [build_sites.py] whose names hold no ASCII letter
    or digit get different slugs whenever their positions differ, so the
    page of one never replaces the page of the other. *)
Theorem build_sites_fallback_slugs_distinct `{U : Unicode}
    (name1 name2 : str) (i j : Z) :
  Forall (fun c => BuildSites.alnum c = false) name1 ->
  Forall (fun c => BuildSites.alnum c = false) name2 ->
  i ≠ j ->
  BuildSites.slugify name1 i ≠ BuildSites.slugify name2 j.
Proof.
  intros H1 H2 Hij.
  rewrite (build_sites_slugify_fallback name1 i H1).
  rewrite (build_sites_slugify_fallback name2 j H2).
  intros H. apply app_inv_head in H. by apply format_02d_inj in H.
Qed.

Lemma build_sites_fallback_slugs_distinct_witness :
  BuildSites.slugify (U := plain_tables) (u "水電行") 1
  ≠ BuildSites.slugify (U := plain_tables) (u "五金行") 2.
Proof.
  apply (build_sites_fallback_slugs_distinct (U := plain_tables)
           (u "水電行") (u "五金行") 1 2).
  - vm_compute. by repeat constructor.
  - vm_compute. by repeat constructor.
  - lia.
Defined.

(** ** Review counts across the scripts *)

Lemma int_of_float_finite_nonneg (m : positive) (e : Z) :
  (0 <= (if 0 <=? e then Zpos m * 2 ^ e else Zpos m / 2 ^ (- e)))%Z.
Proof.
  destruct (0 <=? e)%Z eqn:E.
  - apply Z.leb_le in E. apply Z.mul_nonneg_nonneg; [lia|].
    by apply Z.pow_nonneg.
  - apply Z.leb_gt in E. apply Z.div_pos; [lia|].
    apply Z.pow_pos_nonneg; lia.
Qed.

Lemma int_of_float_abs (x : float) :
  int_of_float (float_abs x) = Z.abs <$> int_of_float x.
Proof.
  destruct x as [s|s| |s m e]; try done. simpl.
  pose proof (int_of_float_finite_nonneg m e) as H.
  f_equal. destruct s; lia.
Qed.

Lemma safe_int_nonneg `{U : Unicode} (s : str) (n : Z) :
  GenerateSites.safe_int s = Ok (Some n) -> (0 <= n)%Z.
Proof.
  unfold GenerateSites.safe_int.
  destruct (float_of_str s) as [x|e]; [|by destruct e].
  run_binds. destruct (int_of_float x) as [k|e]; [|by destruct e].
  run_binds. cbn [except_type_value]. intros [= <-]. lia.
Qed.

(** X8. The review count is read the same way by [generate_sites.py]
    ([safe_int]) and [build_sites.py] ([to_int]): never negative, [None]
    for text that is no number, [OverflowError] for an infinity.  They
    differ on a NaN only, which [safe_int] turns into [None] and over which
    [to_int] raises [ValueError]. *)
Theorem review_count_coercions_agree `{U : Unicode} (s : str) :
  (forall n, GenerateSites.safe_int s = Ok (Some n) -> (0 <= n)%Z)
  /\ (forall n, BuildSites.to_int (Some s) = Ok (Some n) -> (0 <= n)%Z)
  /\ (float_of_str s ≠ Ok S754_nan ->
      BuildSites.to_int (Some s) = GenerateSites.safe_int s)
  /\ (float_of_str s = Ok S754_nan ->
      GenerateSites.safe_int s = Ok None
      /\ BuildSites.to_int (Some s) = Raise ValueError).
Proof.
  unfold GenerateSites.safe_int, BuildSites.to_int, BuildSites.to_float.
  cbn [float_of].
  destruct (float_of_str s) as [x|e] eqn:E.
  - cbn [except_type_value]. run_binds. rewrite int_of_float_abs.
    destruct x as [sg|sg| |sg m e]; cbn [int_of_float]; run_binds;
      cbn [except_type_value]; repeat split; try done;
      try (intros n [= <-]; lia).
    all: intros n [= <-]; pose proof (int_of_float_finite_nonneg m e); lia.
  - rewrite (float_of_str_raises _ _ E). cbn [except_type_value]. run_binds.
    cbn [except_type_value]. repeat split; done.
Qed.

(** ** The records *)

Lemma strip_idemp `{U : Unicode} (s : str) : strip (strip s) = strip s.
Proof. apply strip_by_idemp. Qed.

Lemma or_default_stripped `{U : Unicode} (s default : str) :
  strip default = default ->
  strip (GenerateSites.or_default (strip s) default)
  = GenerateSites.or_default (strip s) default.
Proof.
  intros Hd. unfold GenerateSites.or_default.
  destruct (strip s) eqn:E; [done|]. rewrite <- E. apply strip_idemp.
Qed.

(** X9. A record that [row_to_store] of [generate_sites.py] returns has
    a name that is not empty, the slug of that name, a hero image and an
    avatar that are not empty (the defaults stand in for empty cells), a
    review count that is not negative, and text fields without white
    space at either end. *)
Theorem row_to_store_invariants `{U : Unicode} (row : list str)
    (s : GenerateSites.Store) :
  GenerateSites.row_to_store row = Ok (Some s) ->
  GenerateSites.name s ≠ []
  /\ GenerateSites.slug s = GenerateSites.slugify (GenerateSites.name s)
  /\ GenerateSites.hero_image s ≠ []
  /\ GenerateSites.avatar_image s ≠ []
  /\ (forall n, GenerateSites.review_count s = Some n -> (0 <= n)%Z)
  /\ Forall (fun field => strip (field s) = field s)
       [GenerateSites.map_url; GenerateSites.name; GenerateSites.category;
        GenerateSites.address; GenerateSites.status;
        GenerateSites.closing_time; GenerateSites.phone;
        GenerateSites.hero_image; GenerateSites.avatar_image;
        GenerateSites.review_snippet].
Proof.
  unfold GenerateSites.row_to_store.
  destruct (Z.ltb_spec (Z.of_nat (length row)) 2) as [Hs|Hs]; [done|].
  rewrite !generate_get by lia. run_binds.
  destruct (strip (default [] (row !! Z.to_nat 5))) as [|c name] eqn:E;
    [done|].
  destruct (GenerateSites.safe_float _) as [r|]; [|done]. run_binds.
  destruct (GenerateSites.safe_int _) as [n|] eqn:En; [|done]. run_binds.
  intros [= <-].
  cbn [GenerateSites.map_url GenerateSites.name GenerateSites.category
       GenerateSites.address GenerateSites.status GenerateSites.closing_time
       GenerateSites.phone GenerateSites.hero_image GenerateSites.avatar_image
       GenerateSites.review_snippet GenerateSites.slug
       GenerateSites.review_count].
  assert (forall d x : str, d ≠ [] -> GenerateSites.or_default x d ≠ [])
    as Hdef by (by intros d [|? ?]).
  split; [done|]. split; [done|].
  split; [by apply Hdef|]. split; [by apply Hdef|].
  split.
  { intros k [= ->].
    by apply (safe_int_nonneg _ _ En). }
  rewrite <- E.
  repeat (apply Forall_cons; split;
          [cbv beta;
           cbn [GenerateSites.map_url GenerateSites.name
                GenerateSites.category GenerateSites.address
                GenerateSites.status GenerateSites.closing_time
                GenerateSites.phone GenerateSites.hero_image
                GenerateSites.avatar_image GenerateSites.review_snippet];
           first [ apply strip_idemp
                 | apply or_default_stripped; by vm_compute ]|]).
  constructor.
Qed.

Lemma row_to_store_invariants_witness :
  exists s,
    GenerateSites.row_to_store (U := plain_tables)
      [u ""; u ""; u ""; u ""; u " http://maps.example/1 "; u " Shop ";
       u "4.5"; u "-12"]
    = Ok (Some s)
    /\ GenerateSites.name s ≠ []
    /\ GenerateSites.slug s
       = GenerateSites.slugify (U := plain_tables) (GenerateSites.name s).
Proof.
  destruct (GenerateSites.row_to_store (U := plain_tables)
              [u ""; u ""; u ""; u ""; u " http://maps.example/1 "; u " Shop ";
               u "4.5"; u "-12"]) as [[s|]|e] eqn:E;
    [|by vm_compute in E..].
  exists s. split; [done|].
  destruct (row_to_store_invariants (U := plain_tables) _ s E)
    as (H1 & H2 & _).
  by split.
Defined.





(** ** The shops of [build_sites.py] *)

Lemma to_float_total `{U : Unicode} (value : option str) :
  exists r, BuildSites.to_float value = Ok r.
Proof.
  destruct value as [s|]; [|by exists None].
  destruct (rating_coercion_total s) as (r & _ & H & _). by exists r.
Qed.

Lemma for_each_app {S A : Type} (xs ys : list A) (s : S)
    (body : S -> A -> result S) :
  for_each (xs ++ ys) s body = for_each xs s body ≫= fun s' => for_each ys s' body.
Proof.
  revert s. induction xs as [|x xs IH]; intros s; [done|]. simpl.
  destruct (body s x) as [s'|]; [|done]. simpl. apply IH.
Qed.

Lemma subscript_head {A : Type} (x : A) (l : list A) :
  subscript (x :: l) 0 = Ok x.
Proof. done. Qed.

Lemma subscript_ge {A : Type} (l : list A) (i : Z) :
  (Z.of_nat (length l) <= i)%Z -> subscript l i = Raise IndexError.
Proof.
  intros H. unfold subscript.
  rewrite (proj2 (Z.ltb_ge i 0)) by lia.
  rewrite (proj2 (Z.ltb_ge i 0)) by lia.
  by rewrite lookup_ge_None_2 by lia.
Qed.

Lemma parse_row_short `{U : Unicode} `{D : Digits}
    (shops : list BuildSites.shop) (url : str) (rest : list (option str)) :
  startswith url (u "http") = true ->
  (length rest < 3)%nat ->
  BuildSites.parse_row shops (Some url :: rest) = Raise IndexError.
Proof.
  intros Hu Hlen. unfold BuildSites.parse_row.
  rewrite subscript_head. run_binds. rewrite Hu. cbn [negb].
  assert (exists n,
            (if (1 <? Z.of_nat (length (Some url :: rest)))%Z
             then subscript (Some url :: rest) 1
             else Ok (Some (u "未命名水電行"))) = Ok n) as [n ->].
  { destruct (1 <? _)%Z eqn:E; [|by eexists]. apply Z.ltb_lt in E.
    destruct rest as [|x rest']; [cbn [length] in E; lia|]. by exists x. }
  run_binds.
  destruct (decide (length rest < 2)%nat) as [H2|H2].
  - by rewrite (subscript_ge _ 2) by (cbn [length]; lia).
  - rewrite (subscript_ge _ 3) by (cbn [length]; lia).
    destruct rest as [|x [|rating rest']]; [cbn [length] in H2; lia..|].
    change (subscript (Some url :: x :: rating :: rest') 2)
      with (@Ok (option str) rating).
    run_binds. by destruct (to_float_total rating) as (r & ->).
Qed.

(** X11. In [build_sites.py] a row whose first cell begins with "http"
    needs four cells: with fewer, [parse_shops] stops with [IndexError]
    at that row, whatever the rows after it hold.  The guard on the length
    that would give the placeholder name to a row of one cell does not
    prevent it. *)
Theorem parse_shops_needs_four_cells `{U : Unicode} `{D : Digits}
    (zf : workbook) (before after : list (list (option str)))
    (shops : list BuildSites.shop) (url : str) (rest : list (option str)) :
  BuildSites.load_rows zf = Ok (before ++ (Some url :: rest) :: after) ->
  for_each before [] BuildSites.parse_row = Ok shops ->
  startswith url (u "http") = true ->
  (length rest < 3)%nat ->
  BuildSites.parse_shops zf = Raise IndexError.
Proof.
  intros Hrows Hb Hu Hlen. unfold BuildSites.parse_shops.
  rewrite Hrows. run_binds. rewrite for_each_app, Hb. run_binds.
  cbn [for_each].
  by rewrite (parse_row_short shops url rest Hu Hlen).
Qed.

Lemma parse_shops_needs_four_cells_witness :
  BuildSites.parse_shops (U := plain_tables) (D := plain_digits) short_row_book
  = Raise IndexError.
Proof.
  apply (parse_shops_needs_four_cells (U := plain_tables) (D := plain_digits)
           short_row_book [[Some (u "name")]] [] []
           (u "http://maps.example/1") [Some (u "Shop")]).
  - by vm_compute.
  - by vm_compute.
  - by vm_compute.
  - simpl. lia.
Defined.

Lemma subscript_lookup {A : Type} (l : list A) (n : nat) (x : A) :
  subscript l (Z.of_nat n) = Ok x -> l !! n = Some x.
Proof. rewrite subscript_nat. destruct (l !! n); by intros [= ->]. Qed.

Lemma parse_row_result `{U : Unicode} `{D : Digits}
    (shops out : list BuildSites.shop) (row : list (option str)) :
  BuildSites.parse_row shops row = Ok out ->
  (http_row row = false /\ out = shops)
  \/ (http_row row = true
      /\ exists shop, out = shops ++ [shop] /\ shop_of_row row shop).
Proof.
  unfold BuildSites.parse_row.
  destruct row as [|first rest]; [intros [= <-]; by left|].
  rewrite subscript_head. run_binds.
  destruct first as [url|]; [|done]. cbn [http_row].
  destruct (startswith url (u "http")); cbn [negb];
    [|intros [= <-]; by left].
  destruct (if (1 <? _)%Z then _ else _) as [name|] eqn:En; [|done].
  run_binds.
  destruct (subscript _ 2) as [c2|] eqn:E2; [|done]. run_binds.
  destruct (BuildSites.to_float c2) as [r|] eqn:Er; [|done]. run_binds.
  destruct (subscript _ 3) as [c3|] eqn:E3; [|done]. run_binds.
  destruct (BuildSites.to_int c3) as [n|] eqn:Ec; [|done]. run_binds.
  intros [= <-]. right. split; [done|]. eexists. split; [done|].
  apply (subscript_lookup _ 2) in E2. apply (subscript_lookup _ 3) in E3.
  pose proof (lookup_lt_Some _ _ _ E3) as Hlen.
  rewrite (proj2 (Z.ltb_lt 1 _)) in En by lia.
  apply (subscript_lookup _ 1) in En.
  unfold shop_of_row.
  cbn [BuildSites.map_url BuildSites.name BuildSites.rating
       BuildSites.review_count BuildSites.detected].
  repeat split; try done; try lia; by eexists.
Qed.

(** X12. When [parse_shops] of [build_sites.py] succeeds, its shops are
    the rows whose first cell begins with "http", one shop per row and in
    the order of the rows.  Each such row has at least four cells; the
    shop has the first cell as its link, the second as its name (the
    placeholder name is never given), the third and the fourth read as
    its rating and review count, and the fields detected among the
    rest. *)
Theorem parse_shops_rows `{U : Unicode} `{D : Digits}
    (zf : workbook) (rows : list (list (option str)))
    (shops : list BuildSites.shop) :
  BuildSites.load_rows zf = Ok rows ->
  BuildSites.parse_shops zf = Ok shops ->
  Forall2 shop_of_row (filter (fun row => http_row row = true) rows) shops
  /\ length shops = length (filter (fun row => http_row row = true) rows)
  /\ Forall (fun shop => startswith (BuildSites.map_url shop) (u "http") = true)
            shops.
Proof.
  intros Hrows H. unfold BuildSites.parse_shops in H. rewrite Hrows in H.
  cbn [mbind result_bind] in H.
  assert (forall acc out,
            for_each rows acc BuildSites.parse_row = Ok out ->
            exists new,
              out = acc ++ new
              /\ Forall2 shop_of_row
                   (filter (fun row => http_row row = true) rows) new) as Hgen.
  { clear. induction rows as [|row rows IH]; intros acc out.
    - intros [= <-]. exists []. by rewrite app_nil_r.
    - cbn [for_each].
      destruct (BuildSites.parse_row acc row) as [acc'|] eqn:E; [|done].
      run_binds. intros Hrest. destruct (IH _ _ Hrest) as (new & -> & HF).
      apply parse_row_result in E as [[Hh ->]|(Hh & shop & -> & Hshop)].
      + exists new. split; [done|].
        rewrite filter_cons_False; [done | by rewrite Hh].
      + exists (shop :: new). split; [by rewrite <- app_assoc|].
        rewrite filter_cons_True by done. by constructor. }
  destruct (Hgen _ _ H) as (new & -> & HF). cbn [app].
  split; [done|]. split; [symmetry; by eapply Forall2_length|].
  assert (Forall (fun row => http_row row = true)
            (filter (fun row => http_row row = true) rows)) as Hhttp.
  { apply Forall_forall. intros row Hrow.
    by apply list_elem_of_filter in Hrow as [Hrow _]. }
  clear H Hgen. induction HF as [|row shop rows' new Hshop HF IH]; [done|].
  apply Forall_cons in Hhttp as [Hrow Hhttp].
  constructor; [|by apply IH].
  destruct Hshop as (_ & H0 & _).
  destruct row as [|[url|] rest]; try done.
  cbn in H0. injection H0 as ->. exact Hrow.
Qed.

Lemma parse_shops_rows_witness :
  exists shops,
    BuildSites.parse_shops (U := plain_tables) (D := plain_digits)
      one_shop_book = Ok shops
    /\ length shops = 1%nat.
Proof.
  destruct (BuildSites.parse_shops (U := plain_tables) (D := plain_digits)
              one_shop_book) as [shops|e] eqn:E; [|by vm_compute in E].
  exists shops. split; [done|].
  destruct (parse_shops_rows (U := plain_tables) (D := plain_digits)
              one_shop_book
              [[Some (u "name")];
               [Some (u "http://maps.example/1"); Some (u "Shop");
                Some (u "4.5"); Some (u "12"); Some (u "02-2881-1234")]]
              shops) as (_ & -> & _); [by vm_compute | done | by vm_compute].
Defined.

(** ** Tokens and detected fields ([build_sites.py]) *)

(** X13. [clean_token] of [build_sites.py] gives a token that is not
    empty, is none of the icon glyphs and has no white space at either
    end; cleaning a cleaned token changes nothing. *)
Theorem clean_token_idempotent `{U : Unicode} (token : option str) :
  BuildSites.clean_token (BuildSites.clean_token token)
  = BuildSites.clean_token token
  /\ (forall t, BuildSites.clean_token token = Some t ->
        t ≠ [] /\ (t ∉ BuildSites.ICON_TOKENS) /\ strip t = t
        /\ exists raw, token = Some raw /\ t = strip raw).
Proof.
  assert (forall t, BuildSites.clean_token token = Some t ->
            t ≠ [] /\ (t ∉ BuildSites.ICON_TOKENS) /\ strip t = t
            /\ exists raw, token = Some raw /\ t = strip raw) as H.
  { intros t. unfold BuildSites.clean_token.
    destruct token as [raw|]; [|done].
    destruct (negb _ || _) eqn:E; [done|]. intros [= <-].
    apply orb_false_iff in E as [E1 E2].
    apply negb_false_iff in E1. apply bool_decide_eq_false in E2.
    repeat split; [by destruct (strip raw) | done | apply strip_idemp|].
    by exists raw. }
  split; [|done].
  destruct (BuildSites.clean_token token) as [t|] eqn:E; [|done].
  destruct (H t eq_refl) as (Hne & Hicon & Hs & _).
  unfold BuildSites.clean_token. rewrite Hs.
  rewrite (bool_decide_eq_false_2 _ Hicon).
  by destruct t.
Qed.

Lemma fold_left_keep {A : Type} (drop_it : A -> bool) (l acc : list A) :
  fold_left (fun acc x => if drop_it x then acc else acc ++ [x]) l acc
  = acc ++ filter (fun x => drop_it x = false) l.
Proof.
  revert acc. induction l as [|x l IH]; intros acc; simpl.
  - by rewrite app_nil_r.
  - rewrite IH. destruct (drop_it x) eqn:E.
    + rewrite filter_cons_False; [done | by rewrite E].
    + rewrite filter_cons_True by done. by rewrite <- app_assoc.
Qed.

Lemma filter_ext_in {A : Type} (P Q : A -> Prop)
    `{!forall x, Decision (P x)} `{!forall x, Decision (Q x)} (l : list A) :
  (forall x, x ∈ l -> P x <-> Q x) -> filter P l = filter Q l.
Proof.
  induction l as [|x l IH]; intros Hext; [done|].
  assert (filter P l = filter Q l) as E.
  { apply IH. intros y Hy. apply Hext. by right. }
  destruct (decide (P x)) as [Hp|Hp].
  - rewrite !filter_cons_True; [by rewrite E | | done].
    apply Hext; [by left | done].
  - rewrite !filter_cons_False; [done | | done]. intros Hq. apply Hp.
    apply Hext; [by left | done].
Qed.

Lemma truthy_parts_elem (parts : list (option str)) (t : str) :
  t ∈ Build.truthy_parts parts <-> t ≠ [] /\ Some t ∈ parts.
Proof.
  unfold Build.truthy_parts. rewrite list_elem_of_In, in_flat_map. split.
  - intros (part & Hin & Ht). apply list_elem_of_In in Hin.
    destruct part as [[|c s]|]; simpl in Ht; try done.
    destruct Ht as [<-|[]]. by split.
  - intros [Hne Hin]. exists (Some t). split; [by apply list_elem_of_In|].
    destruct t; [done | by left].
Qed.

Lemma first_where_Some (p : str -> bool) (tokens : list str) (t : str) :
  BuildSites.first_where p tokens = Some t -> t ∈ tokens /\ p t = true.
Proof.
  unfold BuildSites.first_where. intros H.
  apply head_Some_elem_of in H. by apply list_elem_of_filter in H as [? ?].
Qed.

Lemma join_nonempty (sep : str) (parts : list str) :
  parts ≠ [] -> Forall (fun p => p ≠ []) parts -> join sep parts ≠ [].
Proof.
  destruct parts as [|p [|p' rest]]; [done| |]; intros _ H;
    apply Forall_cons in H as [H _]; simpl; by destruct p.
Qed.

(** X14. [detect_fields] of [build_sites.py] accounts for every cleaned
    token: the list [extra] holds, in their order, exactly the cleaned
    tokens that are neither a status text nor the token taken as address,
    phone, category, image or review; every field it fills is one of the
    cleaned tokens and meets the field's condition, the review with its
    quotes stripped; and there is a status exactly when some token is a
    status text. *)
Theorem detect_fields_accounts_for_tokens `{U : Unicode} `{D : Digits}
    (tokens : list (option str)) :
  let cleaned := Build.truthy_parts (BuildSites.clean_token <$> tokens) in
  let f := BuildSites.detect_fields tokens in
  BuildSites.extra f
  = filter (fun t =>
              BuildSites.is_status t = false
              /\ (Some t ∉ [BuildSites.address f; BuildSites.phone f;
                            BuildSites.category f; BuildSites.image f;
                            BuildSites.first_where BuildSites.is_quoted
                              cleaned]))
           cleaned
  /\ (forall t, BuildSites.address f = Some t ->
        t ∈ cleaned /\ BuildSites.is_address t = true)
  /\ (forall t, BuildSites.phone f = Some t ->
        t ∈ cleaned /\ BuildSites.is_phone t = true)
  /\ (forall t, BuildSites.category f = Some t ->
        t ∈ cleaned /\ BuildSites.is_category t = true)
  /\ (forall t, BuildSites.image f = Some t ->
        t ∈ cleaned /\ BuildSites.is_image t = true)
  /\ (forall t, BuildSites.review_snippet f = Some t ->
        exists raw, raw ∈ cleaned /\ BuildSites.is_quoted raw = true
                    /\ t = strip_chars [34] raw)
  /\ (BuildSites.status f = None
      <-> Forall (fun t => BuildSites.is_status t = false) cleaned).
Proof.
  intros cleaned f. subst f. unfold BuildSites.detect_fields. cbv zeta.
  fold cleaned.
  cbn [BuildSites.extra BuildSites.address BuildSites.phone
       BuildSites.category BuildSites.image BuildSites.review_snippet
       BuildSites.status].
  set (status_parts := filter (fun t => BuildSites.is_status t = true) cleaned).
  assert (Forall (fun t : str => t ≠ []) cleaned) as Hne.
  { apply Forall_forall. intros t Ht. by apply truthy_parts_elem in Ht as [? _]. }
  split; [|repeat split].
  - rewrite fold_left_keep. cbn [app]. apply filter_ext_in. intros t Ht.
    rewrite orb_false_iff, bool_decide_eq_false, andb_false_iff,
      bool_decide_eq_false.
    assert (t ∈ status_parts <-> BuildSites.is_status t = true) as Hst.
    { unfold status_parts. rewrite list_elem_of_filter. tauto. }
    assert (t ∈ status_parts ->
            truthy (match status_parts with
                    | [] => None
                    | _ => Some (join (u " / ") status_parts)
                    end) = true) as Htr.
    { intros Hin. destruct status_parts as [|p ps] eqn:Ep;
        [by apply elem_of_nil in Hin|].
      assert (join (u " / ") (p :: ps) ≠ []) as Hj.
      { apply join_nonempty; [done|]. rewrite <- Ep. unfold status_parts.
        apply Forall_forall. intros x Hx.
        apply list_elem_of_filter in Hx as [_ Hx].
        rewrite Forall_forall in Hne. by apply Hne. }
      by destruct (join (u " / ") (p :: ps)). }
    rewrite Hst. split.
    + intros [Hf [Hs|Hs]]; (split; [|done]).
      * destruct (BuildSites.is_status t) eqn:Es; [|done].
        rewrite Htr in Hs; [done | by apply Hst].
      * by destruct (BuildSites.is_status t).
    + intros [Hs Hf]. split; [done|]. right. by rewrite Hs.
  - by apply first_where_Some in H as [? ?].
  - by apply first_where_Some in H as [? ?].
  - by apply first_where_Some in H as [? ?].
  - by apply first_where_Some in H as [? ?].
  - by apply first_where_Some in H as [? ?].
  - by apply first_where_Some in H as [? ?].
  - by apply first_where_Some in H as [? ?].
  - by apply first_where_Some in H as [? ?].
  - intros t. destruct (BuildSites.first_where BuildSites.is_quoted cleaned)
      as [raw|] eqn:E; [|done].
    apply first_where_Some in E as [Hin Hq].
    destruct (truthy (Some raw)); [|done]. intros [= <-]. by exists raw.
  - intros H. destruct status_parts as [|p ps] eqn:Ep; [|done].
    apply Forall_forall. intros t Ht.
    destruct (BuildSites.is_status t) eqn:Es; [|done].
    assert (t ∈ status_parts) as Hin
      by (unfold status_parts; by apply list_elem_of_filter).
    rewrite Ep in Hin. by apply elem_of_nil in Hin.
  - intros H. destruct status_parts as [|p ps] eqn:Ep; [done|].
    assert (p ∈ status_parts) as Hin by (rewrite Ep; by left).
    unfold status_parts in Hin. apply list_elem_of_filter in Hin as [Hp Hin].
    rewrite Forall_forall in H. rewrite (H _ Hin) in Hp. done.
Qed.

(** ** What the writers change *)

Lemma write_text_insert (p : path) (content : str) (fs fs1 : filesystem) :
  write_text p content fs = Ok fs1 ->
  fs1 = <[p := File content]> fs
  /\ p ≠ [] /\ node_at fs (tail p) = Some Dir /\ fs !! p ≠ Some Dir.
Proof.
  destruct p as [|c up]; [done|]. simpl.
  destruct (node_at fs up) as [[|?]|] eqn:Eup; try done. plain.
  destruct (fs !! (c :: up)) as [[|?]|] eqn:Ep; try done;
    intros ?; simplify_eq; by rewrite ?Ep.
Qed.


Lemma mkdir_changes (parents : bool) (p : path) (fs fs1 : filesystem) :
  mkdir parents p fs = Ok fs1 ->
  forall q, ¬ (q ≠ [] /\ q `suffix_of` p) -> fs1 !! q = fs !! q.
Proof.
  plain. revert fs fs1. induction p as [|c up IH]; intros fs fs1; simpl; plain.
  - by intros [= <-].
  - assert (forall q (fs' : filesystem), ¬ (q ≠ [] /\ q `suffix_of` c :: up) ->
              <[c :: up := Dir]> fs' !! q = fs' !! q) as Hins.
    { intros q fs' Hq. rewrite lookup_insert_ne; [done|]. intros <-.
      apply Hq. by split. }
    destruct (fs !! (c :: up)) as [[|?]|] eqn:Ep; try done.
    + by intros [= <-].
    + destruct (node_at fs up) as [[|?]|] eqn:Eup; try done.
      * intros [= <-] q Hq. by apply Hins.
      * destruct parents; [|done].
        destruct (mkdir true up fs) as [fs'|] eqn:E; [|done]. simpl.
        intros [= <-] q Hq. rewrite Hins by done. apply (IH _ _ E).
        intros [Hne Hsuf]. apply Hq. split; [done|].
        by apply suffix_cons_r.
Qed.

Lemma touches_only_ret (inside : path -> Prop) :
  touches_only inside (fun fs => Ok fs).
Proof. by intros fs fs1 [= <-]. Qed.

Lemma touches_only_bind (inside : path -> Prop)
    (first second : filesystem -> result filesystem) :
  touches_only inside first -> touches_only inside second ->
  touches_only inside (fun fs => first fs ≫= second).
Proof.
  intros H1 H2 fs fs2 H q Hq.
  destruct (first fs) as [fs1|] eqn:E1; [|done]. simpl in H.
  rewrite (H2 _ _ H q Hq). by apply (H1 _ _ E1).
Qed.

Lemma touches_only_after {A : Type} (inside : path -> Prop) (r : result A)
    (step : A -> filesystem -> result filesystem) :
  (forall x, touches_only inside (step x)) ->
  touches_only inside (fun fs => r ≫= fun x => step x fs).
Proof. intros H. destruct r as [x|e]; [apply H | by intros fs fs1]. Qed.

Lemma touches_only_for_each {A : Type} (inside : path -> Prop) (xs : list A)
    (body : filesystem -> A -> result filesystem) :
  (forall x, touches_only inside (fun fs => body fs x)) ->
  touches_only inside (fun fs => for_each xs fs body).
Proof.
  intros H. induction xs as [|x xs IH]; simpl.
  - apply touches_only_ret.
  - exact (touches_only_bind inside (fun fs => body fs x)
             (fun fs => for_each xs fs body) (H x) IH).
Qed.

Lemma touches_only_write_text (inside : path -> Prop) (p : path)
    (content : str) :
  inside p -> touches_only inside (write_text p content).
Proof.
  intros Hp fs fs1 H q Hq. apply write_text_insert in H as (-> & _).
  rewrite lookup_insert_ne; [done|]. by intros <-.
Qed.

Lemma touches_only_mkdir (inside : path -> Prop) (parents : bool) (p : path) :
  (forall q, q ≠ [] -> q `suffix_of` p -> inside q) ->
  touches_only inside (mkdir parents p).
Proof.
  intros Hp fs fs1 H q Hq. apply (mkdir_changes _ _ _ _ H).
  intros [Hne Hsuf]. apply Hq. by apply Hp.
Qed.

Lemma touches_only_write_file `{U : Unicode} (inside : path -> Prop)
    (p : path) (content : str) :
  (forall q, q ≠ [] -> q `suffix_of` p -> inside q) ->
  touches_only inside (BuildSites.write_file p content).
Proof.
  intros Hp. unfold BuildSites.write_file.
  apply (touches_only_bind inside (mkdir true (tail p)) (write_text p content)).
  - apply touches_only_mkdir. intros q Hne Hsuf. apply Hp; [done|].
    destruct p as [|c up]; [done|]. by apply suffix_cons_r.
  - destruct p as [|c up]; [by intros fs fs1|].
    apply touches_only_write_text. by apply Hp.
Qed.

(** The non-empty paths that end a path below [docs] are below [docs]. *)
Lemma suffix_below_docs (rest q : path) :
  q ≠ [] -> q `suffix_of` rest ++ [u "docs"] -> below [u "docs"] q.
Proof.
  intros Hne [k E]. unfold below.
  destruct (reverse q) as [|x rq] eqn:Eq.
  { apply (f_equal reverse) in Eq. rewrite reverse_involutive in Eq. done. }
  apply (f_equal reverse) in E.
  rewrite !reverse_app, Eq in E. simpl in E. injection E as Ex _.
  apply (f_equal reverse) in Eq. rewrite reverse_involutive in Eq.
  rewrite Eq, reverse_cons, <- Ex. by apply suffix_app_r.
Qed.

Lemma below_docs_app (rest : path) : below [u "docs"] (rest ++ [u "docs"]).
Proof. by exists rest. Qed.

Ltac docs_path :=
  first
    [ apply (below_docs_app [])
    | apply (below_docs_app [_])
    | apply (below_docs_app [_; _])
    | apply (below_docs_app [_; _; _])
    | intros ?;
      first [ apply (suffix_below_docs [])
            | apply (suffix_below_docs [_])
            | apply (suffix_below_docs [_; _])
            | apply (suffix_below_docs [_; _; _]) ] ].

Ltac stays_below :=
  repeat first
    [ apply touches_only_ret
    | apply touches_only_write_text; docs_path
    | apply touches_only_mkdir; docs_path
    | apply touches_only_write_file; docs_path
    | apply touches_only_for_each; intros ?
    | apply touches_only_bind
    | apply touches_only_after; intros ? ].

Lemma generate_write_site_below `{U : Unicode}
    (json_dumps : list GenerateSites.Store -> str)
    (stores : list GenerateSites.Store) :
  touches_only (below [u "docs"])
    (GenerateSites.write_site json_dumps stores [u "docs"]).
Proof. unfold GenerateSites.write_site. cbv zeta. stays_below. Qed.

Lemma build_write_files_below `{U : Unicode} (stores : list Build.store) :
  touches_only (below [u "docs"]) (Build.write_files stores).
Proof.
  unfold Build.write_files, Build.ASSETS_DIR, Build.STORES_DIR,
    Build.DOCS_DIR.
  cbv zeta. stays_below.
Qed.

Lemma build_sites_main_below `{U : Unicode} `{D : Digits} (zf : workbook) :
  touches_only (below [u "docs"]) (BuildSites.main zf).
Proof.
  unfold BuildSites.main, BuildSites.SHOPS_DIR, BuildSites.DOCS_DIR.
  stays_below.
Qed.

(** X15. A run of any of the three generators changes nothing outside
    [docs]: every path that is not [docs] or below it holds after the run
    what it held before. *)
Theorem generators_write_below_docs `{U : Unicode} `{D : Digits}
    (json_dumps : list GenerateSites.Store -> str) (zf : workbook)
    (fs fs1 : filesystem) (out : str) (q : path) :
  ¬ below [u "docs"] q ->
  (GenerateSites.main json_dumps zf fs = Ok (fs1, out) -> fs1 !! q = fs !! q)
  /\ (Build.main zf fs = Ok (fs1, out) -> fs1 !! q = fs !! q)
  /\ (BuildSites.main zf fs = Ok fs1 -> fs1 !! q = fs !! q).
Proof.
  intros Hq. split; [|split].
  - unfold GenerateSites.main.
    destruct (GenerateSites.load_stores zf) as [stores|]; [|done]. run_binds.
    destruct (GenerateSites.write_site _ _ _ fs) as [fs'|] eqn:E; [|done].
    run_binds. intros [= <- _].
    by apply (generate_write_site_below _ _ _ _ E).
  - unfold Build.main.
    destruct (Build.load_strings zf) as [strings|]; [|done]. run_binds.
    destruct (Build.load_rows zf strings) as [rows|]; [|done]. run_binds.
    destruct (rmap Build.parse_store _) as [stores|]; [|done]. run_binds.
    destruct (Build.write_files _ fs) as [fs'|] eqn:E; [|done].
    run_binds. intros [= <- _].
    by apply (build_write_files_below _ _ _ E).
  - intros E. by apply (build_sites_main_below zf _ _ E).
Qed.

Lemma generators_write_below_docs_witness :
  generate_first_tree !! [u "README.md"] = None.
Proof.
  assert (¬ below [u "docs"] [u "README.md"]) as Hq.
  { intros [k Hk]. destruct k as [|x [|y k]]; by vm_compute in Hk. }
  destruct (generators_write_below_docs (U := plain_tables)
              (D := plain_digits) (fun _ => u "[]") two_shops_book ∅
              generate_first_tree generate_first_line [u "README.md"] Hq)
    as (H & _).
  etrans; [apply H; exact (proj1 generate_first_run_ok) | done].
Defined.

(** ** What the writers leave in the tree *)

(** X16. When [write_file] of [build_sites.py] succeeds, the path holds
    a file with the content given and its parent is a directory; every
    entry that was in the tree at another path is still there; and only
    the path and the directories above it can have changed. *)
Theorem write_file_round_trip `{U : Unicode} (p : path) (content : str)
    (fs fs1 : filesystem) :
  BuildSites.write_file p content fs = Ok fs1 ->
  fs1 !! p = Some (File content)
  /\ node_at fs1 (tail p) = Some Dir
  /\ (forall q n, fs !! q = Some n -> q ≠ p -> fs1 !! q = Some n)
  /\ (forall q, ¬ (q `suffix_of` p) -> fs1 !! q = fs !! q).
Proof.
  unfold BuildSites.write_file.
  destruct (mkdir true (tail p) fs) as [fs'|] eqn:Em; [|done]. run_binds.
  intros Hw. apply write_text_insert in Hw as (-> & Hne & Hdir & _).
  destruct (mkdir_adds_directories _ _ _ _ Em) as (Hsub & _ & _).
  split; [apply lookup_insert_eq|]. split.
  { destruct p as [|c [|c' up]]; [done..|]. simpl in *. plain.
    rewrite lookup_insert_ne; [done|]. apply not_eq_sym, cons_neq_tail. }
  split.
  - intros q n Hq Hqp. rewrite lookup_insert_ne by done.
    by eapply lookup_weaken.
  - intros q Hq. rewrite lookup_insert_ne.
    + apply (mkdir_changes _ _ _ _ Em). intros [_ Hsuf]. apply Hq.
      destruct p as [|c up]; [done|]. by apply suffix_cons_r.
    + intros <-. by apply Hq.
Qed.

Lemma write_file_round_trip_witness :
  exists fs1,
    BuildSites.write_file [u "a.txt"; u "out"] (u "x") ∅ = Ok fs1
    /\ fs1 !! [u "a.txt"; u "out"] = Some (File (u "x")).
Proof.
  destruct (BuildSites.write_file [u "a.txt"; u "out"] (u "x") ∅)
    as [fs1|e] eqn:E; [|discriminate E].
  exists fs1. split; [done|].
  by destruct (write_file_round_trip (U := plain_tables) _ _ _ _ E) as [H _].
Defined.

(** *** The pages of a list of records *)

Lemma last_at_cons {A : Type} (key : A -> path) (p : path) (x : A)
    (xs : list A) :
  last_at key p (x :: xs)
  = match last_at key p xs with
    | Some y => Some y
    | None => if decide (key x = p) then Some x else None
    end.
Proof.
  unfold last_at. destruct (decide (key x = p)) as [E|E].
  - rewrite filter_cons_True by done.
    destruct (filter _ xs) as [|y ys] eqn:Ef; [done|].
    rewrite last_cons. by destruct (last (y :: ys)) eqn:El.
  - rewrite filter_cons_False by done. by destruct (last _).
Qed.

(** A loop that writes one file per record leaves at each path the file
    of the last record written there. *)
Lemma for_each_write_text {A : Type} (key : A -> path) (content : A -> str)
    (xs : list A) (fs fs1 : filesystem) :
  for_each xs fs (fun fs x => write_text (key x) (content x) fs) = Ok fs1 ->
  forall p,
    fs1 !! p = match last_at key p xs with
               | Some x => Some (File (content x))
               | None => fs !! p
               end.
Proof.
  revert fs. induction xs as [|x xs IH]; intros fs; cbn [for_each].
  - by intros [= <-].
  - destruct (write_text (key x) (content x) fs) as [fs'|] eqn:E; [|done].
    run_binds. intros H p. rewrite (IH _ H p), last_at_cons.
    destruct (last_at key p xs); [done|].
    apply write_text_insert in E as (-> & _).
    destruct (decide (key x = p)) as [<-|Hne].
    + apply lookup_insert_eq.
    + by apply lookup_insert_ne.
Qed.

Lemma last_at_elem {A : Type} (key : A -> path) (p : path) (xs : list A)
    (x : A) :
  x ∈ xs -> key x = p -> is_Some (last_at key p xs).
Proof.
  intros Hin Hk. unfold last_at.
  destruct (last (filter _ xs)) eqn:E; [done|].
  apply last_None in E.
  assert (x ∈ filter (fun x => key x = p) xs) as H
    by (by apply list_elem_of_filter).
  rewrite E in H. by apply elem_of_nil in H.
Qed.

(** X17. After [write_site] of [generate_sites.py] has succeeded, the
    output directory holds the stylesheet, the index page of all the
    stores and the data dump, and the page of a slug is the detail page
    of the last store with that slug: stores that share a slug share one
    page, and the earlier ones are overwritten. *)
Theorem write_site_contents `{U : Unicode}
    (json_dumps : list GenerateSites.Store -> str)
    (stores : list GenerateSites.Store) (output_dir : path)
    (fs fs1 : filesystem) :
  GenerateSites.write_site json_dumps stores output_dir fs = Ok fs1 ->
  fs1 !! (u "site.css" :: u "assets" :: output_dir)
  = Some (File GenerateSites.STYLE_CSS)
  /\ fs1 !! (u "index.html" :: output_dir)
     = Some (File (GenerateSites.render_index stores))
  /\ fs1 !! (u "stores.json" :: output_dir)
     = Some (File (json_dumps stores))
  /\ (forall store, store ∈ stores ->
        exists winner,
          last (filter (fun s => GenerateSites.slug s = GenerateSites.slug store)
                       stores) = Some winner
          /\ fs1 !! ((GenerateSites.slug store ++ u ".html")
                       :: u "stores" :: output_dir)
             = Some (File (GenerateSites.render_detail winner))).
Proof.
  unfold GenerateSites.write_site. cbv zeta.
  destruct (mkdir true _ fs) as [fs2|]; [|done]. run_binds.
  destruct (mkdir true _ fs2) as [fs3|]; [|done]. run_binds.
  destruct (write_text _ _ fs3) as [fs4|] eqn:E4; [|done]. run_binds.
  destruct (write_text _ _ fs4) as [fs5|] eqn:E5; [|done]. run_binds.
  destruct (for_each stores fs5 _) as [fs6|] eqn:E6; [|done]. run_binds.
  intros E7.
  apply write_text_insert in E4 as (-> & _).
  apply write_text_insert in E5 as (-> & _).
  apply write_text_insert in E7 as (-> & _).
  pose proof (for_each_write_text
                (fun s => (GenerateSites.slug s ++ u ".html")
                            :: u "stores" :: output_dir)
                GenerateSites.render_detail stores _ _ E6) as Hloop.
  assert (forall p : path,
            tail p ≠ u "stores" :: output_dir ->
            last_at (fun s => (GenerateSites.slug s ++ u ".html")
                                :: u "stores" :: output_dir) p stores = None)
    as Hother.
  { intros p Hp.
    destruct (last_at _ p stores) as [s|] eqn:El; [|done]. exfalso.
    unfold last_at in El. apply last_Some_elem_of in El.
    apply list_elem_of_filter in El as [El _]. by subst p. }
  split; [|split; [|split]].
  - rewrite lookup_insert_ne by done.
    rewrite Hloop, Hother.
    + rewrite lookup_insert_ne; [apply lookup_insert_eq|].
      intros H. apply (f_equal length) in H. simpl in H. lia.
    + simpl. intros H. by simplify_eq.
  - rewrite lookup_insert_ne by done. rewrite Hloop, Hother.
    + apply lookup_insert_eq.
    + simpl. apply cons_neq_tail.
  - apply lookup_insert_eq.
  - intros store Hin.
    destruct (last_at_elem
                (fun s => (GenerateSites.slug s ++ u ".html")
                            :: u "stores" :: output_dir)
                _ stores store Hin eq_refl) as [winner Hw].
    exists winner. split.
    + unfold last_at in Hw. rewrite <- Hw. f_equal.
      apply filter_ext_in. intros s _. split.
      * by intros ->.
      * intros [= H]. by apply app_inv_tail in H.
    + rewrite lookup_insert_ne.
      * by rewrite Hloop, Hw.
      * intros H. apply (f_equal length) in H. simpl in H. lia.
Qed.

Lemma write_site_contents_witness :
  exists stores,
    GenerateSites.load_stores (U := plain_tables) two_shops_book = Ok stores
    /\ generate_first_tree !! [u "index.html"; u "docs"]
       = Some (File (GenerateSites.render_index stores))
    /\ generate_first_tree !! [u "stores.json"; u "docs"]
       = Some (File (u "[]")).
Proof.
  destruct (GenerateSites.load_stores (U := plain_tables) two_shops_book)
    as [stores|e] eqn:El; [|by vm_compute in El].
  exists stores. split; [done|].
  pose proof (proj1 generate_first_run_ok) as Hm.
  unfold GenerateSites.main in Hm. rewrite El in Hm.
  cbn [mbind result_bind] in Hm.
  destruct (GenerateSites.write_site _ stores [u "docs"] ∅) as [fs1|] eqn:E;
    [|done].
  cbn [mbind result_bind] in Hm. injection Hm as Hm _. subst fs1.
  destruct (write_site_contents (U := plain_tables) _ _ _ _ _ E)
    as (_ & H1 & H2 & _).
  by split.
Defined.

(** ** The first run, on a tree without [docs] *)

Lemma node_at_cons (fs : filesystem) (c : str) (up : path) :
  node_at fs (c :: up) = fs !! (c :: up).
Proof. done. Qed.





